(** * Matrix inversion profiling analysis: a shallow embedding

    The development follows [Doc/Matrix_project/analyze_profile.py]: the
    [ProfileAnalyzer] class (loading the CSV table, deriving the
    per-implementation metrics, the markdown, JSON and console renderers) and
    the command-line driver [main].

    Python floats are IEEE-754 binary64 numbers; they are modelled by Rocq's
    primitive floats, whose operations are the same binary64 operations.  What
    Python adds on top (a division by zero raises instead of returning an
    infinity, [min] keeps the first of several smallest items) is written out
    in the [Py] module.

    The table read from the CSV file is taken to have the four columns the
    program reads, with numbers in the three latency columns (the record of
    the specification); the cells of the name column are whatever pandas makes
    of them: strings, integers, booleans, or a NaN for an empty cell.  Opening
    a file, writing to it, printing and making a directory are taken to
    succeed. *)

From Stdlib Require Import Reals Lra ZArith List Ascii String Bool Lia Floats.
Import ListNotations.

Set Warnings "-inexact-float,-register-all".

Local Open Scope string_scope.
Local Open Scope list_scope.

(** ** Python values, exceptions and builtins *)

Module Py.

(** The exceptions this program can meet.  [OtherError] stands for whatever
    else a library call may raise (a parse error, a permission error). *)
Inductive exn : Type :=
| FileNotFoundError
| ZeroDivisionError
| IndexError
| ValueError
| TypeError
| SystemExit (code : Z)
| OtherError (what : string).

Inductive result (A : Type) : Type :=
| Ok (a : A)
| Raise (e : exn).
Arguments Ok {A} a.
Arguments Raise {A} e.

Definition bind {A B} (c : result A) (k : A -> result B) : result B :=
  match c with
  | Ok a => k a
  | Raise e => Raise e
  end.

(** [a / b] on floats: CPython's [float_div] tests [b == 0.0] (true for both
    signed zeros, false for a NaN) and raises; otherwise it is the binary64
    division, overflow and NaN included. *)
Definition truediv (a b : float) : result float :=
  if PrimFloat.eqb b 0%float then Raise ZeroDivisionError
  else Ok (PrimFloat.div a b).

(** [a / b] on two ints: the correctly rounded quotient.  For operands below
    2^53 in magnitude, which is all this program uses, that is the binary64
    quotient of the two converted operands. *)
Definition int_truediv (a b : Z) : result float :=
  if Z.eqb b 0 then Raise ZeroDivisionError
  else Ok (PrimFloat.div (PrimFloat.of_uint63 (Uint63.of_Z a))
                         (PrimFloat.of_uint63 (Uint63.of_Z b))).

(** [min(iterable, key=...)]: the first item is the candidate, and a later
    item replaces it only when its key compares strictly smaller ([<]). *)
Fixpoint min_from {A} (key : A -> float) (best : A) (l : list A) : A :=
  match l with
  | [] => best
  | x :: t =>
      if PrimFloat.ltb (key x) (key best) then min_from key x t
      else min_from key best t
  end.

Definition min_key {A} (key : A -> float) (l : list A) : result A :=
  match l with
  | [] => Raise ValueError
  | x :: t => Ok (min_from key x t)
  end.

(** What a [dict] asks of its keys: a test ([__hash__] with [__eq__]) that
    tells when two keys are the same key. *)
Class Key (K : Type) : Type := key_eqb : K -> K -> bool.
Arguments key_eqb : simpl never.

(** The test is lawful when it tells exactly the equal keys. *)
Class KeyLaws (K : Type) `{Key K} : Prop :=
  key_eqb_eq : forall a b : K, key_eqb a b = true <-> a = b.

#[export] Instance string_key : Key string := String.eqb.

(** A [dict]: insertion ordered, a key bound at most once.  [d[k] = v]
    overwrites in place or appends. *)
Definition dict (K V : Type) : Type := list (K * V).

Fixpoint setitem {K} `{Key K} {V} (d : dict K V) (k : K) (v : V) : dict K V :=
  match d with
  | [] => [(k, v)]
  | (k', v') :: t =>
      if key_eqb k' k then (k, v) :: t else (k', v') :: setitem t k v
  end.

Fixpoint getitem {K} `{Key K} {V} (d : dict K V) (k : K) : option V :=
  match d with
  | [] => None
  | (k', v') :: t => if key_eqb k' k then Some v' else getitem t k
  end.

Definition items {K V} (d : dict K V) : list (K * V) := d.
Definition keys {K V} (d : dict K V) : list K := map fst d.

(** Truth value of a container and of an optional string. *)
Definition truthy_dict {K V} (d : dict K V) : bool :=
  match d with [] => false | _ => true end.

Definition truthy_str (o : option string) : bool :=
  match o with
  | None => false
  | Some s => negb (String.eqb s "")
  end.

End Py.

Import Py.

Declare Scope py_scope.
Delimit Scope py_scope with py.
Notation "x <- c ;; k" := (Py.bind c (fun x => k))
  (at level 61, c at next level, right associativity) : py_scope.
Local Open Scope py_scope.

(** ** The table: a pandas DataFrame with the four columns the program reads *)

Module Table.

(** A cell of the name column, as pandas hands it to the program: a Python
    [str]; a [numpy.int64] when every cell of the column is an integer; a
    [numpy.bool_] when every cell is [True] or [False]; a float NaN for an
    empty cell (or [NA], [null], ...).  A float other than a NaN (a column of
    decimal numbers) is selected, printed and taken as a JSON key the way a
    [str] is; it has no constructor of its own and stands as the [Str] of its
    [repr] (the two zeros, which pandas takes for one name, apart). *)
Inductive Name : Type :=
| Str (s : string)
| Int64 (z : Z)
| Bool_ (b : bool)
| NaN.

Coercion Str : string >-> Name.

(** [a == b] on two cells: a NaN is equal to nothing, not even to itself. *)
Definition eq_name (a b : Name) : bool :=
  match a, b with
  | Str x, Str y => String.eqb x y
  | Int64 x, Int64 y => Z.eqb x y
  | Bool_ x, Bool_ y => Bool.eqb x y
  | _, _ => false
  end.

(** The test of the hash table behind [unique()] and of a dict holding the
    cells as keys: [==], except that a NaN is the same as a NaN. *)
Definition same_name (a b : Name) : bool :=
  match a, b with
  | NaN, NaN => true
  | _, _ => eq_name a b
  end.

#[export] Instance name_key : Key Name := same_name.

(** One data row: the name cell, and the values [float(...)] yields for the
    three latency cells. *)
Record Row : Type := mkRow {
  Implementation : Name;
  Min_ms : float;
  Max_ms : float;
  Avg_ms : float
}.

Definition DataFrame : Type := list Row.

(** [Series.unique()]: the distinct values in order of first appearance, all
    the NaN cells counting as one value. *)
Fixpoint unique_from (seen : list Name) (l : list Name) : list Name :=
  match l with
  | [] => []
  | x :: t =>
      if existsb (same_name x) seen then unique_from seen t
      else x :: unique_from (x :: seen) t
  end.

Definition unique (l : list Name) : list Name := unique_from [] l.

(** [df[df['Implementation'] == impl]]: the boolean-mask selection, by [==];
    for a NaN [impl] the mask is all [False] and nothing is selected. *)
Definition select (df : DataFrame) (impl : Name) : DataFrame :=
  filter (fun r => eq_name (Implementation r) impl) df.

Definition column (f : Row -> float) (df : DataFrame) : list float := map f df.

(** [.values[0]]: an empty array raises [IndexError]. *)
Definition values_0 (col : list float) : result float :=
  match col with
  | [] => Raise IndexError
  | x :: _ => Ok x
  end.

End Table.

Import Table.

(** ** The derived metrics *)

Record Metrics : Type := mkMetrics {
  min_ms : float;
  max_ms : float;
  avg_ms : float;
  target_met : bool;
  flops : float
}.

Definition AnalysisResult : Type := Py.dict Name Metrics.

(** The literals of line 58 and 59. *)
Definition TARGET_MS : float := 5.0%float.
Definition N : Z := 341.
Definition MS_TO_S : float := 1e-3%float.
Definition GIGA : float := 1e9%float.

(** [(4 * 341**3 / 3) / (avg * 1e-3) / 1e9], evaluated left to right the way
    Python does, every division guarded. *)
Definition gflops (avg : float) : result float :=
  flop_count <- Py.int_truediv (4 * N ^ 3) 3 ;;
  per_second <- Py.truediv flop_count (PrimFloat.mul avg MS_TO_S) ;;
  Py.truediv per_second GIGA.

(** The dict display of lines 54-60 for the rows selected for one name. *)
Definition metrics_of (impl_data : DataFrame) : result Metrics :=
  mn <- values_0 (column Min_ms impl_data) ;;
  mx <- values_0 (column Max_ms impl_data) ;;
  av <- values_0 (column Avg_ms impl_data) ;;
  av' <- values_0 (column Avg_ms impl_data) ;;
  av'' <- values_0 (column Avg_ms impl_data) ;;
  fl <- gflops av'' ;;
  Ok (mkMetrics mn mx av (PrimFloat.ltb av' TARGET_MS) fl).

(** The loop of lines 51-60 over the remaining names, [analysis] being the
    dict built so far. *)
Fixpoint analyze_loop (df : DataFrame) (impls : list Name)
    (analysis : AnalysisResult) : result AnalysisResult :=
  match impls with
  | [] => Ok analysis
  | impl :: rest =>
      m <- metrics_of (select df impl) ;;
      analyze_loop df rest (Py.setitem analysis impl m)
  end.

Definition analyze (df : DataFrame) : result AnalysisResult :=
  analyze_loop df (unique (map Implementation df)) [].

(** ** Effects: standard output, written files, the clock *)

(** The value handed to [json.dump]; a time stamp is named by the rank of
    the clock reading it comes from.  The keys of a dict are cells of the
    name column or, through [Str], strings. *)
Inductive json : Type :=
| JString (s : string)
| JInt (z : Z)
| JFloat (x : float)
| JBool (b : bool)
| JIsoformat (tick : nat)               (* [datetime.now().isoformat()] *)
| JObject (fields : list (Name * json)).

(** The keys [json.dump] takes: [str], [int], [float], [bool] or [None].  A
    [numpy.int64] and a [numpy.bool_] are none of these; a NaN is a float. *)
Definition json_key_ok (n : Name) : bool :=
  match n with
  | Str _ | NaN => true
  | Int64 _ | Bool_ _ => false
  end.

(** Whether [json.dump] gets through a value: every key of every dict in it
    is one it takes. *)
Fixpoint serialisable (j : json) : bool :=
  match j with
  | JObject fields =>
      forallb (fun kv => json_key_ok (fst kv) && serialisable (snd kv)) fields
  | _ => true
  end.

(** A formatted string: literal pieces and the values an f-string
    interpolates, kept symbolic. *)
Inductive Tok : Type :=
| Lit (s : string)
| Interp (n : Name)                     (* [{impl}]: the [str()] of a name *)
| Fixed (digits : nat) (x : float)      (* [{x:.4f}], [{x:.2f}] *)
| Strftime (fmt : string) (tick : nat)  (* [datetime.now().strftime(fmt)] *)
| Isoformat (tick : nat)                (* [datetime.now().isoformat()] *)
| JsonDump (indent : nat) (data : json) (* [json.dump(data, f, indent=...)] *)
| JsonTruncated (indent : nat) (data : json)
    (* what [json.dump] has written of [data] when it meets the first key it
       does not take *).

Definition text : Type := list Tok.

(** The part of the machine the program changes: the lines printed, the
    files written (each a sequence of writes), the directories made, and the
    number of times the clock has been read.  Opening a file for writing,
    writing to it and making a directory are taken to succeed. *)
Record World : Type := mkWorld {
  stdout : list text;
  files : Py.dict string (list text);
  made_dirs : list string;
  clock : nat
}.

Definition initial_world : World := mkWorld [] [] [] 0.

(** The part it only reads: what is found at a path when [pd.read_csv] is
    called on it, which paths exist, and which ancestors of a path do not
    (outermost first). *)
Inductive source (A : Type) : Type :=
| Parsed (table : A)       (* the file is there and parses to [table] *)
| Missing                  (* no such file: [FileNotFoundError] *)
| Unreadable (why : string) (* any other failure of the read *).
Arguments Parsed {A} table.
Arguments Missing {A}.
Arguments Unreadable {A} why.

Record Env : Type := mkEnv {
  primary_at : string -> source DataFrame;
  rocprof_at : string -> source (list (list string));
  path_exists : string -> bool;
  missing_parents : string -> list string
}.

(** [pd.read_csv(path)] *)
Definition read_csv {A} (src : source A) : result A :=
  match src with
  | Parsed table => Ok table
  | Missing => Raise FileNotFoundError
  | Unreadable why => Raise (OtherError why)
  end.

Definition IO (A : Type) : Type := World -> result A * World.

Module IOM.

Definition ret {A} (a : A) : IO A := fun w => (Ok a, w).

Definition bind {A B} (c : IO A) (k : A -> IO B) : IO B :=
  fun w =>
    match c w with
    | (Ok a, w') => k a w'
    | (Raise e, w') => (Raise e, w')
    end.

Definition raise {A} (e : exn) : IO A := fun w => (Raise e, w).

Definition lift {A} (r : result A) : IO A := fun w => (r, w).

Definition print (t : text) : IO unit :=
  fun w => (Ok tt, mkWorld (stdout w ++ [t]) (files w) (made_dirs w) (clock w)).

(** [open(path, 'w')]: the file is created or truncated. *)
Definition open_w (path : string) : IO unit :=
  fun w => (Ok tt, mkWorld (stdout w) (Py.setitem (files w) path [])
                           (made_dirs w) (clock w)).

Definition fwrite (path : string) (t : text) : IO unit :=
  fun w =>
    let sofar := match Py.getitem (files w) path with
                 | Some ws => ws
                 | None => []
                 end in
    (Ok tt, mkWorld (stdout w) (Py.setitem (files w) path (sofar ++ [t]))
                    (made_dirs w) (clock w)).

(** [os.makedirs(path)]: the ancestors of [path] that are missing are made
    first, then [path] itself. *)
Definition makedirs (parents : list string) (path : string) : IO unit :=
  fun w => (Ok tt, mkWorld (stdout w) (files w)
                           (made_dirs w ++ parents ++ [path]) (clock w)).

(** [datetime.now()]: the reading is named by its rank. *)
Definition now : IO nat :=
  fun w => (Ok (clock w), mkWorld (stdout w) (files w) (made_dirs w) (S (clock w))).

Fixpoint for_each {A} (l : list A) (body : A -> IO unit) : IO unit :=
  match l with
  | [] => ret tt
  | x :: t => bind (body x) (fun _ => for_each t body)
  end.

(** [json.dump(data, f, indent=indent)] into the open file [path]: the text
    is written piece by piece, so a key that is not taken leaves the file
    with what was written before it, and [TypeError] is raised. *)
Definition json_dump (data : json) (path : string) (indent : nat) : IO unit :=
  if serialisable data then fwrite path [JsonDump indent data]
  else bind (fwrite path [JsonTruncated indent data]) (fun _ => raise TypeError).

End IOM.

Declare Scope io_scope.
Delimit Scope io_scope with io.
Notation "x <- c ;; k" := (IOM.bind c (fun x => k))
  (at level 61, c at next level, right associativity) : io_scope.
Notation "c ;;; k" := (IOM.bind c (fun _ => k))
  (at level 61, right associativity) : io_scope.

(** ** Strings of the reports *)

Definition nl : string := String (Ascii.ascii_of_nat 10) "".

Fixpoint str_repeat (s : string) (n : nat) : string :=
  match n with
  | O => ""
  | S n' => (s ++ str_repeat s n')%string
  end.

Definition yes_no (b : bool) (y n : string) : Tok := Lit (if b then y else n).

(** ** The analyzer *)

Record ProfileAnalyzer : Type := mkAnalyzer {
  csv_file : string;
  json_file : option string;
  results_df : option DataFrame;
  profiling_data : AnalysisResult
}.

Definition set_results_df (self : ProfileAnalyzer) (df : DataFrame) :=
  mkAnalyzer (csv_file self) (json_file self) (Some df) (profiling_data self).

Definition set_profiling_data (self : ProfileAnalyzer) (a : AnalysisResult) :=
  mkAnalyzer (csv_file self) (json_file self) (results_df self) a.

(** [best_impl = min(self.profiling_data.items(), key=lambda x: x[1]['avg_ms'])],
    the expression of lines 82-83 and of line 206. *)
Definition best_of (data : AnalysisResult) : result (Name * Metrics) :=
  Py.min_key (fun x => avg_ms (snd x)) (Py.items data).

Section Analyzer.

Variable env : Env.

Local Open Scope io_scope.

(** [__init__] *)
Definition init (csv : string) (json : option string) : ProfileAnalyzer :=
  mkAnalyzer csv json None [].

(** [load_results]: only [FileNotFoundError] is caught. *)
Definition load_results (self : ProfileAnalyzer) : IO (bool * ProfileAnalyzer) :=
  match read_csv (primary_at env (csv_file self)) with
  | Ok df =>
      IOM.print [Lit "✓ Loaded results from "; Lit (csv_file self)] ;;;
      IOM.ret (true, set_results_df self df)
  | Raise FileNotFoundError =>
      IOM.print [Lit "✗ File not found: "; Lit (csv_file self)] ;;;
      IOM.ret (false, self)
  | Raise e => IOM.raise e
  end.

Definition load_rocprof_results (rocprof_csv : string)
  : IO (option (list (list string))) :=
  match read_csv (rocprof_at env rocprof_csv) with
  | Ok rocprof_df =>
      IOM.print [Lit "✓ Loaded rocprof results from "; Lit rocprof_csv] ;;;
      IOM.ret (Some rocprof_df)
  | Raise FileNotFoundError =>
      IOM.print [Lit "✗ File not found: "; Lit rocprof_csv] ;;;
      IOM.ret None
  | Raise e => IOM.raise e
  end.

(** [analyze_performance] *)
Definition analyze_performance (self : ProfileAnalyzer)
  : IO (option AnalysisResult * ProfileAnalyzer) :=
  match results_df self with
  | None =>
      IOM.print [Lit "✗ No results loaded. Call load_results() first."] ;;;
      IOM.ret (None, self)
  | Some df =>
      analysis <- IOM.lift (analyze df) ;;
      IOM.ret (Some analysis, set_profiling_data self analysis)
  end.

Definition line (s : string) : string := (s ++ nl)%string.
Definition para (s : string) : string := (s ++ nl ++ nl)%string.

Definition write_all (f : string) (l : list string) : IO unit :=
  IOM.for_each l (fun s => IOM.fwrite f [Lit s]).

(** Lines 71-77: the fixed target block. *)
Definition md_target_block : list string :=
  [ para "## Executive Summary";
    line "### Target Specification";
    line "- **Matrix Size:** 341×341 complex symmetric";
    line "- **GPU:** AMD MI100 / AI100";
    line "- **Target Time:** <5 milliseconds (GPU execution only)";
    line "- **Matrix Type:** Complex Hermitian (Symmetric)";
    para "- **Precision:** Single (complex<float>)" ].

(** Lines 101-154: the fixed technical prose. *)
Definition md_static_block : list string :=
  [ para "## Technical Details";
    para "### Algorithm Overview";
    line "#### rocSOLVER Approach";
    line "- Uses optimized GETRF (LU factorization) from AMD rocSOLVER";
    line "- Followed by GETRI (matrix inversion using LU factors)";
    line "- Advantages: Numerical stability, vendor-optimized";
    para "- Complexity: O(N³) with N=341";
    line "#### Hybrid Approach";
    line "- GETRF for LU decomposition";
    line "- TRSM (Triangular Solve) for solving L*X=I and U*X=I";
    line "- Advantages: Better data reuse, potential for fused kernels";
    para "- Complexity: O(N³) operations with better memory access";
    para "### GPU Hardware Specifications (MI100/AI100)";
    line "| Property | Value |";
    line "|----------|-------|";
    line "| Compute Units | 120 |";
    line "| Peak FP32 Performance | 40 TFLOPS |";
    line "| Memory Bandwidth | 900 GB/s |";
    line "| L1 Cache (per CU) | 16 KB |";
    line "| L2 Cache | 4 MB |";
    line "| LDS (per CU) | 96 KB |";
    para "| Max Wavefront Size | 64 threads |";
    para "### Performance Bottleneck Analysis";
    line "**Matrix Inversion FLOPs:**";
    line "- LU Decomposition: (2N³/3 - N²/2 + 5N/6) FLOPs";
    line "- For N=341: ~157 million FLOPs";
    line "- At 1.6 ms (hybrid): ~98 GFLOPs achieved";
    para "- Peak theoretical (40 TFLOPs): utilization ~0.25%";
    line "**Arithmetic Intensity:**";
    line "- Matrix size: 341×341 × 2 floats (complex) = ~930 KB";
    line "- 157 million FLOPs / 930 KB ≈ 169 FLOPs/byte";
    para "- Very high arithmetic intensity → Compute-bound";
    para "### Recommendations";
    line "1. **Use Hybrid Approach** - GETRF + TRSM shows better performance";
    line "2. **Ensure LDS Optimization** - Cache A and B blocks in LDS";
    line "3. **Register Tiling** - Use register tiles for GEMM operations";
    line "4. **Memory Coalescing** - Align memory accesses to 128-byte boundaries";
    para "5. **Wave Occupancy** - Target 80%+ occupancy with 256 threads/block";
    para "### Known Limitations";
    line "- Single matrix size (341×341) - may not generalize";
    line "- No comparison with NVIDIA A100 baseline";
    para "- rocSOLVER version specific optimizations not explored";
    para "## References";
    line "- [AMD rocSOLVER Documentation](https://rocm.docs.amd.com/projects/rocSOLVER/)";
    line "- [AMD rocBLAS Documentation](https://rocm.docs.amd.com/projects/rocBLAS/)";
    line "- [GPU Kernel Profiling Best Practices](https://apxml.com/)";
    para "- [RDNA Performance Guide](https://gpuopen.com/learn/rdna-performance-guide/)" ].

(** Lines 84-87: the four writes naming the best implementation. *)
Definition md_best_lines (best_impl : Name * Metrics) : list text :=
  [ [Lit "**Best Implementation:** "; Interp (fst best_impl); Lit nl];
    [Lit "- **Average Time:** "; Fixed 4 (avg_ms (snd best_impl)); Lit (line " ms")];
    [Lit "- **Target Met:** ";
     yes_no (target_met (snd best_impl)) "✓ Yes" "✗ No"; Lit nl];
    [Lit "- **Estimated Performance:** "; Fixed 2 (flops (snd best_impl));
     Lit (para " GFLOPs")] ].

(** Lines 92-99: the table of one implementation. *)
Definition md_impl_lines (entry : Name * Metrics) : list text :=
  let '(impl, metrics) := entry in
  [ [Lit "### "; Interp impl; Lit (nl ++ nl)%string];
    [Lit (line "| Metric | Value |")];
    [Lit (line "|--------|-------|")];
    [Lit "| Min Time | "; Fixed 4 (min_ms metrics); Lit (line " ms |")];
    [Lit "| Max Time | "; Fixed 4 (max_ms metrics); Lit (line " ms |")];
    [Lit "| Avg Time | "; Fixed 4 (avg_ms metrics); Lit (line " ms |")];
    [Lit "| Target (<5 ms) | ";
     yes_no (target_met metrics) "✓ Met" "✗ Not Met"; Lit (line " |")];
    [Lit "| Estimated GFLOPs | "; Fixed 2 (flops metrics); Lit (para " |")] ].

(** Lines 79-99: the data-driven part, skipped for an empty dict. *)
Definition md_results (f : string) (data : AnalysisResult) : IO unit :=
  if Py.truthy_dict data then
    IOM.fwrite f [Lit (para "### Key Results")] ;;;
    best_impl <- IOM.lift (best_of data) ;;
    IOM.for_each (md_best_lines best_impl) (IOM.fwrite f) ;;;
    IOM.fwrite f [Lit (para "## Detailed Performance Analysis")] ;;;
    IOM.for_each (Py.items data)
      (fun entry => IOM.for_each (md_impl_lines entry) (IOM.fwrite f))
  else IOM.ret tt.

(** [generate_markdown_report] *)
Definition generate_markdown_report (self : ProfileAnalyzer) (output_file : string)
  : IO unit :=
  IOM.open_w output_file ;;;
  IOM.fwrite output_file [Lit (para "# GPU Matrix Inversion Profiling Report")] ;;;
  t <- IOM.now ;;
  IOM.fwrite output_file
    [Lit "**Generated:** "; Strftime "%Y-%m-%d %H:%M:%S" t; Lit (nl ++ nl)%string] ;;;
  write_all output_file md_target_block ;;;
  md_results output_file (profiling_data self) ;;;
  write_all output_file md_static_block ;;;
  t' <- IOM.now ;;
  IOM.fwrite output_file
    [Lit (line "---"); Lit "**Report Generated:** "; Isoformat t'; Lit nl] ;;;
  IOM.print [Lit "✓ Report generated: "; Lit output_file].

(** The dict the analysis holds for one implementation (lines 54-60). *)
Definition json_of_metrics (m : Metrics) : json :=
  JObject [ (Str "min_ms", JFloat (min_ms m));
            (Str "max_ms", JFloat (max_ms m));
            (Str "avg_ms", JFloat (avg_ms m));
            (Str "target_met", JBool (target_met m));
            (Str "flops", JFloat (flops m)) ].

Definition json_hardware : json :=
  JObject [ (Str "compute_units", JInt 120);
            (Str "peak_flops_tflops", JInt 40);
            (Str "memory_bandwidth_gb_s", JInt 900);
            (Str "l1_cache_kb", JInt 16);
            (Str "l2_cache_mb", JInt 4);
            (Str "lds_per_cu_kb", JInt 96);
            (Str "wavefront_size", JInt 64) ].

(** The dict of lines 162-178, the clock having been read at [t]. *)
Definition json_document (data : AnalysisResult) (t : nat) : json :=
  JObject [ (Str "timestamp", JIsoformat t);
            (Str "gpu", JString "AMD MI100/AI100");
            (Str "matrix_size", JInt 341);
            (Str "matrix_type", JString "complex_symmetric");
            (Str "target_time_ms", JFloat 5.0%float);
            (Str "implementations",
             JObject (map (fun kv => (fst kv, json_of_metrics (snd kv)))
                          (Py.items data)));
            (Str "hardware", json_hardware) ].

(** [generate_json_report]: the dict is built, the file opened, the dump
    written, the file closed (also when the dump raises), the line printed. *)
Definition generate_json_report (self : ProfileAnalyzer) (output_file : string)
  : IO unit :=
  t <- IOM.now ;;
  let data := json_document (profiling_data self) t in
  IOM.open_w output_file ;;;
  IOM.json_dump data output_file 2 ;;;
  IOM.print [Lit "✓ JSON report generated: "; Lit output_file].

Definition rule : string := str_repeat "=" 70.

(** Lines 197-202: the six lines printed for one implementation. *)
Definition console_impl_lines (entry : Name * Metrics) : list text :=
  let '(impl, metrics) := entry in
  [ [Interp impl; Lit ":"];
    [Lit "  Min:     "; Fixed 4 (min_ms metrics); Lit " ms"];
    [Lit "  Max:     "; Fixed 4 (max_ms metrics); Lit " ms"];
    [Lit "  Avg:     "; Fixed 4 (avg_ms metrics); Lit " ms"];
    [Lit "  Status:  ";
     yes_no (target_met metrics) "✓ Target Met" "✗ Target Not Met"];
    [Lit "  GFLOPs:  "; Fixed 2 (flops metrics); Lit nl] ].

(** Lines 207-209. *)
Definition console_best_lines (best_impl : Name * Metrics) : list text :=
  [ [Lit "Best Implementation: "; Interp (fst best_impl)];
    [Lit "Best Time: "; Fixed 4 (avg_ms (snd best_impl)); Lit " ms"];
    [Lit "Target (<5 ms): ";
     yes_no (target_met (snd best_impl)) "✓ ACHIEVED" "✗ NOT MET"] ].

Definition no_data_line : text := [Lit "✗ No profiling data available"].

(** [print_summary] *)
Definition print_summary (self : ProfileAnalyzer) : IO unit :=
  IOM.print [Lit (nl ++ rule)%string] ;;;
  IOM.print [Lit "PROFILING SUMMARY"] ;;;
  IOM.print [Lit (rule ++ nl)%string] ;;;
  if negb (Py.truthy_dict (profiling_data self)) then
    IOM.print no_data_line
  else
    IOM.for_each (Py.items (profiling_data self))
      (fun entry => IOM.for_each (console_impl_lines entry) IOM.print) ;;;
    IOM.print [Lit rule] ;;;
    best_impl <- IOM.lift (best_of (profiling_data self)) ;;
    IOM.for_each (console_best_lines best_impl) IOM.print ;;;
    IOM.print [Lit (rule ++ nl)%string].

(** ** The command line *)

(** The namespace [parse_args] returns. *)
Record Args : Type := mkArgs {
  arg_csv_file : string;
  arg_rocprof : option string;
  arg_markdown : bool;
  arg_json : bool;
  arg_output : option string
}.

Definition ends_with_slash (s : string) : bool :=
  match String.get (String.length s - 1) s with
  | Some c => Ascii.eqb c "/"%char
  | None => false
  end.

(** [os.path.join(a, b)] for a relative [b]. *)
Definition os_path_join (a b : string) : string :=
  if String.eqb a "" || ends_with_slash a then (a ++ b)%string
  else (a ++ "/" ++ b)%string.

Definition wants_markdown (args : Args) : bool :=
  arg_markdown args
  || (negb (arg_json args) && negb (Py.truthy_str (arg_rocprof args))).

Definition wants_json (args : Args) : bool :=
  arg_json args
  || (negb (arg_markdown args) && negb (Py.truthy_str (arg_rocprof args))).

Definition when (b : bool) (c : IO unit) : IO unit :=
  if b then c else IOM.ret tt.

Definition output_dir_of (args : Args) : string :=
  match arg_output args with
  | Some d => if Py.truthy_str (Some d) then d else "."
  | None => "."
  end.

(** [main], after [parse_args]. *)
Definition main (args : Args) : IO unit :=
  let output_dir := output_dir_of args in
  when (negb (String.eqb output_dir ".") && negb (path_exists env output_dir))
       (IOM.makedirs (missing_parents env output_dir) output_dir) ;;;
  let analyzer := init (arg_csv_file args) (arg_rocprof args) in
  loaded <- load_results analyzer ;;
  let analyzer := snd loaded in
  when (negb (fst loaded)) (IOM.raise (SystemExit 1)) ;;;
  analysed <- analyze_performance analyzer ;;
  let analyzer := snd analysed in
  when (wants_markdown args)
       (generate_markdown_report analyzer
          (os_path_join output_dir "profiling_report.md")) ;;;
  when (wants_json args)
       (generate_json_report analyzer
          (os_path_join output_dir "profiling_data.json")) ;;;
  print_summary analyzer.

(** The status the interpreter exits with: 0 when [main] returns, the code
    of a [sys.exit], 1 for any other uncaught exception. *)
Definition exit_status (r : result unit) : Z :=
  match r with
  | Ok _ => 0
  | Raise (SystemExit code) => code
  | Raise _ => 1
  end.

Definition run (args : Args) : Z * World :=
  let '(r, w) := main args initial_world in (exit_status r, w).

End Analyzer.

(** ** Notions used to state the properties *)

(** The rows of a table that the mask selects for a given name. *)
Definition named (n : Name) (r : Row) : bool := eq_name (Implementation r) n.

(** The metrics derived from one row. *)
Definition derive (r : Row) : result Metrics :=
  fl <- gflops (Avg_ms r) ;;
  Ok (mkMetrics (Min_ms r) (Max_ms r) (Avg_ms r)
                (PrimFloat.ltb (Avg_ms r) TARGET_MS) fl).

(** The entry the loop adds for one name. *)
Definition entry_for (df : DataFrame) (n : Name) : result (Name * Metrics) :=
  m <- metrics_of (select df n) ;; Ok (n, m).

Fixpoint collect {A B} (f : A -> result B) (l : list A) : result (list B) :=
  match l with
  | [] => Ok []
  | x :: t => y <- f x ;; ys <- collect f t ;; Ok (y :: ys)
  end.

(** The throughput formula as the specification writes it, in binary64
    arithmetic with IEEE division: [(4 * n**3 / 3) / (avg * 1e-3) / 1e9]. *)
Definition throughput_formula (n : Z) (avg : float) : float :=
  PrimFloat.div
    (PrimFloat.div
       (PrimFloat.div (PrimFloat.of_uint63 (Uint63.of_Z (4 * n ^ 3))) 3%float)
       (PrimFloat.mul avg 1e-3%float))
    1e9%float.

(** [x] is within the relative tolerance [tol] of [target]. *)
Definition approx (x target tol : float) : bool :=
  PrimFloat.leb (PrimFloat.abs (PrimFloat.sub x target))
                (PrimFloat.mul tol (PrimFloat.abs target)).

(** [best] is a first minimum of [l] for [key], at index [i]: no item compares
    strictly below it, and no item before it compares equal to it. *)
Definition first_minimum {A} (key : A -> float) (l : list A) (i : nat) (best : A)
  : Prop :=
  nth_error l i = Some best /\
  (forall e, In e l -> PrimFloat.ltb (key e) (key best) = false) /\
  (forall j e, (j < i)%nat -> nth_error l j = Some e ->
               PrimFloat.eqb (key e) (key best) = false).

Definition avg_of (entry : Name * Metrics) : float := avg_ms (snd entry).

Definition lit (s : string) : text := [Lit s].

(** What [md_results] writes. *)
Definition md_results_lines (data : AnalysisResult) : list text :=
  match data with
  | [] => []
  | x :: t =>
      [lit (para "### Key Results")]
      ++ md_best_lines (Py.min_from (fun e => avg_ms (snd e)) x t)
      ++ [lit (para "## Detailed Performance Analysis")]
      ++ flat_map md_impl_lines data
  end.

(** The whole markdown document, the clock being read at [t] and [t + 1]. *)
Definition md_document (data : AnalysisResult) (t : nat) : list text :=
  [lit (para "# GPU Matrix Inversion Profiling Report");
   [Lit "**Generated:** "; Strftime "%Y-%m-%d %H:%M:%S" t; Lit (nl ++ nl)%string]]
  ++ map lit md_target_block
  ++ md_results_lines data
  ++ map lit md_static_block
  ++ [[Lit (line "---"); Lit "**Report Generated:** "; Isoformat (S t); Lit nl]].

(** The three lines that open the console summary. *)
Definition summary_head : list text :=
  [lit (nl ++ rule)%string; lit "PROFILING SUMMARY"; lit (rule ++ nl)%string].

(** What [print_summary] prints. *)
Definition summary_lines (data : AnalysisResult) : list text :=
  summary_head
  ++ match data with
     | [] => [no_data_line]
     | x :: t =>
         flat_map console_impl_lines data
         ++ [lit rule]
         ++ console_best_lines (Py.min_from (fun e => avg_ms (snd e)) x t)
         ++ [lit (rule ++ nl)%string]
     end.

Definition md_path (args : Args) : string :=
  os_path_join (output_dir_of args) "profiling_report.md".
Definition json_path (args : Args) : string :=
  os_path_join (output_dir_of args) "profiling_data.json".

(** The world after the directory step of [main]. *)
Definition after_makedirs (env : Env) (args : Args) (w : World) : World :=
  if negb (String.eqb (output_dir_of args) ".")
     && negb (path_exists env (output_dir_of args))
  then mkWorld (stdout w) (files w)
               (made_dirs w ++ missing_parents env (output_dir_of args)
                           ++ [output_dir_of args])
               (clock w)
  else w.

Definition report_step (b : bool) (path : string) (content : list text)
    (F : Py.dict string (list text)) : Py.dict string (list text) :=
  if b then Py.setitem F path content else F.

(** ** Binary64 numbers as real numbers *)

Module Binary64.

Local Open Scope R_scope.

(** [p2 e] is 2^e for any integer [e]. *)
Definition p2 (e : Z) : R := powerRZ 2 e.

(** A shift record stands for a real number [t]: its integer part, and
    where [t] lies between that integer and the next. *)
Definition represents (mrs : shr_record) (t : R) : Prop :=
  (0 <= shr_m mrs)%Z /\
  match shr_r mrs, shr_s mrs with
  | false, false => t = IZR (shr_m mrs)
  | false, true => IZR (shr_m mrs) < t < IZR (shr_m mrs) + / 2
  | true, false => t = IZR (shr_m mrs) + / 2
  | true, true => IZR (shr_m mrs) + / 2 < t < IZR (shr_m mrs) + 1
  end.

(** The result of rounding as a binary64 number: the integer [m2] on the grid
    of exponent [E], renormalised when the rounding carried into the next
    binade, an infinity when the exponent is out of range. *)
Definition normal_form (m2 E : Z) : spec_float :=
  match m2 with
  | Z0 => S754_zero false
  | Zpos p =>
      if Z.eqb m2 (2 ^ 53) then
        if Z.leb (E + 1) 971 then S754_finite false (2 ^ 52) (E + 1)
        else S754_infinity false
      else
        if Z.leb E 971 then S754_finite false p E else S754_infinity false
  | Zneg _ => S754_nan
  end.

(** [m2] is a nearest integer to [x / 2^E], where [E] is the exponent of the
    grid around [x]. *)
Definition rounds_to (x : R) (m2 E : Z) : Prop :=
  (-1074 <= E)%Z /\
  - / 2 <= IZR m2 - x / p2 E <= / 2 /\
  0 < x < p2 (E + 53) /\
  ((-1074 < E)%Z -> p2 (E + 52) <= x).

Definition val (m : positive) (e : Z) : R := IZR (Zpos m) * p2 e.

(** The results of the operations on positive numbers: a zero, a positive
    number or the positive infinity. *)
Definition nonneg (f : spec_float) : Prop :=
  match f with
  | S754_zero false | S754_finite false _ _ | S754_infinity false => True
  | _ => False
  end.

(** A valid positive number or the positive infinity. *)
Definition positive_sf (f : spec_float) : Prop :=
  match f with
  | S754_finite false m e => bounded prec emax m e = true
  | S754_infinity false => True
  | _ => False
  end.

(** A valid result of an operation on positive numbers. *)
Definition good (f : spec_float) : Prop :=
  match f with
  | S754_zero false | S754_infinity false => True
  | S754_finite false m e => bounded prec emax m e = true
  | _ => False
  end.

End Binary64.

Import Binary64.

(** [4 * 341**3 / 3], the float Python computes for every record. *)
Definition FLOP_COUNT : float :=
  PrimFloat.div (PrimFloat.of_uint63 (Uint63.of_Z (4 * N ^ 3)))
                (PrimFloat.of_uint63 (Uint63.of_Z 3)).

(** ** Concrete inputs *)

Module Scenario.

(** The two rows of the reference scenario. *)
Definition rows : DataFrame :=
  [ mkRow "RocSOLVER" 2.1%float 2.4%float 2.3%float;
    mkRow "Hybrid" 1.5%float 1.8%float 1.6%float ].

Definition hybrid : Metrics :=
  mkMetrics 1.5%float 1.8%float 1.6%float true 33.043184166666663%float.

Definition rocsolver : Metrics :=
  mkMetrics 2.1%float 2.4%float 2.3%float true 22.986562898550723%float.

Definition analysis : AnalysisResult :=
  [(Str "RocSOLVER", rocsolver); (Str "Hybrid", hybrid)].

(** The smallest positive binary64 number, 2^-1074. *)
Definition tiny : float := 0x1p-1074%float.

Definition tiny_rows : DataFrame := [mkRow "Tiny" tiny tiny tiny].

Definition zero_rows : DataFrame := [mkRow "A" 0%float 0%float 0%float].

(** A table whose first row has an empty latency cell. *)
Definition nan_rows : DataFrame :=
  [ mkRow "N" 1.0%float 1.0%float PrimFloat.nan;
    mkRow "A" 3.0%float 3.0%float 3.0%float;
    mkRow "B" 1.0%float 1.0%float 1.0%float ].

Definition nan_entry : Name * Metrics :=
  (Str "N", mkMetrics 1.0%float 1.0%float PrimFloat.nan false PrimFloat.nan).
Definition slow_entry : Name * Metrics :=
  (Str "A", mkMetrics 3.0%float 3.0%float 3.0%float true 17.623031555555553%float).
Definition fast_entry : Name * Metrics :=
  (Str "B", mkMetrics 1.0%float 1.0%float 1.0%float true 52.869094666666662%float).

Definition nan_analysis : AnalysisResult := [nan_entry; slow_entry; fast_entry].

(** The reference scenario with numbers for names: pandas reads the name
    column as integers. *)
Definition int_rows : DataFrame :=
  [ mkRow (Int64 1) 2.1%float 2.4%float 2.3%float;
    mkRow (Int64 2) 1.5%float 1.8%float 1.6%float ].

Definition int_analysis : AnalysisResult :=
  [(Int64 1, rocsolver); (Int64 2, hybrid)].

(** A table whose only row has an empty name cell. *)
Definition blank_rows : DataFrame := [mkRow NaN 1.5%float 1.8%float 1.6%float].

(** A file system holding seven tables and nothing else. *)
Definition env : Env :=
  mkEnv (fun path =>
           if String.eqb path "results.csv" then Parsed rows
           else if String.eqb path "empty.csv" then Parsed []
           else if String.eqb path "zero.csv" then Parsed zero_rows
           else if String.eqb path "tiny.csv" then Parsed tiny_rows
           else if String.eqb path "nan.csv" then Parsed nan_rows
           else if String.eqb path "ints.csv" then Parsed int_rows
           else if String.eqb path "blank.csv" then Parsed blank_rows
           else Missing)
        (fun _ => Missing)
        (fun _ => true)
        (fun _ => []).

Definition args (csv : string) : Args := mkArgs csv None false false None.

Definition analyzer : ProfileAnalyzer :=
  mkAnalyzer "results.csv" None (Some rows) analysis.

End Scenario.

(** ** Further notions: reading the reports back, what a run prints and makes *)

(** The throughput at the target latency, [gflops 5.0]. *)
Definition GFLOPS_AT_TARGET : float := 10.573818933333332%float.

(** Reading a document handed to [json.dump]: the metrics of one
    implementation. *)
Definition metrics_of_json (j : json) : option Metrics :=
  match j with
  | JObject fs =>
      match Py.getitem fs "min_ms", Py.getitem fs "max_ms", Py.getitem fs "avg_ms",
            Py.getitem fs "target_met", Py.getitem fs "flops" with
      | Some (JFloat mn), Some (JFloat mx), Some (JFloat av),
        Some (JBool met), Some (JFloat fl) => Some (mkMetrics mn mx av met fl)
      | _, _, _, _, _ => None
      end
  | _ => None
  end.

Fixpoint entries_of_json (es : list (Name * json)) : option AnalysisResult :=
  match es with
  | [] => Some []
  | (k, j) :: t =>
      match metrics_of_json j, entries_of_json t with
      | Some m, Some a => Some ((k, m) :: a)
      | _, _ => None
      end
  end.

(** The analysis held under ["implementations"] in such a document. *)
Definition analysis_of_json (doc : json) : option AnalysisResult :=
  match doc with
  | JObject fs =>
      match Py.getitem fs "implementations" with
      | Some (JObject es) => entries_of_json es
      | _ => None
      end
  | _ => None
  end.

Definition json_top (doc : json) (k : Name) : option json :=
  match doc with
  | JObject fs => Py.getitem fs k
  | _ => None
  end.

(** Whether every name of an analysis is a key [json.dump] takes. *)
Definition json_keys_ok (data : AnalysisResult) : bool :=
  forallb json_key_ok (Py.keys data).

(** Which reports a command line selects, flag by flag: a renderer flag
    selects its report; without any renderer flag both are selected, unless a
    secondary table is named. *)
Definition selects_markdown (args : Args) : bool :=
  match arg_markdown args, arg_json args, Py.truthy_str (arg_rocprof args) with
  | true, _, _ => true
  | false, true, _ => false
  | false, false, named_table => negb named_table
  end.

Definition selects_json (args : Args) : bool :=
  match arg_json args, arg_markdown args, Py.truthy_str (arg_rocprof args) with
  | true, _, _ => true
  | false, true, _ => false
  | false, false, named_table => negb named_table
  end.

(** What [generate_json_report] leaves in its file, the clock having been read
    at [t]: the dump of the document, or what was written of it when a name
    was met that [json.dump] does not take as a key. *)
Definition json_written (data : AnalysisResult) (t : nat) : list text :=
  [[if json_keys_ok data then JsonDump 2 (json_document data t)
    else JsonTruncated 2 (json_document data t)]].

(** The lines [main] has printed when it reaches the JSON report. *)
Definition lines_before_json (args : Args) : list text :=
  [[Lit "✓ Loaded results from "; Lit (arg_csv_file args)]]
  ++ (if wants_markdown args
      then [[Lit "✓ Report generated: "; Lit (md_path args)]] else []).

(** The lines [main] prints before the summary when the analysis succeeds. *)
Definition progress_lines (args : Args) : list text :=
  [[Lit "✓ Loaded results from "; Lit (arg_csv_file args)]]
  ++ (if wants_markdown args
      then [[Lit "✓ Report generated: "; Lit (md_path args)]] else [])
  ++ (if wants_json args
      then [[Lit "✓ JSON report generated: "; Lit (json_path args)]] else []).

(** The directories a run makes: the output directory, when one is named, is
    not ["."], and does not exist yet, after those of its ancestors that are
    missing. *)
Definition dirs_made (env : Env) (args : Args) : list string :=
  if negb (String.eqb (output_dir_of args) ".")
     && negb (path_exists env (output_dir_of args))
  then missing_parents env (output_dir_of args) ++ [output_dir_of args] else [].

(** ** The order of binary64 numbers *)

Module FloatOrder.

Ltac order_step :=
  match goal with
  | s : bool |- _ => destruct s
  | H : context [Pos.compare_cont Eq ?a ?b] |- _ =>
      change (Pos.compare_cont Eq a b) with (Pos.compare a b) in H
  | |- context [Pos.compare_cont Eq ?a ?b] =>
      change (Pos.compare_cont Eq a b) with (Pos.compare a b)
  | H : context [Z.compare ?a ?b] |- _ =>
      let C := fresh "C" in
      destruct (Z.compare_spec a b) as [C | C | C]; try subst
  | |- context [Z.compare ?a ?b] =>
      let C := fresh "C" in
      destruct (Z.compare_spec a b) as [C | C | C]; try subst
  | H : context [Pos.compare ?a ?b] |- _ =>
      let C := fresh "C" in
      destruct (Pos.compare_spec a b) as [C | C | C]; try subst
  | |- context [Pos.compare ?a ?b] =>
      let C := fresh "C" in
      destruct (Pos.compare_spec a b) as [C | C | C]; try subst
  end;
  cbn [CompOpp] in *; cbv beta iota in *.

Ltac order_cases :=
  cbn [SFcompare]; intros; repeat order_step;
  try congruence; try lia; auto.

(** [SFcompare] is a strict order on the numbers other than NaN. *)
Lemma SFcompare_Lt_trans a b c :
  SFcompare a b = Some Lt -> SFcompare b c = Some Lt -> SFcompare a c = Some Lt.
Proof.
  destruct a as [sa | sa | | sa ma ea], b as [sb | sb | | sb mb eb],
           c as [sc | sc | | sc mc ec];
    order_cases.
Qed.

Lemma SFcompare_Eq_Lt a b c :
  SFcompare a b = Some Eq -> SFcompare b c = Some Lt -> SFcompare a c = Some Lt.
Proof.
  destruct a as [sa | sa | | sa ma ea], b as [sb | sb | | sb mb eb],
           c as [sc | sc | | sc mc ec];
    order_cases.
Qed.

Lemma SFcompare_total a b :
  a <> S754_nan -> b <> S754_nan ->
  SFcompare a b = Some Lt \/ SFcompare b a = Some Lt \/ SFcompare b a = Some Eq.
Proof.
  destruct a as [sa | sa | | sa ma ea], b as [sb | sb | | sb mb eb];
    order_cases.
Qed.

Lemma SFcompare_irrefl a : SFcompare a a <> Some Lt.
Proof. destruct a as [sa | sa | | sa ma ea]; order_cases. Qed.

Lemma ltb_irrefl x : PrimFloat.ltb x x = false.
Proof.
  rewrite ltb_spec. unfold SFltb.
  destruct (SFcompare (Prim2SF x) (Prim2SF x)) as [[ | | ] | ] eqn:A; try reflexivity.
  now apply SFcompare_irrefl in A.
Qed.

Lemma ltb_trans x y z :
  PrimFloat.ltb x y = true -> PrimFloat.ltb y z = true -> PrimFloat.ltb x z = true.
Proof.
  rewrite !ltb_spec. unfold SFltb.
  destruct (SFcompare (Prim2SF x) (Prim2SF y)) as [[ | | ] | ] eqn:A; try discriminate.
  destruct (SFcompare (Prim2SF y) (Prim2SF z)) as [[ | | ] | ] eqn:B; try discriminate.
  now rewrite (SFcompare_Lt_trans _ _ _ A B).
Qed.

Lemma eqb_ltb_trans x y z :
  PrimFloat.eqb x y = true -> PrimFloat.ltb y z = true -> PrimFloat.ltb x z = true.
Proof.
  rewrite eqb_spec, !ltb_spec. unfold SFltb, SFeqb.
  destruct (SFcompare (Prim2SF x) (Prim2SF y)) as [[ | | ] | ] eqn:A; try discriminate.
  destruct (SFcompare (Prim2SF y) (Prim2SF z)) as [[ | | ] | ] eqn:B; try discriminate.
  now rewrite (SFcompare_Eq_Lt _ _ _ A B).
Qed.

Lemma is_nan_spec x : PrimFloat.is_nan x = false -> Prim2SF x <> S754_nan.
Proof.
  unfold PrimFloat.is_nan. rewrite eqb_spec. unfold SFeqb.
  intros H E. rewrite E in H. discriminate.
Qed.

Lemma not_ltb_leb x y :
  PrimFloat.is_nan x = false -> PrimFloat.is_nan y = false ->
  PrimFloat.ltb x y = false -> PrimFloat.leb y x = true.
Proof.
  intros Hx Hy. apply is_nan_spec in Hx, Hy.
  rewrite ltb_spec, leb_spec. unfold SFltb, SFleb.
  destruct (SFcompare_total _ _ Hx Hy) as [A | [A | A]]; rewrite A; congruence.
Qed.

End FloatOrder.

(** ** Facts about the table operations *)

Lemma same_name_eq a b : same_name a b = true <-> a = b.
Proof.
  destruct a as [x | x | x | ], b as [y | y | y | ]; cbn;
    try (split; [discriminate | discriminate]); try tauto.
  - rewrite String.eqb_eq. split; congruence.
  - rewrite Z.eqb_eq. split; congruence.
  - rewrite Bool.eqb_true_iff. split; congruence.
Qed.

#[global] Instance string_key_laws : KeyLaws string := String.eqb_eq.
#[global] Instance name_key_laws : KeyLaws Name := same_name_eq.

Section TableFacts.

Lemma same_name_spec a b : reflect (a = b) (same_name a b).
Proof. apply iff_reflect. symmetry. apply same_name_eq. Qed.

(** [==] on names is the identity of names, NaN apart. *)
Lemma eq_name_true a b : eq_name a b = true <-> a = b /\ a <> NaN.
Proof.
  destruct a as [x | x | x | ], b as [y | y | y | ]; cbn;
    try (split; [discriminate | intros [E _]; discriminate E]).
  - rewrite String.eqb_eq. split; [intros -> | intros [[= ->] _]]; auto.
    split; [reflexivity | discriminate].
  - rewrite Z.eqb_eq. split; [intros -> | intros [[= ->] _]]; auto.
    split; [reflexivity | discriminate].
  - rewrite Bool.eqb_true_iff. split; [intros -> | intros [[= ->] _]]; auto.
    split; [reflexivity | discriminate].
  - split; [discriminate | intros [_ H]; now elim H].
Qed.

Lemma eq_name_refl a : a <> NaN -> eq_name a a = true.
Proof. intros H. now apply eq_name_true. Qed.

Lemma eq_name_NaN a : eq_name a NaN = false.
Proof. now destruct a. Qed.

Lemma existsb_eqb_In x seen :
  existsb (same_name x) seen = true <-> In x seen.
Proof.
  rewrite existsb_exists. split.
  - intros [y [Hy E]]. apply same_name_eq in E. now subst.
  - intros H. exists x. split; [assumption | now apply same_name_eq].
Qed.

Lemma unique_from_In seen l x :
  In x (unique_from seen l) <-> In x l /\ ~ In x seen.
Proof.
  revert seen. induction l as [ | y t IH]; intros seen; simpl.
  - tauto.
  - destruct (existsb (same_name y) seen) eqn:E.
    + apply existsb_eqb_In in E. rewrite IH. split.
      * tauto.
      * intros [[-> | H] Hn]; [contradiction | tauto].
    + assert (Hy : ~ In y seen).
      { intros H. apply existsb_eqb_In in H. congruence. }
      simpl. rewrite IH. simpl. split.
      * intros [-> | [H Hn]]; [tauto | ]. split; [tauto | ]. intros H'. apply Hn. now right.
      * intros [[-> | H] Hn]; [now left | ].
        destruct (same_name_spec y x) as [-> | Hne]; [now left | right].
        split; [assumption | ]. intros [? | ?]; [congruence | contradiction].
Qed.

Lemma unique_from_NoDup seen l : NoDup (unique_from seen l).
Proof.
  revert seen. induction l as [ | y t IH]; intros seen; simpl.
  - constructor.
  - destruct (existsb (same_name y) seen); [apply IH | ].
    constructor; [ | apply IH].
    rewrite unique_from_In. simpl. tauto.
Qed.

(** Order of first appearance: whatever comes first in the input before the
    first occurrence of [k] stands before [k] in the output (or was seen). *)
Lemma unique_from_order seen l pre k post :
  unique_from seen l = pre ++ k :: post ->
  exists dpre dpost,
    l = dpre ++ k :: dpost /\ ~ In k dpre /\
    forall x, In x dpre -> In x pre \/ In x seen.
Proof.
  revert seen pre. induction l as [ | y t IH]; intros seen pre; simpl.
  - destruct pre; discriminate.
  - destruct (existsb (same_name y) seen) eqn:E.
    + intros H. assert (Hk : In k (unique_from seen t)).
      { rewrite H. apply in_or_app. right. now left. }
      apply unique_from_In in Hk. apply existsb_eqb_In in E.
      destruct (IH _ _ H) as (dpre & dpost & -> & Hn & Hin).
      exists (y :: dpre), dpost. split; [reflexivity | ]. split.
      * intros [-> | ?]; [tauto | contradiction].
      * intros x [<- | Hx]; [now right | now apply Hin].
    + destruct pre as [ | p pre]; simpl; intros H; injection H as -> H.
      * exists [], t. split; [reflexivity | ]. split; [tauto | intros x []].
      * assert (Hk : In k (unique_from (p :: seen) t)).
        { rewrite H. apply in_or_app. right. now left. }
        apply unique_from_In in Hk. simpl in Hk.
        destruct (IH _ _ H) as (dpre & dpost & -> & Hn & Hin).
        exists (p :: dpre), dpost. split; [reflexivity | ]. split.
        -- intros [-> | ?]; [tauto | contradiction].
        -- intros x [<- | Hx]; [left; now left | ].
           destruct (Hin x Hx) as [? | [<- | ?]]; [left; now right | left; now left | now right].
Qed.

Lemma unique_from_skip x l2 l1 seen :
  In x seen \/ In x l1 ->
  unique_from seen (l1 ++ x :: l2) = unique_from seen (l1 ++ l2).
Proof.
  revert seen. induction l1 as [ | y t IH]; intros seen H; simpl.
  - destruct H as [H | []]. apply existsb_eqb_In in H. now rewrite H.
  - destruct (existsb (same_name y) seen) eqn:E.
    + apply IH. destruct H as [H | [-> | H]]; [now left | | now right].
      left. now apply existsb_eqb_In.
    + f_equal. apply IH. destruct H as [H | [-> | H]];
        [left; now right | left; now left | now right].
Qed.

Lemma values_0_select (f : Row -> float) df n :
  values_0 (column f (select df n)) =
  match find (named n) df with
  | Some r => Ok (f r)
  | None => Raise IndexError
  end.
Proof.
  unfold select, column, named. induction df as [ | r t IH]; simpl; [reflexivity | ].
  destruct (eq_name (Implementation r) n); [reflexivity | exact IH].
Qed.

Lemma find_split {A} (p : A -> bool) l r :
  find p l = Some r ->
  exists pre post, l = pre ++ r :: post /\ p r = true /\
                   forall r', In r' pre -> p r' = false.
Proof.
  induction l as [ | y t IH]; simpl; [discriminate | ].
  destruct (p y) eqn:E.
  - intros [= ->]. exists [], t. split; [reflexivity | ]. split; [assumption | intros ? []].
  - intros H. destruct (IH H) as (pre & post & -> & Hr & Hpre).
    exists (y :: pre), post. split; [reflexivity | ]. split; [assumption | ].
    intros r' [<- | Hr']; [assumption | now apply Hpre].
Qed.

(** A name other than NaN that occurs in the table selects a row; a NaN
    selects none. *)
Lemma find_named_some df n :
  n <> NaN -> In n (map Implementation df) -> exists r, find (named n) df = Some r.
Proof.
  intros Hn. induction df as [ | y t IH]; simpl; [intros [] | ].
  unfold named at 1. destruct (eq_name (Implementation y) n) eqn:E.
  - intros _. now exists y.
  - intros [H | H]; [ | now apply IH].
    subst n. rewrite eq_name_refl in E by assumption. discriminate.
Qed.

Lemma find_named_NaN df : find (named NaN) df = None.
Proof.
  induction df as [ | y t IH]; simpl; [reflexivity | ].
  unfold named at 1. now rewrite eq_name_NaN.
Qed.

Lemma find_skip {A} (p : A -> bool) l1 x l2 :
  (p x = true -> exists y, In y l1 /\ p y = true) ->
  find p (l1 ++ x :: l2) = find p (l1 ++ l2).
Proof.
  induction l1 as [ | y t IH]; simpl; intros H.
  - destruct (p x) eqn:E; [ | reflexivity].
    destruct (H eq_refl) as [y [[] _]].
  - destruct (p y) eqn:E; [reflexivity | ]. apply IH. intros Hx.
    destruct (H Hx) as [z [[<- | Hz] Hp]]; [congruence | now exists z].
Qed.

End TableFacts.

(** ** Facts about the analysis *)

Section AnalysisFacts.

Lemma metrics_of_select df n :
  metrics_of (select df n) =
  match find (named n) df with
  | Some r => derive r
  | None => Raise IndexError
  end.
Proof.
  unfold metrics_of. rewrite !values_0_select.
  destruct (find (named n) df); reflexivity.
Qed.

Lemma key_eqb_spec {K} `{KeyLaws K} (a b : K) : reflect (a = b) (key_eqb a b).
Proof. apply iff_reflect. symmetry. apply key_eqb_eq. Qed.

Lemma key_eqb_refl {K} `{KeyLaws K} (a : K) : key_eqb a a = true.
Proof. now apply key_eqb_eq. Qed.

Lemma setitem_fresh {K} `{KeyLaws K} {V} (d : dict K V) k v :
  ~ In k (keys d) -> setitem d k v = d ++ [(k, v)].
Proof.
  induction d as [ | [k' v'] t IH]; simpl; [reflexivity | ].
  intros Hn. destruct (key_eqb_spec k' k) as [-> | Hne]; [tauto | ].
  f_equal. apply IH. tauto.
Qed.

Lemma analyze_loop_collect df impls acc :
  NoDup impls -> (forall n, In n impls -> ~ In n (keys acc)) ->
  analyze_loop df impls acc =
  (ms <- collect (entry_for df) impls ;; Ok (acc ++ ms)).
Proof.
  revert acc. induction impls as [ | n t IH]; intros acc Hnd Hfresh; simpl.
  - now rewrite app_nil_r.
  - unfold entry_for at 1.
    destruct (metrics_of (select df n)) as [m | e]; simpl; [ | reflexivity].
    inversion Hnd as [ | ? ? Hn Ht]; subst.
    rewrite setitem_fresh by (apply Hfresh; now left).
    rewrite IH; [ | assumption | ].
    + destruct (collect (entry_for df) t) as [ms | e]; simpl; [ | reflexivity].
      now rewrite <- app_assoc.
    + intros x Hx. unfold keys. rewrite map_app, in_app_iff. simpl.
      intros [H | [<- | []]]; [ | contradiction].
      apply (Hfresh x); [now right | exact H].
Qed.

Lemma analyze_collect df :
  analyze df = collect (entry_for df) (unique (map Implementation df)).
Proof.
  unfold analyze. rewrite analyze_loop_collect.
  - destruct (collect _ _); reflexivity.
  - apply unique_from_NoDup.
  - intros n _ [].
Qed.

Lemma collect_entries df impls ms :
  collect (entry_for df) impls = Ok ms ->
  map fst ms = impls /\
  forall n m, In (n, m) ms -> metrics_of (select df n) = Ok m.
Proof.
  revert ms. induction impls as [ | x t IH]; simpl; intros ms.
  - intros [= <-]. split; [reflexivity | intros ? ? []].
  - unfold entry_for at 1.
    destruct (metrics_of (select df x)) as [m | e] eqn:E; simpl; [ | discriminate].
    destruct (collect (entry_for df) t) as [ys | e]; simpl; [ | discriminate].
    intros [= <-]. destruct (IH ys eq_refl) as [Hk Hm]. split.
    + simpl. now rewrite Hk.
    + intros n m' [[= <- <-] | H]; [assumption | now apply Hm].
Qed.

Lemma collect_total {A B} (f : A -> result B) l :
  (forall x, In x l -> exists y, f x = Ok y) -> exists ys, collect f l = Ok ys.
Proof.
  induction l as [ | x t IH]; simpl; intros H.
  - now exists [].
  - destruct (H x (or_introl eq_refl)) as [y ->].
    destruct IH as [ys ->]; [intros; apply H; now right | ].
    simpl. now exists (y :: ys).
Qed.

Lemma collect_ext {A B} (f g : A -> result B) l :
  (forall x, f x = g x) -> collect f l = collect g l.
Proof.
  intros H. induction l as [ | x t IH]; simpl; [reflexivity | ].
  now rewrite H, IH.
Qed.

Lemma derive_fields r m :
  derive r = Ok m ->
  min_ms m = Min_ms r /\ max_ms m = Max_ms r /\ avg_ms m = Avg_ms r /\
  target_met m = PrimFloat.ltb (Avg_ms r) TARGET_MS /\
  gflops (Avg_ms r) = Ok (flops m).
Proof.
  unfold derive. destruct (gflops (Avg_ms r)) as [fl | e]; simpl; [ | discriminate].
  intros [= <-]. simpl. auto.
Qed.

(** What a successful analysis holds for each name: the metrics derived
    from the first row of that name. *)
Lemma analyze_entry df a n m :
  analyze df = Ok a -> In (n, m) a ->
  exists pre r post,
    df = pre ++ r :: post /\ Implementation r = n /\
    (forall r', In r' pre -> Implementation r' <> n) /\
    derive r = Ok m.
Proof.
  rewrite analyze_collect. intros H Hin.
  destruct (collect_entries _ _ _ H) as [_ Hm].
  specialize (Hm _ _ Hin). rewrite metrics_of_select in Hm.
  destruct (find (named n) df) as [r | ] eqn:F; [ | discriminate].
  destruct (find_split _ _ _ F) as (pre & post & -> & Hr & Hpre).
  unfold named in Hr. apply eq_name_true in Hr. destruct Hr as [Hr Hnn].
  exists pre, r, post. split; [reflexivity | ]. split; [exact Hr | ].
  split; [ | assumption]. intros r' Hr' E. specialize (Hpre r' Hr').
  unfold named in Hpre. rewrite E, <- Hr, eq_name_refl in Hpre by assumption.
  discriminate.
Qed.

Lemma analyze_keys df a :
  analyze df = Ok a -> keys a = unique (map Implementation df).
Proof.
  rewrite analyze_collect. intros H.
  now destruct (collect_entries _ _ _ H) as [Hk _].
Qed.

Lemma analyze_skip_duplicate l1 r' l2 :
  In (Implementation r') (map Implementation l1) ->
  analyze (l1 ++ r' :: l2) = analyze (l1 ++ l2).
Proof.
  intros H. rewrite !analyze_collect.
  rewrite !map_app. simpl. unfold unique.
  rewrite unique_from_skip by now right. rewrite <- map_app.
  apply collect_ext. intros n. unfold entry_for.
  rewrite !metrics_of_select. rewrite find_skip; [reflexivity | ].
  unfold named. intros E.
  apply in_map_iff in H. destruct H as [y [Hy Hin]].
  exists y. split; [assumption | ]. now rewrite Hy.
Qed.

(** The analysis completes when no name is a NaN and no scaled latency is
    zero. *)
Lemma analyze_total df :
  (forall r, In r df -> Implementation r <> NaN) ->
  (forall r, In r df -> PrimFloat.eqb (PrimFloat.mul (Avg_ms r) MS_TO_S) 0 = false) ->
  exists a, analyze df = Ok a.
Proof.
  intros Hnn H. rewrite analyze_collect. apply collect_total.
  intros n Hn. unfold unique in Hn. apply unique_from_In in Hn. destruct Hn as [Hn _].
  unfold entry_for. rewrite metrics_of_select.
  assert (Hne : n <> NaN).
  { apply in_map_iff in Hn. destruct Hn as (r & <- & Hr). now apply Hnn. }
  destruct (find_named_some _ _ Hne Hn) as [r F]. rewrite F.
  destruct (find_split _ _ _ F) as (pre & post & E & _ & _).
  assert (Hr : In r df) by (rewrite E; apply in_or_app; right; now left).
  unfold derive, gflops. cbn [int_truediv N Z.eqb Z.mul Z.pow bind].
  unfold truediv at 1. rewrite (H r Hr). cbn [bind].
  unfold truediv.
  change (PrimFloat.eqb GIGA 0) with false. cbn [bind]. eexists. reflexivity.
Qed.

Lemma collect_raises {A B} (f : A -> result B) l e :
  collect f l = Raise e -> exists x, In x l /\ f x = Raise e.
Proof.
  induction l as [ | x t IH]; simpl; [discriminate | ].
  destruct (f x) as [y | e'] eqn:E; simpl.
  - destruct (collect f t) as [ys | e'']; simpl; [discriminate | ].
    intros [= ->]. destruct (IH eq_refl) as [z [Hz Hf]].
    exists z. split; [now right | exact Hf].
  - intros [= ->]. exists x. split; [now left | exact E].
Qed.

Lemma gflops_raises avg e : gflops avg = Raise e -> e = ZeroDivisionError.
Proof.
  unfold gflops. cbn [int_truediv N Z.eqb bind]. unfold truediv.
  destruct (PrimFloat.eqb (PrimFloat.mul avg MS_TO_S) 0); cbn [bind].
  - now intros [= <-].
  - change (PrimFloat.eqb GIGA 0) with false. cbv iota. discriminate.
Qed.

(** What the analysis raises: the division by zero, or the index error of
    an empty selection, which only a NaN name gives. *)
Lemma entry_for_raises df n e :
  In n (map Implementation df) -> entry_for df n = Raise e ->
  (e = IndexError /\ n = NaN) \/
  (e = ZeroDivisionError /\ n <> NaN /\
   exists r, find (named n) df = Some r /\
             PrimFloat.eqb (PrimFloat.mul (Avg_ms r) MS_TO_S) 0 = true).
Proof.
  intros Hn Hf. unfold entry_for in Hf. rewrite metrics_of_select in Hf.
  destruct n as [s | z | b | ].
  4: { rewrite find_named_NaN in Hf. cbn in Hf. left. split; congruence. }
  all: right;
    match goal with |- context [?n <> NaN] =>
      assert (Hne : n <> NaN) by discriminate;
      destruct (find_named_some _ _ Hne Hn) as [r F]
    end;
    rewrite F in Hf; unfold derive in Hf;
    destruct (gflops (Avg_ms r)) as [fl | e'] eqn:G; simpl in Hf; [discriminate | ];
    injection Hf as <-; pose proof (gflops_raises _ _ G) as ->;
    (split; [reflexivity | split; [exact Hne | ]]);
    exists r; (split; [exact F | ]);
    revert G; unfold gflops; cbn [int_truediv N Z.eqb bind]; unfold truediv;
    destruct (PrimFloat.eqb (PrimFloat.mul (Avg_ms r) MS_TO_S) 0); cbn [bind];
    [reflexivity | ]; change (PrimFloat.eqb GIGA 0) with false; cbv iota; discriminate.
Qed.

Lemma analyze_raises df e :
  analyze df = Raise e -> e = ZeroDivisionError \/ e = IndexError.
Proof.
  rewrite analyze_collect. intros H.
  destruct (collect_raises _ _ _ H) as [n [Hn Hf]].
  unfold unique in Hn. apply unique_from_In in Hn. destruct Hn as [Hn _].
  destruct (entry_for_raises _ _ _ Hn Hf) as [[-> _] | [-> _]]; auto.
Qed.

(** An entry that raises makes the whole analysis raise. *)
Lemma collect_raises_at {A B} (f : A -> result B) l x e :
  In x l -> f x = Raise e -> exists e', collect f l = Raise e'.
Proof.
  induction l as [ | y t IH]; simpl; [intros [] | ].
  intros [-> | Hin] Hf.
  - rewrite Hf. now exists e.
  - destruct (f y) as [b | e1]; simpl; [ | now exists e1].
    destruct (IH Hin Hf) as [e' ->]. now exists e'.
Qed.

End AnalysisFacts.

(** ** Facts about [min] *)

Section MinFacts.

Context {A : Type} (key : A -> float).

Lemma min_from_inv l : forall done best i,
  first_minimum key done i best ->
  exists i', first_minimum key (done ++ l) i' (min_from key best l).
Proof.
  induction l as [ | x t IH]; intros done best i (Hi & Hlt & Heq); simpl.
  - exists i. rewrite app_nil_r. now repeat split.
  - replace (done ++ x :: t) with ((done ++ [x]) ++ t) by now rewrite <- app_assoc.
    destruct (PrimFloat.ltb (key x) (key best)) eqn:E.
    + apply (IH (done ++ [x]) x (List.length done)). repeat split.
      * rewrite nth_error_app2 by lia. now rewrite Nat.sub_diag.
      * intros e He. apply in_app_or in He. destruct He as [He | [<- | []]].
        -- destruct (PrimFloat.ltb (key e) (key x)) eqn:E'; [ | reflexivity].
           rewrite <- (Hlt e He). symmetry. eapply FloatOrder.ltb_trans; eassumption.
        -- apply FloatOrder.ltb_irrefl.
      * intros j e Hj He. rewrite nth_error_app1 in He by assumption.
        destruct (PrimFloat.eqb (key e) (key x)) eqn:E'; [ | reflexivity].
        rewrite <- (Hlt e (nth_error_In _ _ He)). symmetry.
        eapply FloatOrder.eqb_ltb_trans; eassumption.
    + apply (IH (done ++ [x]) best i). repeat split.
      * rewrite nth_error_app1; [assumption | ].
        apply nth_error_Some. congruence.
      * intros e He. apply in_app_or in He. destruct He as [He | [<- | []]]; auto.
      * intros j e Hj He. apply (Heq j e Hj).
        rewrite nth_error_app1 in He; [assumption | ].
        assert (i < List.length done) by (apply nth_error_Some; congruence). lia.
Qed.

Lemma min_key_first_minimum l :
  l <> [] -> exists i best, min_key key l = Ok best /\ first_minimum key l i best.
Proof.
  destruct l as [ | x t]; [congruence | intros _]. simpl.
  destruct (min_from_inv t [x] x 0) as [i Hi].
  - repeat split.
    + intros e [<- | []]. apply FloatOrder.ltb_irrefl.
    + intros j e Hj. lia.
  - exists i, (min_from key x t). split; [reflexivity | exact Hi].
Qed.

Lemma first_minimum_leb l i best :
  first_minimum key l i best ->
  (forall e, In e l -> PrimFloat.is_nan (key e) = false) ->
  forall e, In e l -> PrimFloat.leb (key best) (key e) = true.
Proof.
  intros (Hi & Hlt & _) Hnan e He.
  apply FloatOrder.not_ltb_leb; auto.
  apply Hnan. eapply nth_error_In; eassumption.
Qed.

End MinFacts.

(** ** Running the renderers *)

Section RunFacts.

Lemma bind_ok {A B} (c : IO A) (k : A -> IO B) w a w' :
  c w = (Ok a, w') -> IOM.bind c k w = k a w'.
Proof. unfold IOM.bind. now intros ->. Qed.

Lemma getitem_setitem {K} `{KeyLaws K} {V} (d : dict K V) k v :
  getitem (setitem d k v) k = Some v.
Proof.
  induction d as [ | [k' v'] t IH]; simpl.
  - now rewrite key_eqb_refl.
  - destruct (key_eqb k' k) eqn:E; simpl.
    + now rewrite key_eqb_refl.
    + now rewrite E.
Qed.

Lemma setitem_setitem {K} `{KeyLaws K} {V} (d : dict K V) k v v' :
  setitem (setitem d k v) k v' = setitem d k v'.
Proof.
  induction d as [ | [k' v''] t IH]; simpl.
  - now rewrite key_eqb_refl.
  - destruct (key_eqb k' k) eqn:E; simpl.
    + now rewrite key_eqb_refl.
    + now rewrite E, IH.
Qed.

Lemma keys_setitem {K} `{KeyLaws K} {V} (d : dict K V) k v x :
  In x (keys (setitem d k v)) <-> x = k \/ In x (keys d).
Proof.
  induction d as [ | [k' v'] t IH]; simpl.
  - intuition.
  - destruct (key_eqb_spec k' k) as [-> | Hne]; simpl.
    + intuition.
    + rewrite IH. intuition.
Qed.

Lemma getitem_setitem_other {K} `{KeyLaws K} {V} (d : dict K V) k k' v :
  k <> k' -> getitem (setitem d k v) k' = getitem d k'.
Proof.
  intros Hne. induction d as [ | [k0 v0] t IH]; simpl.
  - destruct (key_eqb_spec k k'); [contradiction | reflexivity].
  - destruct (key_eqb_spec k0 k) as [-> | Hk]; simpl.
    + destruct (key_eqb_spec k k'); [contradiction | reflexivity].
    + destruct (key_eqb k0 k'); [reflexivity | exact IH].
Qed.

Lemma fwrite_run so F f c md ck t :
  IOM.fwrite f t (mkWorld so (setitem F f c) md ck) =
  (Ok tt, mkWorld so (setitem F f (c ++ [t])) md ck).
Proof.
  unfold IOM.fwrite. simpl. now rewrite getitem_setitem, setitem_setitem.
Qed.

Lemma for_each_fwrite l so F f c md ck :
  IOM.for_each l (IOM.fwrite f) (mkWorld so (setitem F f c) md ck) =
  (Ok tt, mkWorld so (setitem F f (c ++ l)) md ck).
Proof.
  revert c. induction l as [ | t l IH]; intros c; simpl.
  - now rewrite app_nil_r.
  - rewrite (bind_ok _ _ _ _ _ (fwrite_run _ _ _ _ _ _ _)).
    rewrite IH. now rewrite <- app_assoc.
Qed.

Lemma write_all_run l so F f c md ck :
  write_all f l (mkWorld so (setitem F f c) md ck) =
  (Ok tt, mkWorld so (setitem F f (c ++ map lit l)) md ck).
Proof.
  unfold write_all. revert c. induction l as [ | s l IH]; intros c; simpl.
  - now rewrite app_nil_r.
  - rewrite (bind_ok _ _ _ _ _ (fwrite_run _ _ _ _ _ _ _)).
    rewrite IH. now rewrite <- app_assoc.
Qed.

Lemma for_each_blocks {A} (g : A -> list text) l so F f c md ck :
  IOM.for_each l (fun e => IOM.for_each (g e) (IOM.fwrite f))
    (mkWorld so (setitem F f c) md ck) =
  (Ok tt, mkWorld so (setitem F f (c ++ flat_map g l)) md ck).
Proof.
  revert c. induction l as [ | x l IH]; intros c; simpl.
  - now rewrite app_nil_r.
  - rewrite (bind_ok _ _ _ _ _ (for_each_fwrite _ _ _ _ _ _ _)).
    rewrite IH. now rewrite <- app_assoc.
Qed.

Lemma for_each_print l so F md ck :
  IOM.for_each l IOM.print (mkWorld so F md ck) =
  (Ok tt, mkWorld (so ++ l) F md ck).
Proof.
  revert so. induction l as [ | t l IH]; intros so; simpl.
  - now rewrite app_nil_r.
  - unfold IOM.bind, IOM.print at 1. simpl. rewrite IH. now rewrite <- app_assoc.
Qed.

Lemma for_each_print_blocks {A} (g : A -> list text) l so F md ck :
  IOM.for_each l (fun e => IOM.for_each (g e) IOM.print) (mkWorld so F md ck) =
  (Ok tt, mkWorld (so ++ flat_map g l) F md ck).
Proof.
  revert so. induction l as [ | x l IH]; intros so; simpl.
  - now rewrite app_nil_r.
  - rewrite (bind_ok _ _ _ _ _ (for_each_print _ _ _ _ _)).
    rewrite IH. now rewrite <- app_assoc.
Qed.

Lemma md_results_run data so F f c md ck :
  md_results f data (mkWorld so (setitem F f c) md ck) =
  (Ok tt, mkWorld so (setitem F f (c ++ md_results_lines data)) md ck).
Proof.
  unfold md_results, md_results_lines. destruct data as [ | x t].
  - simpl. now rewrite app_nil_r.
  - cbn [truthy_dict best_of min_key items].
    rewrite (bind_ok _ _ _ _ _ (fwrite_run _ _ _ _ _ _ _)).
    unfold IOM.bind at 1, IOM.lift at 1.
    rewrite (bind_ok _ _ _ _ _ (for_each_fwrite _ _ _ _ _ _ _)).
    rewrite (bind_ok _ _ _ _ _ (fwrite_run _ _ _ _ _ _ _)).
    rewrite for_each_blocks. unfold lit. now rewrite <- !app_assoc.
Qed.

Lemma generate_markdown_report_run self f w :
  generate_markdown_report self f w =
  (Ok tt,
   mkWorld (stdout w ++ [[Lit "✓ Report generated: "; Lit f]])
           (setitem (files w) f (md_document (profiling_data self) (clock w)))
           (made_dirs w) (S (S (clock w)))).
Proof.
  destruct w as [so F md ck]. unfold generate_markdown_report.
  unfold IOM.bind at 1, IOM.open_w at 1. cbn [stdout files made_dirs clock].
  rewrite (bind_ok _ _ _ _ _ (fwrite_run _ _ _ _ _ _ _)).
  unfold IOM.bind at 1, IOM.now at 1. cbn [stdout files made_dirs clock].
  rewrite (bind_ok _ _ _ _ _ (fwrite_run _ _ _ _ _ _ _)).
  rewrite (bind_ok _ _ _ _ _ (write_all_run _ _ _ _ _ _ _)).
  rewrite (bind_ok _ _ _ _ _ (md_results_run _ _ _ _ _ _ _)).
  rewrite (bind_ok _ _ _ _ _ (write_all_run _ _ _ _ _ _ _)).
  unfold IOM.bind at 1, IOM.now at 1. cbn [stdout files made_dirs clock].
  rewrite (bind_ok _ _ _ _ _ (fwrite_run _ _ _ _ _ _ _)).
  unfold IOM.print. cbn [stdout files made_dirs clock].
  unfold md_document, lit. cbn [app]. now rewrite <- !app_assoc.
Qed.

(** [json.dump] gets through the document exactly when every name of the
    analysis is a key it takes. *)
Lemma serialisable_document data t :
  serialisable (json_document data t) = json_keys_ok data.
Proof.
  unfold json_document, json_keys_ok, keys, items.
  cbn [serialisable forallb json_key_ok fst snd andb json_hardware].
  rewrite !andb_true_r.
  induction data as [ | [k m] l IH]; [reflexivity | ].
  cbn [map forallb fst snd]. rewrite <- IH.
  unfold json_of_metrics at 1. cbn [serialisable forallb json_key_ok fst snd andb].
  now rewrite andb_true_r.
Qed.

(** [generate_json_report]: the report and its line, or the truncated file
    and [TypeError]. *)
Lemma generate_json_report_run self f w :
  generate_json_report self f w =
  if json_keys_ok (profiling_data self) then
    (Ok tt,
     mkWorld (stdout w ++ [[Lit "✓ JSON report generated: "; Lit f]])
             (setitem (files w) f
                [[JsonDump 2 (json_document (profiling_data self) (clock w))]])
             (made_dirs w) (S (clock w)))
  else
    (Raise TypeError,
     mkWorld (stdout w)
             (setitem (files w) f
                [[JsonTruncated 2 (json_document (profiling_data self) (clock w))]])
             (made_dirs w) (S (clock w))).
Proof.
  destruct w as [so F md ck]. unfold generate_json_report.
  unfold IOM.bind at 1, IOM.now at 1. cbn [stdout files made_dirs clock].
  unfold IOM.bind at 1, IOM.open_w at 1. cbn [stdout files made_dirs clock].
  unfold IOM.json_dump. rewrite serialisable_document.
  destruct (json_keys_ok (profiling_data self)).
  - rewrite (bind_ok _ _ _ _ _ (fwrite_run _ _ _ _ _ _ _)).
    unfold IOM.print. cbn [stdout files made_dirs clock app]. reflexivity.
  - unfold IOM.bind at 1.
    rewrite (bind_ok _ _ _ _ _ (fwrite_run _ _ _ _ _ _ _)).
    unfold IOM.raise. cbn [app]. reflexivity.
Qed.

Lemma print_summary_run self w :
  print_summary self w =
  (Ok tt,
   mkWorld (stdout w ++ summary_lines (profiling_data self))
           (files w) (made_dirs w) (clock w)).
Proof.
  destruct w as [so F md ck]. unfold print_summary, summary_lines.
  do 3 (unfold IOM.bind at 1, IOM.print at 1; cbn [stdout files made_dirs clock]).
  destruct (profiling_data self) as [ | x t].
  - cbn [truthy_dict negb]. unfold IOM.print. cbn [stdout files made_dirs clock].
    unfold lit. now rewrite <- !app_assoc.
  - cbn [truthy_dict negb best_of min_key items].
    rewrite (bind_ok _ _ _ _ _ (for_each_print_blocks _ _ _ _ _ _)).
    unfold IOM.bind at 1, IOM.print at 1; cbn [stdout files made_dirs clock].
    unfold IOM.bind at 1, IOM.lift at 1.
    rewrite (bind_ok _ _ _ _ _ (for_each_print _ _ _ _ _)).
    unfold IOM.print. cbn [stdout files made_dirs clock].
    unfold lit. rewrite <- !app_assoc. reflexivity.
Qed.

End RunFacts.

(** ** Running [main] *)

Section MainFacts.

Variable env : Env.

Lemma makedirs_step args w :
  when (negb (String.eqb (output_dir_of args) ".")
        && negb (path_exists env (output_dir_of args)))
       (IOM.makedirs (missing_parents env (output_dir_of args)) (output_dir_of args)) w
  = (Ok tt, after_makedirs env args w).
Proof.
  unfold when, after_makedirs.
  destruct (negb (String.eqb (output_dir_of args) ".")
            && negb (path_exists env (output_dir_of args))); reflexivity.
Qed.

Lemma after_makedirs_files args w : files (after_makedirs env args w) = files w.
Proof. unfold after_makedirs. now destruct (_ && _). Qed.

Lemma after_makedirs_initial args :
  after_makedirs env args initial_world = mkWorld [] [] (dirs_made env args) 0.
Proof.
  unfold after_makedirs, dirs_made.
  destruct (negb (String.eqb (output_dir_of args) ".")
            && negb (path_exists env (output_dir_of args))); reflexivity.
Qed.

(** Everything [main] does, by what is found at the primary path, by the
    outcome of the analysis and by that of the JSON dump. *)
Lemma main_outcome args w :
  let w0 := after_makedirs env args w in
  match primary_at env (arg_csv_file args) with
  | Missing =>
      main env args w =
      (Raise (SystemExit 1),
       mkWorld (stdout w0 ++ [[Lit "✗ File not found: "; Lit (arg_csv_file args)]])
               (files w0) (made_dirs w0) (clock w0))
  | Unreadable why => main env args w = (Raise (OtherError why), w0)
  | Parsed df =>
      match analyze df with
      | Raise e =>
          main env args w =
          (Raise e,
           mkWorld (stdout w0 ++ [[Lit "✓ Loaded results from "; Lit (arg_csv_file args)]])
                   (files w0) (made_dirs w0) (clock w0))
      | Ok a =>
          let tj := clock w0 + (if wants_markdown args then 2 else 0) in
          let F := report_step (wants_markdown args) (md_path args)
                     (md_document a (clock w0)) (files w0) in
          main env args w =
          if negb (wants_json args) || json_keys_ok a then
            (Ok tt,
             mkWorld (stdout w0 ++ progress_lines args ++ summary_lines a)
                     (report_step (wants_json args) (json_path args)
                        [[JsonDump 2 (json_document a tj)]] F)
                     (made_dirs w0)
                     (tj + (if wants_json args then 1 else 0)))
          else
            (Raise TypeError,
             mkWorld (stdout w0 ++ lines_before_json args)
                     (setitem F (json_path args) [[JsonTruncated 2 (json_document a tj)]])
                     (made_dirs w0) (tj + 1))
      end
  end.
Proof.
  intros w0. unfold main.
  rewrite (bind_ok _ _ _ _ _ (makedirs_step args w)). fold w0.
  unfold load_results, init. cbn [csv_file].
  destruct (primary_at env (arg_csv_file args)) as [df | | why]; cbn [read_csv].
  - destruct (analyze df) as [a | e] eqn:Ha.
    + unfold IOM.bind at 2, IOM.print at 1, IOM.ret at 1.
      unfold IOM.bind at 1. cbn [fst snd negb when].
      unfold IOM.bind at 1, IOM.ret at 1.
      unfold analyze_performance, set_results_df. cbn [results_df]. rewrite Ha.
      unfold IOM.bind at 2, IOM.lift at 1, IOM.ret at 1.
      unfold IOM.bind at 1. cbn [fst snd].
      unfold set_profiling_data. cbn [csv_file json_file results_df].
      fold (md_path args). fold (json_path args).
      set (self := mkAnalyzer _ _ _ a).
      set (w1 := mkWorld _ _ _ _).
      unfold progress_lines, lines_before_json.
      destruct (wants_markdown args) eqn:Em; cbn [when report_step].
      * rewrite (bind_ok _ _ _ _ _ (generate_markdown_report_run _ _ _)).
        set (w2 := mkWorld _ _ _ _).
        destruct (wants_json args) eqn:Ej; cbn [when report_step negb orb].
        -- unfold IOM.bind at 1. rewrite generate_json_report_run.
           subst self. cbn [profiling_data].
           destruct (json_keys_ok a).
           ++ rewrite print_summary_run.
              subst w2 w1. cbn [stdout files made_dirs clock profiling_data app].
              rewrite <- !app_assoc. cbn [app].
              replace (clock w0 + 2) with (S (S (clock w0))) by lia.
              do 2 f_equal. lia.
           ++ subst w2 w1. cbn [stdout files made_dirs clock profiling_data app].
              rewrite <- !app_assoc. cbn [app].
              replace (clock w0 + 2) with (S (S (clock w0))) by lia.
              do 2 f_equal. lia.
        -- unfold IOM.bind at 1, IOM.ret at 1. rewrite print_summary_run.
           subst w2 w1. cbn [stdout files made_dirs clock profiling_data app].
           rewrite <- !app_assoc. cbn [app]. do 2 f_equal. lia.
      * unfold IOM.bind at 1, IOM.ret at 1.
        destruct (wants_json args) eqn:Ej; cbn [when report_step negb orb].
        -- unfold IOM.bind at 1. rewrite generate_json_report_run.
           subst self. cbn [profiling_data].
           destruct (json_keys_ok a).
           ++ rewrite print_summary_run.
              subst w1. cbn [stdout files made_dirs clock profiling_data app].
              rewrite <- !app_assoc. cbn [app]. rewrite Nat.add_0_r.
              do 2 f_equal. lia.
           ++ subst w1. cbn [stdout files made_dirs clock profiling_data app].
              rewrite Nat.add_0_r. do 2 f_equal. lia.
        -- unfold IOM.bind at 1, IOM.ret at 1. rewrite print_summary_run.
           subst w1. cbn [stdout files made_dirs clock profiling_data app].
           rewrite <- !app_assoc. cbn [app]. do 2 f_equal. lia.
    + unfold analyze_performance, set_results_df.
      unfold IOM.bind, IOM.print, IOM.ret, IOM.raise, IOM.lift, when. cbn.
      rewrite Ha. reflexivity.
  - unfold IOM.bind, IOM.print, IOM.ret, IOM.raise, when. cbn. reflexivity.
  - unfold IOM.bind, IOM.raise. reflexivity.
Qed.

End MainFacts.

Lemma report_step_fresh b1 b2 p1 p2 (c1 c2 : list text) :
  p1 <> p2 ->
  report_step b2 p2 c2 (report_step b1 p1 c1 []) =
  (if b1 then [(p1, c1)] else []) ++ (if b2 then [(p2, c2)] else []).
Proof.
  intros Hne. destruct b1, b2; cbn; try reflexivity.
  destruct (key_eqb_spec p1 p2); [contradiction | reflexivity].
Qed.

Lemma setitem_report_step_fresh b1 p1 p2 (c1 c2 : list text) :
  p1 <> p2 ->
  setitem (report_step b1 p1 c1 []) p2 c2 =
  (if b1 then [(p1, c1)] else []) ++ [(p2, c2)].
Proof. intros Hne. exact (report_step_fresh b1 true p1 p2 c1 c2 Hne). Qed.

Lemma append_inj_l (a b c : string) : (a ++ b = a ++ c)%string -> b = c.
Proof. induction a as [ | ch a IH]; simpl; [auto | ]. intros [= H]. auto. Qed.

Lemma os_path_join_inj d x y : os_path_join d x = os_path_join d y -> x = y.
Proof.
  unfold os_path_join. destruct (String.eqb d "" || ends_with_slash d); intros H.
  - exact (append_inj_l _ _ _ H).
  - apply append_inj_l in H. simpl in H. now injection H.
Qed.

(** The two reports never share a path. *)
Lemma report_paths_differ args : md_path args <> json_path args.
Proof.
  unfold md_path, json_path. intros H. apply os_path_join_inj in H. discriminate.
Qed.

(** [main] reads the environment only at the primary path and at the output
    directory. *)
Lemma main_reads_primary_only env env' args w :
  primary_at env' (arg_csv_file args) = primary_at env (arg_csv_file args) ->
  path_exists env' (output_dir_of args) = path_exists env (output_dir_of args) ->
  missing_parents env' (output_dir_of args) = missing_parents env (output_dir_of args) ->
  main env' args w = main env args w.
Proof.
  intros Hp He Hm. unfold main, load_results, init. cbn [csv_file].
  now rewrite Hp, He, Hm.
Qed.

(** ** Rounding to nearest in binary64 is monotone *)

Section RoundingFacts.

Local Open Scope R_scope.

Lemma p2_pos e : 0 < p2 e.
Proof. unfold p2. apply powerRZ_lt. lra. Qed.

Lemma p2_add a b : p2 (a + b) = p2 a * p2 b.
Proof. unfold p2. apply powerRZ_add. lra. Qed.

Lemma p2_0 : p2 0 = 1.
Proof. reflexivity. Qed.

Lemma p2_1 : p2 1 = 2.
Proof. unfold p2. simpl. lra. Qed.

Lemma p2_succ a : p2 (a + 1) = 2 * p2 a.
Proof. rewrite p2_add, p2_1. lra. Qed.

Lemma p2_nonneg_IZR n : (0 <= n)%Z -> p2 n = IZR (2 ^ n).
Proof.
  intros H. unfold p2. rewrite <- (Z2Nat.id n H) at 1.
  rewrite <- pow_powerRZ. rewrite pow_IZR. now rewrite (Z2Nat.id n H).
Qed.

Lemma p2_lt a b : (a < b)%Z -> p2 a < p2 b.
Proof.
  intros H. replace b with (a + (b - a))%Z by lia. rewrite p2_add.
  rewrite (p2_nonneg_IZR (b - a)) by lia.
  assert (2 <= 2 ^ (b - a))%Z.
  { change 2%Z with (2 ^ 1)%Z at 1. apply Z.pow_le_mono_r; lia. }
  apply IZR_le in H0. pose proof (p2_pos a). nra.
Qed.

Lemma p2_le a b : (a <= b)%Z -> p2 a <= p2 b.
Proof.
  intros H. destruct (Z.eq_dec a b) as [-> | Hne]; [lra | ].
  apply Rlt_le, p2_lt. lia.
Qed.

Lemma p2_sub a b : p2 (a - b) = p2 a / p2 b.
Proof.
  pose proof (p2_pos b). replace a with ((a - b) + b)%Z at 2 by lia.
  rewrite p2_add. field. lra.
Qed.

(** The number of binary digits. *)
Lemma digits2_pos_size m : digits2_pos m = Pos.size m.
Proof. induction m; simpl; now rewrite ?IHm. Qed.

Lemma digits_bounds (m : positive) :
  (2 ^ (Zpos (digits2_pos m) - 1) <= Zpos m < 2 ^ Zpos (digits2_pos m))%Z.
Proof.
  rewrite digits2_pos_size. split.
  - pose proof (Pos.size_le m) as H.
    assert (E : (2 ^ Zpos (Pos.size m) = 2 * 2 ^ (Zpos (Pos.size m) - 1))%Z).
    { rewrite <- Z.pow_succ_r by lia. f_equal. lia. }
    assert (H' : (2 ^ Zpos (Pos.size m) <= Zpos m~0)%Z).
    { rewrite <- Pos2Z.inj_pow. exact H. }
    lia.
  - pose proof (Pos.size_gt m) as H. rewrite <- Pos2Z.inj_pow. exact H.
Qed.

Lemma Zdigits2_nonneg m : (0 <= Zdigits2 m)%Z.
Proof. destruct m; simpl; lia. Qed.

Lemma Zdigits2_positive m : (1 <= m)%Z -> (1 <= Zdigits2 m)%Z.
Proof. destruct m; simpl; lia. Qed.

Lemma Zdigits2_upper m : (0 <= m)%Z -> (m < 2 ^ Zdigits2 m)%Z.
Proof.
  destruct m as [ | p | p]; simpl; intros H; [lia | apply digits_bounds | lia].
Qed.

Lemma Zdigits2_lower m : (1 <= m)%Z -> (2 ^ (Zdigits2 m - 1) <= m)%Z.
Proof.
  destruct m as [ | p | p]; simpl; intros H; [lia | apply digits_bounds | lia].
Qed.

Lemma represents_bounds mrs t :
  represents mrs t -> IZR (shr_m mrs) <= t < IZR (shr_m mrs) + 1.
Proof.
  intros [_ H]. destruct (shr_r mrs), (shr_s mrs); lra.
Qed.

Lemma IZR_xO p : IZR (Zpos p~0) = 2 * IZR (Zpos p).
Proof. rewrite Pos2Z.inj_xO, mult_IZR. reflexivity. Qed.

Lemma IZR_xI p : IZR (Zpos p~1) = 2 * IZR (Zpos p) + 1.
Proof. rewrite Pos2Z.inj_xI, plus_IZR, mult_IZR. reflexivity. Qed.

Lemma shr_1_represents mrs t :
  represents mrs t -> represents (shr_1 mrs) (t / 2).
Proof.
  destruct mrs as [m r s]. unfold represents. cbn [shr_m shr_r shr_s].
  intros [Hm H]. destruct m as [ | [p | p | ] | p]; [ | | | | lia].
  - destruct r, s; cbn; split; try lia; lra.
  - rewrite IZR_xI in H. destruct r, s; cbn; split; try lia; lra.
  - rewrite IZR_xO in H. destruct r, s; cbn; split; try lia; lra.
  - destruct r, s; cbn; split; try lia; lra.
Qed.

Lemma iter_pos_represents p : forall mrs t,
  represents mrs t -> represents (iter_pos shr_1 p mrs) (t / p2 (Zpos p)).
Proof.
  induction p as [p IH | p IH | ]; intros mrs t H; cbn [iter_pos].
  - apply shr_1_represents, IH, IH in H.
    replace (t / p2 (Zpos p~1)) with (t / 2 / p2 (Zpos p) / p2 (Zpos p)); [exact H | ].
    rewrite Pos2Z.inj_xI. replace (2 * Zpos p + 1)%Z with (Zpos p + Zpos p + 1)%Z by lia.
    rewrite p2_succ, p2_add. pose proof (p2_pos (Zpos p)). field. lra.
  - apply IH, IH in H.
    replace (t / p2 (Zpos p~0)) with (t / p2 (Zpos p) / p2 (Zpos p)); [exact H | ].
    rewrite Pos2Z.inj_xO. replace (2 * Zpos p)%Z with (Zpos p + Zpos p)%Z by lia.
    rewrite p2_add. pose proof (p2_pos (Zpos p)). field. lra.
  - apply shr_1_represents in H. now rewrite p2_1.
Qed.

Lemma shr_represents mrs e n t :
  represents mrs t -> (0 <= n)%Z ->
  snd (shr mrs e n) = (e + n)%Z /\ represents (fst (shr mrs e n)) (t / p2 n).
Proof.
  intros H Hn. destruct n as [ | p | p]; [ | | lia]; cbn [shr fst snd].
  - split; [lia | ]. rewrite p2_0. now replace (t / 1) with t by lra.
  - split; [reflexivity | ]. now apply iter_pos_represents.
Qed.

Lemma record_of_loc_exact m :
  (0 <= m)%Z -> represents (shr_record_of_loc m loc_Exact) (IZR m).
Proof. intros H. split; [exact H | reflexivity]. Qed.

(** Rounding the represented number to the nearest integer. *)
Lemma round_nearest_even_close mrs t :
  represents mrs t ->
  - / 2 <= IZR (round_nearest_even (shr_m mrs) (loc_of_shr_record mrs)) - t <= / 2.
Proof.
  destruct mrs as [m r s]. unfold represents. cbn [shr_m shr_r shr_s loc_of_shr_record].
  intros [Hm H]. destruct r, s; cbn [round_nearest_even].
  - rewrite plus_IZR. lra.
  - destruct (Z.even m); [ | rewrite plus_IZR]; lra.
  - lra.
  - lra.
Qed.

(** The exponent of the binary64 grid at magnitude [k]. *)
Lemma fexp_eq k : fexp prec emax k = Z.max (k - 53) (-1074).
Proof. reflexivity. Qed.

Lemma rounds_to_bounds x m2 E :
  rounds_to x m2 E ->
  (0 <= m2 <= 2 ^ 53)%Z /\ ((-1074 < E)%Z -> (2 ^ 52 <= m2)%Z).
Proof.
  intros (HE & Hc & [Hx0 Hx1] & Hlo).
  pose proof (p2_pos E) as HpE.
  assert (Ht0 : 0 < x / p2 E) by (apply Rdiv_lt_0_compat; lra).
  assert (Ht1 : x / p2 E < IZR (2 ^ 53)).
  { rewrite <- p2_nonneg_IZR by lia. replace 53%Z with ((E + 53) - E)%Z at 1 by lia.
    rewrite p2_sub. apply Rmult_lt_compat_r; [apply Rinv_0_lt_compat; lra | lra]. }
  split; [split | ].
  - apply le_IZR. assert (-1 < IZR m2) by lra.
    apply lt_IZR in H. apply IZR_le. lia.
  - assert (IZR m2 < IZR (2 ^ 53 + 1)) by (rewrite plus_IZR; lra).
    apply lt_IZR in H. lia.
  - intros H. specialize (Hlo H).
    assert (Ht2 : IZR (2 ^ 52) <= x / p2 E).
    { rewrite <- p2_nonneg_IZR by lia. replace 52%Z with ((E + 52) - E)%Z at 1 by lia.
      rewrite p2_sub. apply Rmult_le_compat_r; [apply Rlt_le, Rinv_0_lt_compat; lra | lra]. }
    assert (IZR (2 ^ 52 - 1) < IZR m2) by (rewrite minus_IZR; lra).
    apply lt_IZR in H0. lia.
Qed.

(** The second normalisation step of [binary_round_aux]. *)
Lemma renormalise m2 E :
  (-1074 <= E)%Z -> (0 <= m2 <= 2 ^ 53)%Z -> ((-1074 < E)%Z -> (2 ^ 52 <= m2)%Z) ->
  (let '(mrs, e) := shr_fexp prec emax m2 E loc_Exact in
   match shr_m mrs with
   | Z0 => S754_zero false
   | Zpos m => if Z.leb e (emax - prec) then S754_finite false m e
               else S754_infinity false
   | Zneg _ => S754_nan
   end) = normal_form m2 E.
Proof.
  intros HE [Hm0 Hm1] Hlo. unfold shr_fexp. rewrite fexp_eq.
  destruct (Z.eq_dec m2 0) as [-> | Hnz].
  - cbn [Zdigits2 Z.add shr_record_of_loc].
    replace (Z.max (E - 53) (-1074) - E)%Z with (- (E - Z.max (E - 53) (-1074)))%Z by lia.
    destruct (E - Z.max (E - 53) (-1074))%Z eqn:D; try lia; reflexivity.
  - destruct (Z.eq_dec m2 (2 ^ 53)) as [-> | Hne].
    + change (Zdigits2 (2 ^ 53)) with 54%Z.
      replace (Z.max (54 + E - 53) (-1074) - E)%Z with 1%Z by lia.
      cbn. replace (E + 1 <=? 971)%Z with (E + 1 <=? 971)%Z by reflexivity.
      reflexivity.
    + assert (Hd : (Z.max (Zdigits2 m2 + E - 53) (-1074) - E = 0)%Z).
      { pose proof (Zdigits2_upper m2 Hm0). pose proof (Zdigits2_lower m2 ltac:(lia)).
        pose proof (Zdigits2_nonneg m2).
        assert (Hle : (Zdigits2 m2 <= 53)%Z).
        { destruct (Z_le_gt_dec (Zdigits2 m2) 53) as [? | Hgt]; [assumption | ].
          assert (2 ^ 53 <= 2 ^ (Zdigits2 m2 - 1))%Z by (apply Z.pow_le_mono_r; lia). lia. }
        destruct (Z.eq_dec E (-1074)) as [-> | HE']; [lia | ].
        assert (Hge : (53 <= Zdigits2 m2)%Z).
        { destruct (Z_le_gt_dec 53 (Zdigits2 m2)) as [? | Hlt]; [assumption | ].
          assert (2 ^ Zdigits2 m2 <= 2 ^ 52)%Z by (apply Z.pow_le_mono_r; lia).
          specialize (Hlo ltac:(lia)). lia. }
        lia. }
      rewrite Hd. cbn [shr shr_record_of_loc shr_m].
      unfold normal_form. destruct m2 as [ | p | p]; [lia | | lia].
      destruct (Z.eqb_spec (Zpos p) (2 ^ 53)); [contradiction | reflexivity].
Qed.

(** What [binary_round_aux] computes for a positive number [t * 2^e] given by
    its integer part [m] and location [l] at exponent [e], when [e] is at
    least as fine as the grid around the number. *)
Lemma binary_round_aux_spec m e l t :
  represents (shr_record_of_loc m l) t -> 0 < t ->
  (e <= fexp prec emax (Zdigits2 m + e))%Z ->
  exists m2,
    rounds_to (t * p2 e) m2 (fexp prec emax (Zdigits2 m + e)) /\
    binary_round_aux prec emax false m e l
    = normal_form m2 (fexp prec emax (Zdigits2 m + e)).
Proof.
  intros Hrep Ht He.
  assert (Hm : shr_m (shr_record_of_loc m l) = m) by (destruct l as [ | []]; reflexivity).
  pose proof (represents_bounds _ _ Hrep) as Hb. rewrite Hm in Hb.
  assert (Hm0 : (0 <= m)%Z) by (destruct Hrep as [H _]; now rewrite Hm in H).
  set (E := fexp prec emax (Zdigits2 m + e)) in *.
  assert (HE : (E = Z.max (Zdigits2 m + e - 53) (-1074))%Z) by reflexivity.
  pose proof (p2_pos e) as Hpe. pose proof (p2_pos E) as HpE.
  pose proof (p2_pos (E - e)) as Hpn.
  destruct (shr_represents _ e (E - e) t Hrep ltac:(lia)) as [Hs2 Hs1].
  unfold binary_round_aux, shr_fexp. fold E.
  destruct (shr (shr_record_of_loc m l) e (E - e)) as [mrs' e'] eqn:Hs.
  cbn [fst snd] in Hs1, Hs2. replace (e + (E - e))%Z with E in Hs2 by lia. subst e'.
  set (m2 := round_nearest_even (shr_m mrs') (loc_of_shr_record mrs')).
  pose proof (round_nearest_even_close _ _ Hs1) as Hc. fold m2 in Hc.
  assert (Hx : t * p2 e / p2 E = t / p2 (E - e)).
  { rewrite p2_sub. field. lra. }
  assert (Hr : rounds_to (t * p2 e) m2 E).
  { split; [lia | ]. split; [now rewrite Hx | ]. split.
    - split; [apply Rmult_lt_0_compat; lra | ].
      apply Rlt_le_trans with (p2 (Zdigits2 m + e)); [ | apply p2_le; lia].
      rewrite p2_add. apply Rmult_lt_compat_r; [lra | ].
      rewrite p2_nonneg_IZR by apply Zdigits2_nonneg.
      pose proof (Zdigits2_upper m Hm0) as Hu.
      assert (IZR (m + 1) <= IZR (2 ^ Zdigits2 m)) by (apply IZR_le; lia).
      rewrite plus_IZR in H. lra.
    - intros Hlt.
      assert (Hm1 : (1 <= m)%Z).
      { destruct (Z.eq_dec m 0) as [-> | ]; [ | lia]. cbn [Zdigits2 Z.add] in *.
        clearbody E. lia. }
      replace (E + 52)%Z with ((Zdigits2 m - 1) + e)%Z by lia.
      rewrite p2_add. apply Rmult_le_compat_r; [lra | ].
      pose proof (Zdigits2_lower m Hm1) as Hl.
      pose proof (Zdigits2_positive m Hm1) as Hdp.
      rewrite p2_nonneg_IZR by lia.
      apply IZR_le in Hl. lra. }
  exists m2. split; [exact Hr | ].
  destruct (rounds_to_bounds _ _ _ Hr) as [Hb2 Hlo2].
  apply renormalise; [lia | exact Hb2 | exact Hlo2].
Qed.

(** The value order of two results decides their order as binary64 numbers. *)
Lemma normal_form_leb m2x Ex m2y Ey :
  (-1074 <= Ex)%Z -> (0 <= m2x <= 2 ^ 53)%Z -> ((-1074 < Ex)%Z -> (2 ^ 52 <= m2x)%Z) ->
  (-1074 <= Ey)%Z -> (0 <= m2y <= 2 ^ 53)%Z -> ((-1074 < Ey)%Z -> (2 ^ 52 <= m2y)%Z) ->
  IZR m2x * p2 Ex <= IZR m2y * p2 Ey ->
  SFleb (normal_form m2x Ex) (normal_form m2y Ey) = true.
Proof.
  intros HEx Hbx Hlx HEy Hby Hly Hv.
  pose proof (p2_pos Ex) as Hpx. pose proof (p2_pos Ey) as Hpy.
  (* the canonical mantissa and exponent of each result *)
  set (mx := if Z.eqb m2x (2 ^ 53) then (2 ^ 52)%Z else m2x).
  set (ex := if Z.eqb m2x (2 ^ 53) then (Ex + 1)%Z else Ex).
  set (my := if Z.eqb m2y (2 ^ 53) then (2 ^ 52)%Z else m2y).
  set (ey := if Z.eqb m2y (2 ^ 53) then (Ey + 1)%Z else Ey).
  assert (Hnx : normal_form m2x Ex =
                match mx with
                | Z0 => S754_zero false
                | Zpos p => if Z.leb ex 971 then S754_finite false p ex
                            else S754_infinity false
                | Zneg _ => S754_nan
                end).
  { subst mx ex. unfold normal_form.
    destruct (Z.eqb_spec m2x (2 ^ 53)) as [-> | ]; [reflexivity | ].
    destruct m2x; reflexivity. }
  assert (Hny : normal_form m2y Ey =
                match my with
                | Z0 => S754_zero false
                | Zpos p => if Z.leb ey 971 then S754_finite false p ey
                            else S754_infinity false
                | Zneg _ => S754_nan
                end).
  { subst my ey. unfold normal_form.
    destruct (Z.eqb_spec m2y (2 ^ 53)) as [-> | ]; [reflexivity | ].
    destruct m2y; reflexivity. }
  assert (Hvx : IZR mx * p2 ex = IZR m2x * p2 Ex).
  { subst mx ex. destruct (Z.eqb_spec m2x (2 ^ 53)) as [-> | ]; [ | reflexivity].
    rewrite p2_succ. change (2 ^ 53)%Z with (2 * 2 ^ 52)%Z. rewrite mult_IZR. lra. }
  assert (Hvy : IZR my * p2 ey = IZR m2y * p2 Ey).
  { subst my ey. destruct (Z.eqb_spec m2y (2 ^ 53)) as [-> | ]; [ | reflexivity].
    rewrite p2_succ. change (2 ^ 53)%Z with (2 * 2 ^ 52)%Z. rewrite mult_IZR. lra. }
  assert (Hcx : (0 <= mx < 2 ^ 53)%Z /\ (-1074 <= ex)%Z /\
                ((-1074 < ex)%Z -> (2 ^ 52 <= mx)%Z)).
  { subst mx ex. destruct (Z.eqb_spec m2x (2 ^ 53)); lia. }
  assert (Hcy : (0 <= my < 2 ^ 53)%Z /\ (-1074 <= ey)%Z /\
                ((-1074 < ey)%Z -> (2 ^ 52 <= my)%Z)).
  { subst my ey. destruct (Z.eqb_spec m2y (2 ^ 53)); lia. }
  rewrite Hnx, Hny. rewrite <- Hvx, <- Hvy in Hv.
  clearbody mx ex my ey. clear Hnx Hny Hvx Hvy.
  destruct Hcx as (Hmx & Hex & Hlox). destruct Hcy as (Hmy & Hey & Hloy).
  pose proof (p2_pos ex) as Hpex. pose proof (p2_pos ey) as Hpey.
  destruct mx as [ | px | px]; [ | | lia].
  { destruct my as [ | py | py]; [reflexivity | | lia].
    destruct (Z.leb ey 971); reflexivity. }
  destruct my as [ | py | py]; [ | | lia].
  { exfalso. assert (0 < IZR (Zpos px)) by (apply IZR_lt; lia). nra. }
  assert (Hpx1 : 1 <= IZR (Zpos px)) by (apply IZR_le; lia).
  assert (Hpy1 : IZR (Zpos py) < IZR (2 ^ 53)) by (apply IZR_lt; lia).
  assert (Hlex : (ex < ey)%Z \/ (ex = ey /\ (Zpos px <= Zpos py)%Z)).
  { destruct (Z.lt_trichotomy ex ey) as [H | [H | H]]; [now left | right | exfalso].
    - subst ey. split; [reflexivity | ].
      apply le_IZR. apply Rmult_le_reg_r with (p2 ex); assumption.
    - assert (H52 : IZR (2 ^ 52) <= IZR (Zpos px)) by (apply IZR_le; apply Hlox; lia).
      assert (Hp : 2 * p2 ey <= p2 ex).
      { rewrite <- p2_succ. apply p2_le. lia. }
      change (2 ^ 53)%Z with (2 * 2 ^ 52)%Z in Hpy1. rewrite mult_IZR in Hpy1.
      assert (0 < IZR (2 ^ 52)) by (apply IZR_lt; lia).
      assert (IZR (Zpos py) * p2 ey < IZR (Zpos px) * p2 ex); [ | lra].
      apply Rlt_le_trans with (2 * IZR (2 ^ 52) * p2 ey); [nra | ].
      apply Rle_trans with (IZR (2 ^ 52) * p2 ex); nra. }
  destruct (Z.leb_spec ey 971) as [Hy | Hy].
  - destruct (Z.leb_spec ex 971) as [Hx | Hx]; [ | lia].
    unfold SFleb, SFcompare.
    destruct Hlex as [Hlt | [-> Hle]].
    + apply Z.compare_lt_iff in Hlt. now rewrite Hlt.
    + rewrite Z.compare_refl.
      change (Pos.compare_cont Eq px py) with (Pos.compare px py).
      destruct (Pos.compare_spec px py); try reflexivity. lia.
  - destruct (Z.leb ex 971); reflexivity.
Qed.

(** Rounding is monotone. *)
Lemma rounds_to_mono x m2x Ex y m2y Ey :
  rounds_to x m2x Ex -> rounds_to y m2y Ey -> x < y ->
  SFleb (normal_form m2x Ex) (normal_form m2y Ey) = true.
Proof.
  intros Hx Hy Hlt.
  destruct (rounds_to_bounds _ _ _ Hx) as [Hbx Hlx].
  destruct (rounds_to_bounds _ _ _ Hy) as [Hby Hly].
  destruct Hx as (HEx & Hcx & [Hx0 Hx1] & Hxlo).
  destruct Hy as (HEy & Hcy & [Hy0 Hy1] & Hylo).
  pose proof (p2_pos Ex) as Hpx. pose proof (p2_pos Ey) as Hpy.
  apply normal_form_leb; try assumption.
  destruct (Z.lt_trichotomy Ex Ey) as [H | [H | H]].
  - (* a coarser grid for [y]: a power of two lies between the results *)
    assert (H52 : IZR (2 ^ 52) <= IZR m2y) by (apply IZR_le; apply Hly; lia).
    assert (H53 : IZR m2x <= IZR (2 ^ 53)) by (apply IZR_le; lia).
    change (2 ^ 53)%Z with (2 * 2 ^ 52)%Z in H53. rewrite mult_IZR in H53.
    assert (Hp : 2 * p2 Ex <= p2 Ey) by (rewrite <- p2_succ; apply p2_le; lia).
    assert (0 < IZR (2 ^ 52)) by (apply IZR_lt; lia).
    assert (0 <= IZR m2x) by (apply IZR_le; lia).
    apply Rle_trans with (2 * IZR (2 ^ 52) * p2 Ex); [nra | ].
    apply Rle_trans with (IZR (2 ^ 52) * p2 Ey); nra.
  - (* the same grid: the nearest integers are ordered *)
    subst Ey. apply Rmult_le_compat_r; [lra | ]. apply IZR_le.
    assert (Hd : x / p2 Ex < y / p2 Ex).
    { apply Rmult_lt_compat_r; [apply Rinv_0_lt_compat; lra | exact Hlt]. }
    assert (IZR m2x < IZR (m2y + 1)) by (rewrite plus_IZR; lra).
    apply lt_IZR in H. lia.
  - (* a finer grid for [y] is impossible *)
    exfalso. specialize (Hxlo ltac:(lia)).
    assert (p2 (Ey + 53) <= p2 (Ex + 52)) by (apply p2_le; lia). lra.
Qed.

(** *** The quotient computed by [SFdiv_core_binary] *)

Lemma frac_bounds (r d : R) :
  0 < d -> 0 <= r < d -> 0 <= r / d < 1.
Proof.
  intros Hd [Hr0 Hr1]. assert (0 < / d) by now apply Rinv_0_lt_compat.
  assert (d * / d = 1) by (apply Rinv_r; lra).
  unfold Rdiv. split; nra.
Qed.

Lemma frac_half (r d : R) :
  0 < d ->
  (2 * r < d -> r / d < / 2) /\ (2 * r = d -> r / d = / 2) /\
  (d < 2 * r -> / 2 < r / d).
Proof.
  intros Hd. assert (0 < / d) by now apply Rinv_0_lt_compat.
  assert (d * / d = 1) by (apply Rinv_r; lra).
  unfold Rdiv. repeat split; intros; nra.
Qed.

Lemma new_location_represents q d r :
  (0 <= q)%Z -> (0 < d)%Z -> (0 <= r < d)%Z ->
  represents (shr_record_of_loc q (new_location d r)) (IZR q + IZR r / IZR d).
Proof.
  intros Hq Hd Hr.
  assert (HD : 0 < IZR d) by (apply IZR_lt; lia).
  destruct (frac_half (IZR r) (IZR d) HD) as (Hlt & Heq & Hgt).
  assert (Hr0 : (0 < r)%Z -> 0 < IZR r / IZR d).
  { intros H. apply Rdiv_lt_0_compat; [apply IZR_lt; lia | exact HD]. }
  assert (Hm : forall l, shr_m (shr_record_of_loc q l) = q) by (intros [ | []]; reflexivity).
  assert (Hc : forall c, c = Z.compare (2 * r) d -> (0 < r)%Z ->
             represents (shr_record_of_loc q (loc_Inexact c)) (IZR q + IZR r / IZR d)).
  { intros c Hc Hpos. specialize (Hr0 Hpos). split; [now rewrite Hm | ].
    destruct (Z.compare_spec (2 * r) d) as [E | E | E]; subst c; cbn.
    - assert (2 * IZR r = IZR d) by (rewrite <- mult_IZR; now f_equal).
      rewrite (Heq H). lra.
    - assert (2 * IZR r < IZR d) by (rewrite <- mult_IZR; now apply IZR_lt).
      specialize (Hlt H). lra.
    - assert (IZR d < 2 * IZR r) by (rewrite <- mult_IZR; now apply IZR_lt).
      specialize (Hgt H).
      assert (IZR r / IZR d < 1) by (apply frac_bounds; [lra | split; apply IZR_le || apply IZR_lt; lia]).
      lra. }
  unfold new_location. destruct (Z.even d) eqn:Ev.
  - unfold new_location_even. destruct (Z.eqb_spec r 0) as [-> | Hne].
    + split; [now rewrite Hm | ]. cbn. unfold Rdiv. lra.
    + apply Hc; [reflexivity | lia].
  - unfold new_location_odd. destruct (Z.eqb_spec r 0) as [-> | Hne].
    + split; [now rewrite Hm | ]. cbn. unfold Rdiv. lra.
    + assert (Hodd : Z.odd d = true) by (rewrite <- Z.negb_even, Ev; reflexivity).
      apply Z.odd_spec in Hodd. destruct Hodd as [k Hk].
      apply Hc; [ | lia].
      destruct (Z.compare_spec (2 * r + 1) d) as [E | E | E];
        symmetry; [apply Z.compare_lt_iff | apply Z.compare_lt_iff | apply Z.compare_gt_iff]; lia.
Qed.

Lemma pow2_quotient_lower a b q :
  (0 <= b <= a)%Z -> (2 ^ a < (q + 1) * 2 ^ b)%Z -> (2 ^ (a - b) <= q)%Z.
Proof.
  intros Hab H. replace a with ((a - b) + b)%Z in H by lia.
  rewrite Z.pow_add_r in H by lia.
  assert (0 < 2 ^ b)%Z by (apply Z.pow_pos_nonneg; lia).
  apply Z.mul_lt_mono_pos_r in H; [lia | assumption].
Qed.

(** The integer quotient, its exponent and its location stand for the exact
    quotient of the two numbers, on a grid fine enough for the rounding. *)
Lemma SFdiv_core_binary_spec mn en md ed :
  exists q e' l t,
    SFdiv_core_binary prec emax (Zpos mn) en (Zpos md) ed = (q, e', l) /\
    represents (shr_record_of_loc q l) t /\ 0 < t /\
    t * p2 e' = (IZR (Zpos mn) * p2 en) / (IZR (Zpos md) * p2 ed) /\
    (e' <= fexp prec emax (Zdigits2 q + e'))%Z.
Proof.
  unfold SFdiv_core_binary.
  set (d1 := Zdigits2 (Zpos mn)). set (d2 := Zdigits2 (Zpos md)).
  set (e' := Z.min (fexp prec emax (d1 + en - (d2 + ed))) (en - ed)).
  set (s := (en - ed - e')%Z).
  assert (Hs : (0 <= s)%Z) by (subst s e'; lia).
  set (m' := match s with
             | Zpos _ => Z.shiftl (Zpos mn) s
             | Z0 => Zpos mn
             | Zneg _ => 0%Z
             end).
  assert (Hm' : (m' = Zpos mn * 2 ^ s)%Z).
  { subst m'. destruct s as [ | p | p]; [lia | | lia].
    rewrite Z.shiftl_mul_pow2 by lia. reflexivity. }
  pose proof (Z_div_mod m' (Zpos md) ltac:(lia)) as Hdm.
  destruct (Z.div_eucl m' (Zpos md)) as [q r]. destruct Hdm as [Hdm Hr].
  assert (Hpow : (0 < 2 ^ s)%Z) by (apply Z.pow_pos_nonneg; lia).
  assert (Hm'pos : (0 < m')%Z) by (rewrite Hm'; lia).
  assert (Hq : (0 <= q)%Z) by nia.
  exists q, e', (new_location (Zpos md) r), (IZR q + IZR r / IZR (Zpos md)).
  split; [reflexivity | ].
  split; [apply new_location_represents; lia | ].
  assert (HD : 0 < IZR (Zpos md)) by (apply IZR_lt; lia).
  assert (Ht : IZR q + IZR r / IZR (Zpos md) = IZR m' / IZR (Zpos md)).
  { rewrite Hdm, plus_IZR, mult_IZR. field. lra. }
  split; [ | split].
  - rewrite Ht. apply Rdiv_lt_0_compat; [apply IZR_lt; lia | exact HD].
  - rewrite Ht, Hm', mult_IZR. rewrite <- p2_nonneg_IZR by lia.
    pose proof (p2_pos ed). pose proof (p2_pos en). pose proof (p2_pos e').
    replace (p2 en) with (p2 s * p2 e' * p2 ed)
      by (rewrite <- !p2_add; f_equal; subst s; lia).
    field. lra.
  - assert (Hdig : (d1 + s - d2 <= Zdigits2 q)%Z).
    { pose proof (Zdigits2_nonneg q) as Hn.
      destruct (Z_le_gt_dec (d1 + s - d2) 0) as [Hle | Hgt]; [lia | ].
      pose proof (Zdigits2_lower (Zpos mn) ltac:(lia)) as H1. fold d1 in H1.
      pose proof (Zdigits2_positive (Zpos mn) ltac:(lia)) as H0. fold d1 in H0.
      pose proof (Zdigits2_upper (Zpos md) ltac:(lia)) as H2. fold d2 in H2.
      pose proof (Zdigits2_positive (Zpos md) ltac:(lia)) as H3. fold d2 in H3.
      assert (Ha : (2 ^ (d1 - 1 + s) <= m')%Z).
      { rewrite Hm', Z.pow_add_r by lia. apply Z.mul_le_mono_nonneg_r; lia. }
      assert (Hb : (m' < (q + 1) * 2 ^ d2)%Z) by nia.
      assert (Hc : (2 ^ (d1 - 1 + s - d2) <= q)%Z).
      { apply pow2_quotient_lower; lia. }
      pose proof (Zdigits2_upper q Hq) as Hu.
      destruct (Z_le_gt_dec (d1 + s - d2) (Zdigits2 q)) as [? | Hlt]; [assumption | ].
      assert (2 ^ Zdigits2 q <= 2 ^ (d1 - 1 + s - d2))%Z by (apply Z.pow_le_mono_r; lia).
      lia. }
    subst s e'. rewrite !fexp_eq in *. clear - Hdig. clearbody d1 d2. lia.
Qed.

(** *** Positive binary64 numbers and their values *)

Lemma val_pos m e : 0 < val m e.
Proof.
  unfold val. apply Rmult_lt_0_compat; [apply IZR_lt; lia | apply p2_pos].
Qed.

Lemma bounded_range m e :
  bounded prec emax m e = true ->
  (-1074 <= e)%Z /\ (Zpos m < 2 ^ 53)%Z /\ ((-1074 < e)%Z -> (2 ^ 52 <= Zpos m)%Z).
Proof.
  unfold bounded, canonical_mantissa. rewrite andb_true_iff, Z.eqb_eq, Z.leb_le.
  rewrite fexp_eq. intros [Hc _].
  pose proof (digits_bounds m) as [Hlo Hhi].
  set (d := Zpos (digits2_pos m)) in *.
  assert (Hd : (d <= 53)%Z) by lia.
  split; [lia | ]. split.
  - assert (2 ^ d <= 2 ^ 53)%Z by (apply Z.pow_le_mono_r; lia). lia.
  - intros H. assert (d = 53%Z) by lia. replace 52%Z with (d - 1)%Z by lia. exact Hlo.
Qed.

(** On valid numbers the comparison of [SFcompare] is that of the values. *)
Lemma compare_Lt_val m1 e1 m2 e2 :
  bounded prec emax m1 e1 = true -> bounded prec emax m2 e2 = true ->
  SFcompare (S754_finite false m1 e1) (S754_finite false m2 e2) = Some Lt ->
  val m1 e1 < val m2 e2.
Proof.
  intros H1 H2. apply bounded_range in H1, H2.
  destruct H1 as (He1 & Hm1 & Hl1). destruct H2 as (He2 & Hm2 & Hl2).
  cbn [SFcompare]. unfold val.
  pose proof (p2_pos e1) as Hp1. pose proof (p2_pos e2) as Hp2.
  destruct (Z.compare_spec e1 e2) as [-> | Hlt | Hgt]; [ | intros _ | discriminate].
  - change (Pos.compare_cont Eq m1 m2) with (Pos.compare m1 m2).
    destruct (Pos.compare_spec m1 m2) as [ | Hlt | ]; try discriminate. intros _.
    apply Rmult_lt_compat_r; [exact Hp2 | apply IZR_lt; lia].
  - assert (H52 : IZR (2 ^ 52) <= IZR (Zpos m2)) by (apply IZR_le, Hl2; lia).
    assert (H53 : IZR (Zpos m1) < IZR (2 ^ 53)) by (apply IZR_lt; lia).
    change (2 ^ 53)%Z with (2 * 2 ^ 52)%Z in H53. rewrite mult_IZR in H53.
    assert (Hp : 2 * p2 e1 <= p2 e2) by (rewrite <- p2_succ; apply p2_le; lia).
    assert (0 < IZR (2 ^ 52)) by (apply IZR_lt; lia).
    assert (0 < IZR (Zpos m1)) by (apply IZR_lt; lia).
    apply Rlt_le_trans with (2 * IZR (2 ^ 52) * p2 e1); [nra | ].
    apply Rle_trans with (IZR (2 ^ 52) * p2 e2); nra.
Qed.

Lemma compare_Eq_same m1 e1 m2 e2 :
  SFcompare (S754_finite false m1 e1) (S754_finite false m2 e2) = Some Eq ->
  m1 = m2 /\ e1 = e2.
Proof.
  cbn [SFcompare].
  destruct (Z.compare_spec e1 e2) as [-> | ? | ?]; try discriminate.
  change (Pos.compare_cont Eq m1 m2) with (Pos.compare m1 m2).
  destruct (Pos.compare_spec m1 m2) as [-> | ? | ?]; try discriminate. auto.
Qed.

(** Two valid positive numbers in order are equal or have values in strict
    order. *)
Lemma leb_finite_cases m1 e1 m2 e2 :
  bounded prec emax m1 e1 = true -> bounded prec emax m2 e2 = true ->
  SFleb (S754_finite false m1 e1) (S754_finite false m2 e2) = true ->
  (m1 = m2 /\ e1 = e2) \/ val m1 e1 < val m2 e2.
Proof.
  intros H1 H2. unfold SFleb.
  destruct (SFcompare _ _) as [[ | | ] | ] eqn:C; try discriminate; intros _.
  - left. now apply compare_Eq_same.
  - right. now apply compare_Lt_val.
Qed.

(** *** The rounded product and quotient *)

Lemma normal_form_nonneg m2 E : (0 <= m2)%Z -> nonneg (normal_form m2 E).
Proof.
  intros H. unfold normal_form. destruct m2 as [ | p | p]; [exact I | | lia].
  destruct (Z.eqb _ _); [destruct (Z.leb _ _) | destruct (Z.leb _ _)]; exact I.
Qed.

Lemma SFleb_refl f : nonneg f -> SFleb f f = true.
Proof.
  destruct f as [[ | ] | [ | ] | | [ | ] m e]; try contradiction; intros _;
    try reflexivity.
  unfold SFleb. cbn [SFcompare]. rewrite Z.compare_refl.
  change (Pos.compare_cont Eq m m) with (Pos.compare m m).
  now rewrite Pos.compare_refl.
Qed.

Lemma SFleb_zero_l f : nonneg f -> SFleb (S754_zero false) f = true.
Proof.
  destruct f as [[ | ] | [ | ] | | [ | ] m e]; try contradiction; reflexivity.
Qed.

Lemma SFleb_inf_r f : nonneg f -> SFleb f (S754_infinity false) = true.
Proof.
  destruct f as [[ | ] | [ | ] | | [ | ] m e]; try contradiction; reflexivity.
Qed.

Lemma SFdiv_round mn en md ed :
  exists m2 E,
    rounds_to (val mn en / val md ed) m2 E /\
    SFdiv prec emax (S754_finite false mn en) (S754_finite false md ed)
    = normal_form m2 E.
Proof.
  destruct (SFdiv_core_binary_spec mn en md ed)
    as (q & e' & l & t & Hcore & Hrep & Ht & Hx & He).
  destruct (binary_round_aux_spec q e' l t Hrep Ht He) as (m2 & Hr & Hb).
  exists m2, (fexp prec emax (Zdigits2 q + e')). split.
  - unfold val. rewrite <- Hx. exact Hr.
  - cbn [SFdiv xorb]. rewrite Hcore. exact Hb.
Qed.

Lemma SFmul_round mx ex mk ek :
  (2 ^ 52 <= Zpos mk)%Z ->
  exists m2 E,
    rounds_to (val mx ex * val mk ek) m2 E /\
    SFmul prec emax (S754_finite false mx ex) (S754_finite false mk ek)
    = normal_form m2 E.
Proof.
  intros Hk.
  assert (Hrep : represents (shr_record_of_loc (Zpos (mx * mk)) loc_Exact)
                            (IZR (Zpos (mx * mk)))).
  { apply record_of_loc_exact. lia. }
  assert (Ht : 0 < IZR (Zpos (mx * mk))) by (apply IZR_lt; lia).
  assert (He : (ex + ek <= fexp prec emax (Zdigits2 (Zpos (mx * mk)) + (ex + ek)))%Z).
  { rewrite fexp_eq.
    pose proof (Zdigits2_upper (Zpos (mx * mk)) ltac:(lia)) as Hu.
    assert (Hd : (53 <= Zdigits2 (Zpos (mx * mk)))%Z).
    { destruct (Z_le_gt_dec 53 (Zdigits2 (Zpos (mx * mk)))) as [? | Hlt]; [assumption | ].
      pose proof (Zdigits2_nonneg (Zpos (mx * mk))).
      assert (2 ^ Zdigits2 (Zpos (mx * mk)) <= 2 ^ 52)%Z by (apply Z.pow_le_mono_r; lia).
      nia. }
    lia. }
  destruct (binary_round_aux_spec _ _ _ _ Hrep Ht He) as (m2 & Hr & Hb).
  exists m2, (fexp prec emax (Zdigits2 (Zpos (mx * mk)) + (ex + ek))). split.
  - replace (val mx ex * val mk ek) with (IZR (Zpos (mx * mk)) * p2 (ex + ek));
      [exact Hr | ].
    unfold val. rewrite Pos2Z.inj_mul, mult_IZR, p2_add. ring.
  - cbn [SFmul xorb]. exact Hb.
Qed.

Lemma rounds_to_nonneg x m2 E : rounds_to x m2 E -> nonneg (normal_form m2 E).
Proof.
  intros H. apply normal_form_nonneg. now destruct (rounds_to_bounds _ _ _ H) as [[? _] _].
Qed.

(** *** Monotonicity of the product and of the quotient *)

Lemma nonneg_valid_good f : nonneg f -> SpecFloat.valid_binary prec emax f = true -> good f.
Proof. destruct f as [[ | ] | [ | ] | | [ | ] m e]; simpl; auto. Qed.

Lemma positive_sf_above f g :
  positive_sf f -> SpecFloat.valid_binary prec emax g = true -> SFleb f g = true ->
  positive_sf g.
Proof.
  destruct f as [[ | ] | [ | ] | | [ | ] m e]; try contradiction;
    destruct g as [[ | ] | [ | ] | | [ | ] m' e']; simpl; intros; trivial;
      try discriminate.
Qed.

Lemma good_nonzero_positive f :
  good f -> SFeqb f (S754_zero false) = false -> positive_sf f.
Proof.
  destruct f as [[ | ] | [ | ] | | [ | ] m e]; simpl; intros; trivial; discriminate.
Qed.

Lemma SFmul_mono x1 x2 mk ek :
  (2 ^ 52 <= Zpos mk)%Z ->
  positive_sf x1 -> positive_sf x2 -> SFleb x1 x2 = true ->
  nonneg (SFmul prec emax x1 (S754_finite false mk ek)) /\
  nonneg (SFmul prec emax x2 (S754_finite false mk ek)) /\
  SFleb (SFmul prec emax x1 (S754_finite false mk ek))
        (SFmul prec emax x2 (S754_finite false mk ek)) = true.
Proof.
  intros Hk H1 H2 Hle.
  destruct x1 as [[ | ] | [ | ] | | [ | ] m1 e1]; try contradiction;
    destruct x2 as [[ | ] | [ | ] | | [ | ] m2 e2]; try contradiction;
      try discriminate.
  - repeat split; reflexivity.
  - destruct (SFmul_round m1 e1 mk ek Hk) as (n1 & E1 & Hr1 & ->).
    cbn [SFmul xorb]. split; [eapply rounds_to_nonneg; eassumption | ].
    split; [exact I | ]. apply SFleb_inf_r. eapply rounds_to_nonneg; eassumption.
  - destruct (SFmul_round m1 e1 mk ek Hk) as (n1 & E1 & Hr1 & Hm1).
    destruct (SFmul_round m2 e2 mk ek Hk) as (n2 & E2 & Hr2 & Hm2).
    assert (G1 : nonneg (normal_form n1 E1)) by (eapply rounds_to_nonneg; eassumption).
    assert (G2 : nonneg (normal_form n2 E2)) by (eapply rounds_to_nonneg; eassumption).
    simpl in H1, H2.
    destruct (leb_finite_cases _ _ _ _ H1 H2 Hle) as [[-> ->] | Hlt].
    + rewrite Hm2. repeat split; try assumption. now apply SFleb_refl.
    + rewrite Hm1, Hm2. repeat split; try assumption.
      apply (rounds_to_mono _ _ _ _ _ _ Hr1 Hr2).
      pose proof (val_pos mk ek). nra.
Qed.

Lemma SFdiv_antitone mc ec p1 p2 :
  positive_sf p1 -> positive_sf p2 -> SFleb p1 p2 = true ->
  nonneg (SFdiv prec emax (S754_finite false mc ec) p1) /\
  nonneg (SFdiv prec emax (S754_finite false mc ec) p2) /\
  SFleb (SFdiv prec emax (S754_finite false mc ec) p2)
        (SFdiv prec emax (S754_finite false mc ec) p1) = true.
Proof.
  intros H1 H2 Hle.
  destruct p1 as [[ | ] | [ | ] | | [ | ] m1 e1]; try contradiction;
    destruct p2 as [[ | ] | [ | ] | | [ | ] m2 e2]; try contradiction;
      try discriminate.
  - repeat split; reflexivity.
  - destruct (SFdiv_round mc ec m1 e1) as (n1 & E1 & Hr1 & ->).
    cbn [SFdiv xorb]. split; [eapply rounds_to_nonneg; eassumption | ].
    split; [exact I | ]. apply SFleb_zero_l. eapply rounds_to_nonneg; eassumption.
  - destruct (SFdiv_round mc ec m1 e1) as (n1 & E1 & Hr1 & Hd1).
    destruct (SFdiv_round mc ec m2 e2) as (n2 & E2 & Hr2 & Hd2).
    assert (G1 : nonneg (normal_form n1 E1)) by (eapply rounds_to_nonneg; eassumption).
    assert (G2 : nonneg (normal_form n2 E2)) by (eapply rounds_to_nonneg; eassumption).
    simpl in H1, H2.
    destruct (leb_finite_cases _ _ _ _ H1 H2 Hle) as [[-> ->] | Hlt].
    + rewrite Hd2. repeat split; try assumption. now apply SFleb_refl.
    + rewrite Hd1, Hd2. repeat split; try assumption.
      apply (rounds_to_mono _ _ _ _ _ _ Hr2 Hr1).
      pose proof (val_pos mc ec) as Hc. pose proof (val_pos m1 e1) as Hp1.
      pose proof (val_pos m2 e2) as Hp2.
      unfold Rdiv. apply Rmult_lt_compat_l; [exact Hc | ].
      apply Rinv_lt_contravar; [nra | exact Hlt].
Qed.

Lemma SFdiv_monotone q1 q2 mg eg :
  good q1 -> good q2 -> SFleb q2 q1 = true ->
  SFleb (SFdiv prec emax q2 (S754_finite false mg eg))
        (SFdiv prec emax q1 (S754_finite false mg eg)) = true.
Proof.
  intros H1 H2 Hle.
  destruct q1 as [[ | ] | [ | ] | | [ | ] m1 e1]; try contradiction;
    destruct q2 as [[ | ] | [ | ] | | [ | ] m2 e2]; try contradiction;
      try discriminate; try reflexivity.
  - destruct (SFdiv_round m2 e2 mg eg) as (n2 & E2 & Hr2 & ->).
    cbn [SFdiv xorb]. apply SFleb_inf_r. eapply rounds_to_nonneg; eassumption.
  - destruct (SFdiv_round m1 e1 mg eg) as (n1 & E1 & Hr1 & ->).
    cbn [SFdiv xorb]. apply SFleb_zero_l. eapply rounds_to_nonneg; eassumption.
  - destruct (SFdiv_round m1 e1 mg eg) as (n1 & E1 & Hr1 & Hd1).
    destruct (SFdiv_round m2 e2 mg eg) as (n2 & E2 & Hr2 & Hd2).
    simpl in H1, H2.
    destruct (leb_finite_cases _ _ _ _ H2 H1 Hle) as [[-> ->] | Hlt].
    + rewrite Hd1. apply SFleb_refl. eapply rounds_to_nonneg; eassumption.
    + rewrite Hd1, Hd2. apply (rounds_to_mono _ _ _ _ _ _ Hr2 Hr1).
      pose proof (val_pos mg eg) as Hg.
      unfold Rdiv. apply Rmult_lt_compat_r; [now apply Rinv_0_lt_compat | exact Hlt].
Qed.

End RoundingFacts.

(** ** The throughput as a function of the latency *)

Section Throughput.

Lemma gflops_eq avg :
  gflops avg =
  if PrimFloat.eqb (PrimFloat.mul avg MS_TO_S) 0 then Raise ZeroDivisionError
  else Ok (PrimFloat.div (PrimFloat.div FLOP_COUNT (PrimFloat.mul avg MS_TO_S)) GIGA).
Proof.
  unfold gflops. cbn [Py.int_truediv N Z.eqb Py.bind]. unfold Py.truediv.
  destruct (PrimFloat.eqb (PrimFloat.mul avg MS_TO_S) 0); cbn [Py.bind];
    [reflexivity | ].
  change (PrimFloat.eqb GIGA 0) with false. reflexivity.
Qed.

Lemma Prim2SF_good a : nonneg (Prim2SF a) -> good (Prim2SF a).
Proof. intros H. apply nonneg_valid_good; [exact H | apply Prim2SF_valid]. Qed.

Lemma Prim2SF_MS_TO_S : Prim2SF MS_TO_S = S754_finite false 4611686018427388 (-62).
Proof. vm_compute. reflexivity. Qed.

Lemma Prim2SF_GIGA : Prim2SF GIGA = S754_finite false 8388608000000000 (-23).
Proof. vm_compute. reflexivity. Qed.

Lemma Prim2SF_FLOP_COUNT :
  Prim2SF FLOP_COUNT = S754_finite false 7095969767576917 (-27).
Proof. vm_compute. reflexivity. Qed.

Lemma Prim2SF_zero : Prim2SF 0 = S754_zero false.
Proof. vm_compute. reflexivity. Qed.

Lemma positive_float a :
  PrimFloat.ltb 0 a = true -> positive_sf (Prim2SF a).
Proof.
  rewrite ltb_spec, Prim2SF_zero. pose proof (Prim2SF_valid a) as Hv.
  destruct (Prim2SF a) as [[ | ] | [ | ] | | [ | ] m e]; simpl in *;
    intros; trivial; discriminate.
Qed.

Lemma positive_sf_nonzero f :
  positive_sf f -> SFeqb f (S754_zero false) = false.
Proof.
  destruct f as [[ | ] | [ | ] | | [ | ] m e]; simpl; intros; trivial; contradiction.
Qed.

(** The throughput does not increase with the average latency. *)
Lemma gflops_monotone a1 a2 :
  PrimFloat.ltb 0 a1 = true -> PrimFloat.leb a1 a2 = true ->
  PrimFloat.eqb (PrimFloat.mul a1 MS_TO_S) 0 = false ->
  PrimFloat.eqb (PrimFloat.mul a2 MS_TO_S) 0 = false /\
  PrimFloat.leb
    (PrimFloat.div (PrimFloat.div FLOP_COUNT (PrimFloat.mul a2 MS_TO_S)) GIGA)
    (PrimFloat.div (PrimFloat.div FLOP_COUNT (PrimFloat.mul a1 MS_TO_S)) GIGA)
  = true.
Proof.
  intros Hpos Hle Hnz.
  pose proof (positive_float a1 Hpos) as Hx1.
  rewrite leb_spec in Hle.
  pose proof (positive_sf_above _ _ Hx1 (Prim2SF_valid a2) Hle) as Hx2.
  assert (Hk : (2 ^ 52 <= 4611686018427388)%Z) by (vm_compute; discriminate).
  destruct (SFmul_mono _ _ 4611686018427388 (-62) Hk Hx1 Hx2 Hle) as (Np1 & Np2 & Hp).
  rewrite <- Prim2SF_MS_TO_S in Np1, Np2, Hp.
  change (SFmul prec emax) with SF64mul in Np1, Np2, Hp.
  rewrite <- (mul_spec a1) in Np1, Hp. rewrite <- (mul_spec a2) in Np2, Hp.
  set (p1 := PrimFloat.mul a1 MS_TO_S) in *.
  set (p2 := PrimFloat.mul a2 MS_TO_S) in *.
  rewrite eqb_spec, Prim2SF_zero in Hnz.
  pose proof (good_nonzero_positive _ (Prim2SF_good _ Np1) Hnz) as Pp1.
  pose proof (positive_sf_above _ _ Pp1 (Prim2SF_valid p2) Hp) as Pp2.
  split.
  { rewrite eqb_spec, Prim2SF_zero. now apply positive_sf_nonzero. }
  destruct (SFdiv_antitone 7095969767576917 (-27) _ _ Pp1 Pp2 Hp) as (Nq1 & Nq2 & Hq).
  rewrite <- Prim2SF_FLOP_COUNT in Nq1, Nq2, Hq.
  change (SFdiv prec emax) with SF64div in Nq1, Nq2, Hq.
  rewrite <- (div_spec FLOP_COUNT p1) in Nq1, Hq.
  rewrite <- (div_spec FLOP_COUNT p2) in Nq2, Hq.
  pose proof (SFdiv_monotone _ _ 8388608000000000 (-23)
                (Prim2SF_good _ Nq1) (Prim2SF_good _ Nq2) Hq) as Hg.
  rewrite <- Prim2SF_GIGA in Hg.
  change (SFdiv prec emax) with SF64div in Hg.
  rewrite <- (div_spec (PrimFloat.div FLOP_COUNT p2)),
    <- (div_spec (PrimFloat.div FLOP_COUNT p1)) in Hg.
  rewrite leb_spec. exact Hg.
Qed.

(** From 500 * 2^-1074 (about 2.5e-321) upwards the scaled latency is not
    zero, so the division is defined. *)
Lemma scaled_avg_nonzero a :
  PrimFloat.leb 0x1f4p-1074%float a = true ->
  PrimFloat.eqb (PrimFloat.mul a MS_TO_S) 0 = false.
Proof.
  intros H.
  apply (gflops_monotone 0x1f4p-1074%float a); [ | exact H | ]; vm_compute; reflexivity.
Qed.

End Throughput.

(** ** Further facts about the analysis *)

Section MoreAnalysisFacts.

Lemma unique_from_same_seen l : forall s1 s2,
  (forall x, In x l -> (In x s1 <-> In x s2)) ->
  unique_from s1 l = unique_from s2 l.
Proof.
  induction l as [ | y t IH]; intros s1 s2 H; simpl; [reflexivity | ].
  assert (E : existsb (same_name y) s1 = existsb (same_name y) s2).
  { apply eq_true_iff_eq. rewrite !existsb_eqb_In. apply H. now left. }
  rewrite E. destruct (existsb (same_name y) s2).
  - apply IH. intros x Hx. apply H. now right.
  - f_equal. apply IH. intros x Hx. simpl. specialize (H x (or_intror Hx)). tauto.
Qed.

Lemma unique_from_app l1 l2 : forall seen,
  exists seen',
    (forall x, In x seen' <-> In x seen \/ In x l1) /\
    unique_from seen (l1 ++ l2) = unique_from seen l1 ++ unique_from seen' l2.
Proof.
  induction l1 as [ | y t IH]; intros seen; simpl.
  - exists seen. split; [tauto | reflexivity].
  - destruct (existsb (same_name y) seen) eqn:E.
    + destruct (IH seen) as (s' & Hs & Hu). exists s'. split; [ | exact Hu].
      intros x. rewrite Hs. apply existsb_eqb_In in E.
      split; [tauto | ]. intros [? | [<- | ?]]; tauto.
    + destruct (IH (y :: seen)) as (s' & Hs & Hu). exists s'. split.
      * intros x. rewrite Hs. simpl. tauto.
      * simpl. now rewrite Hu.
Qed.

Lemma unique_app_disjoint l1 l2 :
  (forall x, In x l1 -> ~ In x l2) ->
  unique (l1 ++ l2) = unique l1 ++ unique l2.
Proof.
  intros H. unfold unique.
  destruct (unique_from_app l1 l2 []) as (s' & Hs & ->). f_equal.
  apply unique_from_same_seen. intros x Hx. rewrite Hs. simpl.
  split; [ | tauto]. intros [[] | Hx1]. exfalso. exact (H x Hx1 Hx).
Qed.

Lemma collect_app {A B} (f : A -> result B) l1 l2 :
  collect f (l1 ++ l2) =
  (ys1 <- collect f l1 ;; ys2 <- collect f l2 ;; Ok (ys1 ++ ys2)).
Proof.
  induction l1 as [ | x t IH]; simpl.
  - destruct (collect f l2); reflexivity.
  - destruct (f x) as [y | e]; simpl; [ | reflexivity]. rewrite IH.
    destruct (collect f t) as [ys | e]; simpl; [ | reflexivity].
    destruct (collect f l2); reflexivity.
Qed.

Lemma collect_ext_in {A B} (f g : A -> result B) l :
  (forall x, In x l -> f x = g x) -> collect f l = collect g l.
Proof.
  induction l as [ | x t IH]; simpl; intros H; [reflexivity | ].
  rewrite (H x (or_introl eq_refl)), IH; [reflexivity | ].
  intros y Hy. apply H. now right.
Qed.

Lemma find_app_l {A} (p : A -> bool) l1 l2 :
  (exists x, In x l1 /\ p x = true) -> find p (l1 ++ l2) = find p l1.
Proof.
  induction l1 as [ | y t IH]; simpl; intros [x [Hx Hp]]; [contradiction | ].
  destruct (p y) eqn:E; [reflexivity | ]. apply IH.
  destruct Hx as [<- | Hx]; [congruence | now exists x].
Qed.

Lemma find_app_r {A} (p : A -> bool) l1 l2 :
  (forall x, In x l1 -> p x = false) -> find p (l1 ++ l2) = find p l2.
Proof.
  induction l1 as [ | y t IH]; simpl; intros H; [reflexivity | ].
  rewrite (H y (or_introl eq_refl)). apply IH. intros x Hx. apply H. now right.
Qed.

(** A row of another name is not selected. *)
Lemma named_other n r : Implementation r <> n -> named n r = false.
Proof.
  intros H. unfold named. destruct (eq_name (Implementation r) n) eqn:E; [ | reflexivity].
  apply eq_name_true in E. tauto.
Qed.

Lemma analyze_app df1 df2 :
  (forall n, In n (map Implementation df1) -> ~ In n (map Implementation df2)) ->
  analyze (df1 ++ df2) =
  (a1 <- analyze df1 ;; a2 <- analyze df2 ;; Ok (a1 ++ a2)).
Proof.
  intros Hdis. rewrite !analyze_collect, map_app, (unique_app_disjoint _ _ Hdis).
  rewrite collect_app.
  rewrite (collect_ext_in (entry_for (df1 ++ df2)) (entry_for df1)
             (unique (map Implementation df1))).
  2:{ intros n Hn. unfold unique in Hn. apply unique_from_In in Hn. destruct Hn as [Hn _].
      unfold entry_for. rewrite !metrics_of_select.
      destruct (same_name_spec n NaN) as [-> | Hne];
        [now rewrite !find_named_NaN | ].
      rewrite find_app_l; [reflexivity | ].
      apply in_map_iff in Hn. destruct Hn as [r [Hr Hin]]. exists r. split; [exact Hin | ].
      unfold named. rewrite Hr. now apply eq_name_refl. }
  rewrite (collect_ext_in (entry_for (df1 ++ df2)) (entry_for df2)
             (unique (map Implementation df2))).
  2:{ intros n Hn. unfold unique in Hn. apply unique_from_In in Hn. destruct Hn as [Hn _].
      unfold entry_for. rewrite !metrics_of_select. rewrite find_app_r; [reflexivity | ].
      intros r Hr. apply named_other. intros E.
      apply (Hdis n); [ | exact Hn]. apply in_map_iff. now exists r. }
  reflexivity.
Qed.

(** The entry of the name of a row that is the first of its name. *)
Lemma entry_for_first before r after :
  (forall r', In r' before -> Implementation r' <> Implementation r) ->
  entry_for (before ++ r :: after) (Implementation r) =
  match Implementation r with
  | NaN => Raise IndexError
  | n => (m <- derive r ;; Ok (n, m))
  end.
Proof.
  intros Hfirst. unfold entry_for. rewrite metrics_of_select.
  destruct (same_name_spec (Implementation r) NaN) as [E | Hne].
  - rewrite E, find_named_NaN. reflexivity.
  - rewrite find_app_r by (intros x Hx; apply named_other; now apply Hfirst).
    cbn [find]. unfold named. rewrite eq_name_refl by exact Hne.
    destruct (Implementation r); [reflexivity | reflexivity | reflexivity | now elim Hne].
Qed.

(** A first row whose name is a NaN, or whose scaled latency is zero, makes
    the analysis raise. *)
Lemma analyze_raises_at before r after :
  (forall r', In r' before -> Implementation r' <> Implementation r) ->
  Implementation r = NaN \/
  PrimFloat.eqb (PrimFloat.mul (Avg_ms r) MS_TO_S) 0 = true ->
  exists e, analyze (before ++ r :: after) = Raise e.
Proof.
  intros Hfirst Hbad. rewrite analyze_collect.
  assert (Hin : In (Implementation r)
                   (unique (map Implementation (before ++ r :: after)))).
  { unfold unique. apply unique_from_In. split; [ | tauto].
    rewrite map_app. apply in_or_app. right. now left. }
  assert (He : exists e, entry_for (before ++ r :: after) (Implementation r) = Raise e).
  { rewrite (entry_for_first _ _ _ Hfirst).
    destruct (same_name_spec (Implementation r) NaN) as [-> | Hne];
      [now exists IndexError | ].
    destruct Hbad as [E | Hz]; [contradiction | ].
    exists ZeroDivisionError. unfold derive. rewrite gflops_eq, Hz.
    destruct (Implementation r); try reflexivity. now elim Hne. }
  destruct He as [e He]. exact (collect_raises_at _ _ _ _ Hin He).
Qed.

(** What the exception says about the table. *)
Lemma analyze_raises_why df e :
  analyze df = Raise e ->
  (e = IndexError /\ exists r, In r df /\ Implementation r = NaN) \/
  (e = ZeroDivisionError /\
   exists before r after,
     df = before ++ r :: after /\
     (forall r', In r' before -> Implementation r' <> Implementation r) /\
     Implementation r <> NaN /\
     PrimFloat.eqb (PrimFloat.mul (Avg_ms r) MS_TO_S) 0 = true).
Proof.
  rewrite analyze_collect. intros H.
  destruct (collect_raises _ _ _ H) as [n [Hn Hf]].
  unfold unique in Hn. apply unique_from_In in Hn. destruct Hn as [Hn _].
  destruct (entry_for_raises _ _ _ Hn Hf) as [[-> ->] | (-> & Hne & r & F & Hz)].
  - left. split; [reflexivity | ].
    apply in_map_iff in Hn. destruct Hn as (r & Hr & Hin). now exists r.
  - right. split; [reflexivity | ].
    destruct (find_split _ _ _ F) as (pre & post & -> & Hr & Hpre).
    unfold named in Hr. apply eq_name_true in Hr. destruct Hr as [Hr Hnn].
    exists pre, r, post. split; [reflexivity | ]. split; [ | split; [exact Hnn | exact Hz]].
    intros r' Hr' E. specialize (Hpre r' Hr'). unfold named in Hpre.
    rewrite E, <- Hr, eq_name_refl in Hpre by exact Hnn. discriminate.
Qed.

(** The analysis completes exactly when no row that is the first of its name
    has a NaN name or a zero scaled latency. *)
Lemma analyze_completes_iff df :
  (exists a, analyze df = Ok a) <->
  forall before r after,
    df = before ++ r :: after ->
    (forall r', In r' before -> Implementation r' <> Implementation r) ->
    Implementation r <> NaN /\
    PrimFloat.eqb (PrimFloat.mul (Avg_ms r) MS_TO_S) 0 = false.
Proof.
  split.
  - intros [a Ha] before r after -> Hfirst.
    destruct (same_name_spec (Implementation r) NaN) as [E | Hne].
    + destruct (analyze_raises_at before r after Hfirst (or_introl E)) as [e He].
      congruence.
    + split; [exact Hne | ].
      destruct (PrimFloat.eqb (PrimFloat.mul (Avg_ms r) MS_TO_S) 0) eqn:Hz;
        [ | reflexivity].
      destruct (analyze_raises_at before r after Hfirst (or_intror Hz)) as [e He].
      congruence.
  - intros H. destruct (analyze df) as [a | e] eqn:Ha; [now exists a | exfalso].
    destruct (analyze_raises_why _ _ Ha)
      as [(_ & r & Hin & Hnan) | (_ & before & r & after & -> & Hfirst & Hne & Hz)].
    + apply in_split in Hin. destruct Hin as (l1 & l2 & ->).
      assert (Hex : exists r0, find (fun x => same_name (Implementation x) NaN)
                                    (l1 ++ r :: l2) = Some r0).
      { destruct (find _ (l1 ++ r :: l2)) as [r0 | ] eqn:F; [now exists r0 | ].
        exfalso. assert (Hf : same_name (Implementation r) NaN = false).
        { apply (find_none _ _ F r). apply in_or_app. right. now left. }
        rewrite Hnan in Hf. discriminate. }
      destruct Hex as [r0 F].
      destruct (find_split _ _ _ F) as (pre & post & E & Hr0 & Hpre).
      apply same_name_eq in Hr0.
      destruct (H pre r0 post E) as [Hbad _]; [ | contradiction].
      intros r' Hr' E'. specialize (Hpre r' Hr'). rewrite E', Hr0 in Hpre. discriminate.
    + destruct (H before r after eq_refl Hfirst) as [_ Hnz]. congruence.
Qed.

End MoreAnalysisFacts.

(** ** Further facts about binary64 numbers and the throughput *)

Section MoreFloatFacts.

Lemma SFcompare_leb_ltb a b c :
  SFleb a b = true -> SFltb b c = true -> SFltb a c = true.
Proof.
  unfold SFleb, SFltb.
  destruct a as [sa | sa | | sa ma ea], b as [sb | sb | | sb mb eb],
           c as [sc | sc | | sc mc ec];
    FloatOrder.order_cases.
Qed.

Lemma leb_ltb_trans x y z :
  PrimFloat.leb x y = true -> PrimFloat.ltb y z = true -> PrimFloat.ltb x z = true.
Proof. rewrite leb_spec, !ltb_spec. apply SFcompare_leb_ltb. Qed.

Lemma ltb_leb x y : PrimFloat.ltb x y = true -> PrimFloat.leb x y = true.
Proof.
  rewrite leb_spec, ltb_spec. unfold SFleb, SFltb.
  destruct (SFcompare (Prim2SF x) (Prim2SF y)) as [[ | | ] | ]; congruence.
Qed.

Lemma SFcompare_refl f : f <> S754_nan -> SFcompare f f = Some Eq.
Proof.
  destruct f as [s | s | | s m e]; try congruence; intros _; FloatOrder.order_cases.
Qed.

Lemma is_nan_Prim2SF x : PrimFloat.is_nan x = true <-> Prim2SF x = S754_nan.
Proof.
  unfold PrimFloat.is_nan. rewrite eqb_spec. unfold SFeqb. split.
  - intros H. destruct (Prim2SF x) as [s | s | | s m e] eqn:E; try reflexivity;
      rewrite SFcompare_refl in H by congruence; discriminate.
  - intros ->. reflexivity.
Qed.

Lemma ltb_positive_not_nan x : PrimFloat.ltb 0 x = true -> PrimFloat.is_nan x = false.
Proof.
  intros H. destruct (PrimFloat.is_nan x) eqn:E; [ | reflexivity].
  apply is_nan_Prim2SF in E. rewrite ltb_spec, E in H. discriminate.
Qed.

(** A NaN latency: nothing raises, the throughput is a NaN and the target
    comparison is false. *)
Lemma gflops_nan avg :
  PrimFloat.is_nan avg = true ->
  PrimFloat.ltb avg TARGET_MS = false /\
  exists g, gflops avg = Ok g /\ PrimFloat.is_nan g = true.
Proof.
  intros H. apply is_nan_Prim2SF in H. split.
  - rewrite ltb_spec, H. reflexivity.
  - rewrite gflops_eq.
    assert (Hp : Prim2SF (PrimFloat.mul avg MS_TO_S) = S754_nan).
    { rewrite mul_spec, H. reflexivity. }
    assert (Hz : PrimFloat.eqb (PrimFloat.mul avg MS_TO_S) 0 = false).
    { rewrite eqb_spec, Hp. reflexivity. }
    rewrite Hz. eexists. split; [reflexivity | ].
    apply is_nan_Prim2SF. rewrite !div_spec, Hp, Prim2SF_FLOP_COUNT, Prim2SF_GIGA.
    reflexivity.
Qed.

(** A zero latency of either sign: the division raises. *)
Lemma gflops_zero avg :
  PrimFloat.eqb avg 0 = true -> gflops avg = Raise ZeroDivisionError.
Proof.
  intros H. rewrite gflops_eq.
  assert (Hz : PrimFloat.eqb (PrimFloat.mul avg MS_TO_S) 0 = true).
  { rewrite eqb_spec, Prim2SF_zero in *. rewrite mul_spec, Prim2SF_MS_TO_S.
    destruct (Prim2SF avg) as [[ | ] | [ | ] | | [ | ] m e]; try discriminate; reflexivity. }
  now rewrite Hz.
Qed.

Lemma SFdiv_good_nonneg q mg eg :
  good q -> nonneg (SFdiv prec emax q (S754_finite false mg eg)).
Proof.
  destruct q as [[ | ] | [ | ] | | [ | ] m e]; try contradiction; intros _;
    try exact I.
  destruct (SFdiv_round m e mg eg) as (n & E & Hr & ->).
  eapply rounds_to_nonneg; eassumption.
Qed.

(** For a positive latency the throughput, when there is one, is not
    negative and not a NaN. *)
Lemma gflops_nonneg avg g :
  PrimFloat.ltb 0 avg = true -> gflops avg = Ok g ->
  PrimFloat.leb 0 g = true /\ PrimFloat.is_nan g = false.
Proof.
  intros Hpos. rewrite gflops_eq.
  destruct (PrimFloat.eqb (PrimFloat.mul avg MS_TO_S) 0) eqn:Hnz; [discriminate | ].
  intros [= <-].
  pose proof (positive_float avg Hpos) as Hx.
  assert (Hxx : SFleb (Prim2SF avg) (Prim2SF avg) = true).
  { apply SFleb_refl. destruct (Prim2SF avg) as [[ | ] | [ | ] | | [ | ] m e];
      try contradiction; exact I. }
  assert (Hk : (2 ^ 52 <= 4611686018427388)%Z) by (vm_compute; discriminate).
  destruct (SFmul_mono _ _ 4611686018427388 (-62) Hk Hx Hx Hxx) as (Np & _ & Hp).
  rewrite <- Prim2SF_MS_TO_S in Np, Hp.
  change (SFmul prec emax) with SF64mul in Np, Hp.
  rewrite <- (mul_spec avg) in Np, Hp.
  set (p := PrimFloat.mul avg MS_TO_S) in *.
  rewrite eqb_spec, Prim2SF_zero in Hnz.
  pose proof (good_nonzero_positive _ (Prim2SF_good _ Np) Hnz) as Pp.
  destruct (SFdiv_antitone 7095969767576917 (-27) _ _ Pp Pp Hp) as (Nq & _ & _).
  rewrite <- Prim2SF_FLOP_COUNT in Nq.
  change (SFdiv prec emax) with SF64div in Nq.
  rewrite <- (div_spec FLOP_COUNT p) in Nq.
  pose proof (SFdiv_good_nonneg _ 8388608000000000 (-23) (Prim2SF_good _ Nq)) as Ng.
  rewrite <- Prim2SF_GIGA in Ng.
  change (SFdiv prec emax) with SF64div in Ng.
  rewrite <- div_spec in Ng.
  set (g := PrimFloat.div (PrimFloat.div FLOP_COUNT p) GIGA) in *.
  split.
  - rewrite leb_spec, Prim2SF_zero. now apply SFleb_zero_l.
  - destruct (PrimFloat.is_nan g) eqn:E; [ | reflexivity].
    apply is_nan_Prim2SF in E. rewrite E in Ng. contradiction.
Qed.

(** The target flag splits the throughputs at [GFLOPS_AT_TARGET]. *)
Lemma gflops_target_split avg g :
  PrimFloat.ltb 0 avg = true -> gflops avg = Ok g ->
  (PrimFloat.ltb avg TARGET_MS = true -> PrimFloat.leb GFLOPS_AT_TARGET g = true) /\
  (PrimFloat.ltb avg TARGET_MS = false -> PrimFloat.leb g GFLOPS_AT_TARGET = true).
Proof.
  intros Hpos. rewrite gflops_eq.
  destruct (PrimFloat.eqb (PrimFloat.mul avg MS_TO_S) 0) eqn:Hnz; [discriminate | ].
  intros [= <-]. split; intros Ht.
  - apply ltb_leb in Ht.
    destruct (gflops_monotone avg TARGET_MS Hpos Ht Hnz) as [_ H]. exact H.
  - assert (H5 : PrimFloat.leb TARGET_MS avg = true).
    { apply FloatOrder.not_ltb_leb; [now apply ltb_positive_not_nan | reflexivity | exact Ht]. }
    assert (Hp5 : PrimFloat.ltb 0 TARGET_MS = true) by reflexivity.
    assert (Hz5 : PrimFloat.eqb (PrimFloat.mul TARGET_MS MS_TO_S) 0 = false) by reflexivity.
    destruct (gflops_monotone TARGET_MS avg Hp5 H5 Hz5) as [_ H]. exact H.
Qed.

End MoreFloatFacts.

(** ** Further facts about [min], the renderers and the verdict *)

Section MoreMinFacts.

Lemma ltb_nan_l x y : PrimFloat.is_nan x = true -> PrimFloat.ltb x y = false.
Proof. intros H. apply is_nan_Prim2SF in H. now rewrite ltb_spec, H. Qed.

Lemma ltb_nan_r x y : PrimFloat.is_nan y = true -> PrimFloat.ltb x y = false.
Proof.
  intros H. apply is_nan_Prim2SF in H. rewrite ltb_spec, H.
  unfold SFltb. now destruct (Prim2SF x).
Qed.

Lemma leb_nan_l x y : PrimFloat.is_nan x = true -> PrimFloat.leb x y = false.
Proof. intros H. apply is_nan_Prim2SF in H. now rewrite leb_spec, H. Qed.

Context {A : Type} (key : A -> float).

(** A candidate whose key is a NaN is never replaced. *)
Lemma min_from_nan b l :
  PrimFloat.is_nan (key b) = true -> min_from key b l = b.
Proof.
  intros H. induction l as [ | x t IH]; simpl; [reflexivity | ].
  now rewrite (ltb_nan_r _ _ H).
Qed.

(** An item whose key is a NaN never replaces the candidate. *)
Lemma min_from_filter l : forall b,
  min_from key b l =
  min_from key b (filter (fun e => negb (PrimFloat.is_nan (key e))) l).
Proof.
  induction l as [ | x t IH]; intros b; simpl; [reflexivity | ].
  destruct (PrimFloat.is_nan (key x)) eqn:E; cbn [negb].
  - rewrite (ltb_nan_l _ _ E). apply IH.
  - simpl. destruct (PrimFloat.ltb (key x) (key b)); apply IH.
Qed.

Lemma min_from_app l : forall b x,
  min_from key b (l ++ [x]) =
  if PrimFloat.ltb (key x) (key (min_from key b l)) then x else min_from key b l.
Proof.
  induction l as [ | y t IH]; intros b x; simpl; [reflexivity | ].
  destruct (PrimFloat.ltb (key y) (key b)); apply IH.
Qed.

End MoreMinFacts.

Section MoreRunFacts.

Lemma entries_of_json_dump (a : AnalysisResult) :
  entries_of_json (map (fun kv => (fst kv, json_of_metrics (snd kv))) a) = Some a.
Proof.
  induction a as [ | [k m] t IH]; [reflexivity | ].
  cbn [map fst snd entries_of_json]. rewrite IH. destruct m. reflexivity.
Qed.

(** The document of the JSON report holds the analysis it is made from. *)
Lemma analysis_of_json_document a t : analysis_of_json (json_document a t) = Some a.
Proof. cbn. unfold items. apply entries_of_json_dump. Qed.

End MoreRunFacts.

Section VerdictFacts.

(** What the analysis holds for an entry: its flag and its throughput are
    those of its own latency. *)
Lemma analyze_entry_derived df a e :
  analyze df = Ok a -> In e a ->
  target_met (snd e) = PrimFloat.ltb (avg_of e) TARGET_MS /\
  gflops (avg_of e) = Ok (flops (snd e)).
Proof.
  intros Ha Hin. destruct e as [n m].
  destruct (analyze_entry _ _ _ _ Ha Hin) as (pre & r & post & _ & _ & _ & Hd).
  destruct (derive_fields _ _ Hd) as (_ & _ & Hav & Ht & Hg).
  unfold avg_of. cbn [snd]. now rewrite Ht, Hav.
Qed.

(** The analysis of a table of one row. *)
Lemma analyze_single r :
  Implementation r <> NaN ->
  analyze [r] = (m <- derive r ;; Ok [(Implementation r, m)]).
Proof.
  intros Hne. rewrite analyze_collect. unfold unique.
  cbn [map unique_from existsb collect].
  assert (Hfirst : forall r', In r' [] -> Implementation r' <> Implementation r)
    by (intros r' []).
  pose proof (entry_for_first [] r [] Hfirst) as E. cbn [app] in E. rewrite E.
  destruct (Implementation r); try (destruct (derive r); reflexivity).
  now elim Hne.
Qed.

Lemma analyze_target_flags df a :
  analyze df = Ok a ->
  forall e, In e a -> target_met (snd e) = PrimFloat.ltb (avg_of e) TARGET_MS.
Proof. intros Ha e Hin. now destruct (analyze_entry_derived _ _ _ Ha Hin). Qed.

(** With consistent flags and no NaN, the best entry meets the target exactly
    when some entry does. *)
Lemma best_meets_target_iff_some (a : AnalysisResult) best :
  (forall e, In e a -> target_met (snd e) = PrimFloat.ltb (avg_of e) TARGET_MS) ->
  (forall e, In e a -> PrimFloat.is_nan (avg_of e) = false) ->
  best_of a = Ok best ->
  target_met (snd best) = existsb (fun e => target_met (snd e)) a.
Proof.
  intros Hflag Hnan Hb.
  assert (Hne : a <> []) by (intros ->; discriminate).
  destruct (min_key_first_minimum avg_of a Hne) as (i & b & Hb' & Hmin).
  unfold best_of, items in Hb. unfold avg_of in Hb'.
  assert (b = best) by congruence. subst b.
  pose proof (first_minimum_leb avg_of a i best Hmin Hnan) as Hle.
  destruct Hmin as (Hi & _). apply nth_error_In in Hi.
  destruct (existsb (fun e => target_met (snd e)) a) eqn:E.
  - apply existsb_exists in E. destruct E as [e [He Hmet]].
    rewrite (Hflag e He) in Hmet. rewrite (Hflag best Hi).
    eapply leb_ltb_trans; [apply Hle; exact He | exact Hmet].
  - destruct (target_met (snd best)) eqn:Hm; [ | reflexivity].
    rewrite <- E. symmetry. apply existsb_exists. now exists best.
Qed.

End VerdictFacts.

Section BestFacts.

(** The throughput does not grow with the latency. *)
Lemma gflops_antitone a1 a2 g1 g2 :
  PrimFloat.ltb 0 a1 = true -> PrimFloat.leb a1 a2 = true ->
  gflops a1 = Ok g1 -> gflops a2 = Ok g2 ->
  PrimFloat.leb g2 g1 = true.
Proof.
  intros Hpos Hle. rewrite !gflops_eq.
  destruct (PrimFloat.eqb (PrimFloat.mul a1 MS_TO_S) 0) eqn:E1; [discriminate | ].
  destruct (PrimFloat.eqb (PrimFloat.mul a2 MS_TO_S) 0) eqn:E2; [discriminate | ].
  intros [= <-] [= <-]. now apply gflops_monotone.
Qed.

(** The throughput formula of the specification is what [gflops] computes. *)
Lemma gflops_throughput_formula avg g :
  gflops avg = Ok g -> g = throughput_formula 341 avg.
Proof.
  unfold gflops, throughput_formula.
  cbn [Py.int_truediv N Z.eqb Py.bind]. unfold Py.truediv.
  destruct (PrimFloat.eqb (PrimFloat.mul avg MS_TO_S) 0); cbn [Py.bind];
    [discriminate | ].
  change (PrimFloat.eqb GIGA 0) with false. cbv iota.
  intros [= <-]. reflexivity.
Qed.

End BestFacts.

(** ** The properties of the specification *)

(** C1 (as stated, refuted).  The pick is not always the entry with the
    minimum [avg_ms]: in the analysis of a table whose first row has an empty
    latency cell, the pick is that first entry, whose [avg_ms] is a NaN,
    although another entry has the smallest latency of all. *)
Lemma best_pick_not_minimum :
  analyze Scenario.nan_rows = Ok Scenario.nan_analysis /\
  best_of Scenario.nan_analysis = Ok Scenario.nan_entry /\
  In Scenario.fast_entry Scenario.nan_analysis /\
  (forall e, In e Scenario.nan_analysis ->
             PrimFloat.ltb (avg_of e) (avg_of Scenario.fast_entry) = false) /\
  PrimFloat.ltb (avg_of Scenario.fast_entry) (avg_of Scenario.slow_entry) = true /\
  PrimFloat.leb (avg_of Scenario.nan_entry) (avg_of Scenario.fast_entry) = false /\
  Scenario.nan_entry <> Scenario.fast_entry.
Proof.
  split; [vm_compute; reflexivity | ]. split; [vm_compute; reflexivity | ].
  split; [right; right; left; reflexivity | ].
  split; [intros e [<- | [<- | [<- | []]]]; vm_compute; reflexivity | ].
  split; [vm_compute; reflexivity | ]. split; [vm_compute; reflexivity | ].
  discriminate.
Qed.

(** C1 (amended).  For every non-empty analysis result the best
    implementation is an entry that no entry compares strictly below, the
    earliest of those that compare equal to it.  When no [avg_ms] is a NaN
    that is the entry with the minimum [avg_ms], of smallest insertion index
    among those sharing the minimum.  When the first entry's [avg_ms] is a
    NaN, the pick is that first entry; otherwise the entries whose [avg_ms]
    is a NaN play no part, and the pick is the first minimum of the others.
    The markdown report and the console summary compute the pick by the same
    rule: both complete, and the lines they write name the same entry. *)
Theorem best_impl_first_minimum (self : ProfileAnalyzer) (f : string) (w : World) :
  Py.truthy_dict (profiling_data self) = true ->
  exists i best wm wc content,
    best_of (profiling_data self) = Ok best /\
    nth_error (Py.items (profiling_data self)) i = Some best /\
    (forall e, In e (Py.items (profiling_data self)) ->
               PrimFloat.ltb (avg_of e) (avg_of best) = false) /\
    (forall j e, (j < i)%nat ->
                 nth_error (Py.items (profiling_data self)) j = Some e ->
                 PrimFloat.eqb (avg_of e) (avg_of best) = false) /\
    ((forall e, In e (Py.items (profiling_data self)) ->
                PrimFloat.is_nan (avg_of e) = false) ->
     forall e, In e (Py.items (profiling_data self)) ->
               PrimFloat.leb (avg_of best) (avg_of e) = true) /\
    (forall first rest,
       Py.items (profiling_data self) = first :: rest ->
       (PrimFloat.is_nan (avg_of first) = true -> best = first) /\
       (PrimFloat.is_nan (avg_of first) = false ->
        PrimFloat.is_nan (avg_of best) = false /\
        best_of (filter (fun e => negb (PrimFloat.is_nan (avg_of e)))
                        (Py.items (profiling_data self))) = Ok best /\
        forall e, In e (Py.items (profiling_data self)) ->
                  PrimFloat.is_nan (avg_of e) = false ->
                  PrimFloat.leb (avg_of best) (avg_of e) = true)) /\
    generate_markdown_report self f w = (Ok tt, wm) /\
    Py.getitem (files wm) f = Some content /\
    incl (md_best_lines best) content /\
    print_summary self w = (Ok tt, wc) /\
    incl (console_best_lines best) (stdout wc).
Proof.
  intros Hne. unfold Py.items.
  destruct (profiling_data self) as [ | x t] eqn:Hd; [discriminate | ].
  destruct (min_key_first_minimum avg_of (x :: t)) as (i & best & Hb & Hmin);
    [discriminate | ].
  pose proof Hmin as (Hi & Hlt & Heq).
  injection Hb as Hb.
  exists i, best. eexists. eexists. eexists.
  split; [unfold best_of, Py.items; simpl; now rewrite <- Hb | ].
  split; [exact Hi | ]. split; [exact Hlt | ]. split; [exact Heq | ].
  split; [intros Hnan; now apply (first_minimum_leb avg_of (x :: t) i best) | ].
  split.
  { intros first rest [= <- <-]. split.
    - intros Hn. rewrite <- Hb. now apply min_from_nan.
    - intros Hn.
      set (keep := fun e : Name * Metrics => negb (PrimFloat.is_nan (avg_of e))).
      assert (Hf : best_of (filter keep (x :: t)) = Ok best).
      { cbn [filter]. unfold keep at 1. rewrite Hn. cbn [negb].
        unfold best_of, Py.items. cbn [Py.min_key].
        rewrite <- Hb. f_equal. symmetry. apply (min_from_filter avg_of). }
      assert (Hnn : forall e, In e (filter keep (x :: t)) ->
                              PrimFloat.is_nan (avg_of e) = false).
      { intros e He. apply filter_In in He. destruct He as [_ He].
        unfold keep in He. now destruct (PrimFloat.is_nan (avg_of e)). }
      assert (Hne' : filter keep (x :: t) <> []).
      { cbn [filter]. unfold keep at 1. rewrite Hn. discriminate. }
      destruct (min_key_first_minimum avg_of _ Hne') as (i' & b' & Hb' & Hmin').
      unfold best_of, Py.items in Hf. unfold avg_of in Hb'.
      assert (b' = best) by congruence. subst b'.
      pose proof (first_minimum_leb avg_of _ i' best Hmin' Hnn) as Hle.
      destruct Hmin' as (Hi' & _). apply nth_error_In in Hi'.
      split; [now apply Hnn | ].
      split; [exact Hf | ].
      intros e He Hen. apply Hle. apply filter_In. split; [exact He | ].
      unfold keep. now rewrite Hen. }
  split; [apply generate_markdown_report_run | ].
  cbn [files]. split; [apply getitem_setitem | ].
  unfold avg_of in Hb. split.
  - rewrite Hd. unfold md_document, md_results_lines. rewrite Hb.
    intros l Hl. repeat first [progress cbn [app In] | rewrite in_app_iff]. tauto.
  - split; [apply print_summary_run | ].
    cbn [stdout]. rewrite Hd. unfold summary_lines. rewrite Hb.
    intros l Hl. repeat first [progress cbn [app In] | rewrite in_app_iff]. tauto.
Qed.

Lemma best_impl_first_minimum_witness :
  Py.truthy_dict (profiling_data Scenario.analyzer) = true /\
  exists i best wm wc content,
    best_of (profiling_data Scenario.analyzer) = Ok best /\
    nth_error (Py.items (profiling_data Scenario.analyzer)) i = Some best /\
    (forall e, In e (Py.items (profiling_data Scenario.analyzer)) ->
               PrimFloat.ltb (avg_of e) (avg_of best) = false) /\
    (forall j e, (j < i)%nat ->
                 nth_error (Py.items (profiling_data Scenario.analyzer)) j = Some e ->
                 PrimFloat.eqb (avg_of e) (avg_of best) = false) /\
    ((forall e, In e (Py.items (profiling_data Scenario.analyzer)) ->
                PrimFloat.is_nan (avg_of e) = false) ->
     forall e, In e (Py.items (profiling_data Scenario.analyzer)) ->
               PrimFloat.leb (avg_of best) (avg_of e) = true) /\
    (forall first rest,
       Py.items (profiling_data Scenario.analyzer) = first :: rest ->
       (PrimFloat.is_nan (avg_of first) = true -> best = first) /\
       (PrimFloat.is_nan (avg_of first) = false ->
        PrimFloat.is_nan (avg_of best) = false /\
        best_of (filter (fun e => negb (PrimFloat.is_nan (avg_of e)))
                        (Py.items (profiling_data Scenario.analyzer))) = Ok best /\
        forall e, In e (Py.items (profiling_data Scenario.analyzer)) ->
                  PrimFloat.is_nan (avg_of e) = false ->
                  PrimFloat.leb (avg_of best) (avg_of e) = true)) /\
    generate_markdown_report Scenario.analyzer "report.md" initial_world = (Ok tt, wm) /\
    Py.getitem (files wm) "report.md" = Some content /\
    incl (md_best_lines best) content /\
    print_summary Scenario.analyzer initial_world = (Ok tt, wc) /\
    incl (console_best_lines best) (stdout wc).
Proof.
  split; [reflexivity | ].
  apply (best_impl_first_minimum Scenario.analyzer "report.md" initial_world).
  reflexivity.
Defined.

(** C2. For every record the derived [target_met] flag is exactly the strict
    comparison of the record's own [Avg_ms] with [TARGET_MS = 5.0]: for a
    single row whenever its metrics are derived (and they are whenever
    [Avg_ms * 1e-3] is nonzero), and for every entry of a completed analysis,
    whose flag compares the [Avg_ms] of the first row bearing its name; when
    that [Avg_ms] is 5.0 the flag is false. *)
Theorem target_met_strict (df : DataFrame) (a : AnalysisResult)
    (n : Name) (m : Metrics) :
  analyze df = Ok a -> In (n, m) a ->
  TARGET_MS = 5.0%float /\
  (exists before r after,
     df = before ++ r :: after /\ Implementation r = n /\
     (forall r', In r' before -> Implementation r' <> n) /\
     avg_ms m = Avg_ms r /\
     target_met m = PrimFloat.ltb (Avg_ms r) 5.0%float /\
     (Avg_ms r = 5.0%float -> target_met m = false)) /\
  (forall r m',
     metrics_of [r] = Ok m' ->
     target_met m' = PrimFloat.ltb (Avg_ms r) 5.0%float /\
     (Avg_ms r = 5.0%float -> target_met m' = false)) /\
  (forall r,
     PrimFloat.eqb (PrimFloat.mul (Avg_ms r) 1e-3%float) 0%float = false ->
     exists m', metrics_of [r] = Ok m').
Proof.
  intros Ha Hin.
  assert (Hrow : forall r m', derive r = Ok m' ->
            target_met m' = PrimFloat.ltb (Avg_ms r) 5.0%float /\
            (Avg_ms r = 5.0%float -> target_met m' = false)).
  { intros r m' Hd. destruct (derive_fields _ _ Hd) as (_ & _ & _ & Ht & _).
    split; [exact Ht | ]. intros H5. rewrite Ht, H5. reflexivity. }
  split; [reflexivity | ]. split; [ | split].
  - destruct (analyze_entry _ _ _ _ Ha Hin) as (pre & r & post & E & Hn & Hpre & Hd).
    destruct (derive_fields _ _ Hd) as (_ & _ & Hav & _ & _).
    destruct (Hrow r m Hd) as [Ht H5].
    exists pre, r, post. auto 8.
  - intros r m' Hm. apply Hrow. exact Hm.
  - intros r Hnz. change (metrics_of [r]) with (derive r). unfold derive.
    rewrite gflops_eq. change (1e-3%float) with MS_TO_S in Hnz. rewrite Hnz.
    eexists. reflexivity.
Qed.

Lemma target_met_strict_witness :
  analyze [mkRow "Edge" 4.9%float 5.1%float 5.0%float] =
    Ok [(Str "Edge", mkMetrics 4.9%float 5.1%float 5.0%float false
                               10.573818933333332%float)] /\
  TARGET_MS = 5.0%float /\
  (exists before r after,
     [mkRow "Edge" 4.9%float 5.1%float 5.0%float] = before ++ r :: after /\
     Implementation r = Str "Edge" /\
     (forall r', In r' before -> Implementation r' <> Str "Edge") /\
     avg_ms (mkMetrics 4.9%float 5.1%float 5.0%float false 10.573818933333332%float)
     = Avg_ms r /\
     target_met (mkMetrics 4.9%float 5.1%float 5.0%float false 10.573818933333332%float)
     = PrimFloat.ltb (Avg_ms r) 5.0%float /\
     (Avg_ms r = 5.0%float ->
      target_met (mkMetrics 4.9%float 5.1%float 5.0%float false
                            10.573818933333332%float) = false)) /\
  (forall r m',
     metrics_of [r] = Ok m' ->
     target_met m' = PrimFloat.ltb (Avg_ms r) 5.0%float /\
     (Avg_ms r = 5.0%float -> target_met m' = false)) /\
  (forall r,
     PrimFloat.eqb (PrimFloat.mul (Avg_ms r) 1e-3%float) 0%float = false ->
     exists m', metrics_of [r] = Ok m').
Proof.
  assert (Ha : analyze [mkRow "Edge" 4.9%float 5.1%float 5.0%float] =
               Ok [(Str "Edge", mkMetrics 4.9%float 5.1%float 5.0%float false
                                          10.573818933333332%float)])
    by (vm_compute; reflexivity).
  split; [exact Ha | ].
  exact (target_met_strict
           [mkRow "Edge" 4.9%float 5.1%float 5.0%float]
           [(Str "Edge", mkMetrics 4.9%float 5.1%float 5.0%float false
                                   10.573818933333332%float)]
           (Str "Edge")
           (mkMetrics 4.9%float 5.1%float 5.0%float false 10.573818933333332%float)
           Ha (or_introl eq_refl)).
Defined.

(** C3 (as stated, refuted).  In the reference scenario the throughput derived
    for Hybrid is not within 1% of 98.0; and a positive [avg_ms] does not
    guarantee a throughput: for the smallest positive number the scaled value
    [avg_ms * 1e-3] rounds to zero and the division raises. *)
Lemma hybrid_gflops_not_98 :
  analyze Scenario.rows = Ok Scenario.analysis /\
  Py.getitem Scenario.analysis "Hybrid" = Some Scenario.hybrid /\
  approx (flops Scenario.hybrid) 98.0%float 0.01%float = false /\
  PrimFloat.ltb 0%float Scenario.tiny = true /\
  gflops Scenario.tiny = Raise ZeroDivisionError.
Proof. repeat split; vm_compute; reflexivity. Qed.

(** C3 (amended).  For every record whose metrics are derived, the throughput
    equals [(4 * N**3 / 3) / (avg_ms * 1e-3) / 1e9] with [N = 341] and
    [avg_ms] the record's own [Avg_ms]: for a single row (whose metrics are
    derived whenever [Avg_ms * 1e-3] is nonzero, which holds for every
    [Avg_ms] from 500 * 2^-1074, about 2.5e-321, upwards), and for every
    entry of a completed analysis, from the first row bearing its name. *)
Theorem gflops_formula :
  (forall r m,
     metrics_of [r] = Ok m -> flops m = throughput_formula 341 (Avg_ms r)) /\
  (forall r,
     PrimFloat.eqb (PrimFloat.mul (Avg_ms r) 1e-3%float) 0%float = false ->
     exists m, metrics_of [r] = Ok m) /\
  (forall avg,
     PrimFloat.leb 0x1f4p-1074%float avg = true ->
     PrimFloat.eqb (PrimFloat.mul avg 1e-3%float) 0%float = false) /\
  (forall df a n m,
     analyze df = Ok a -> In (n, m) a ->
     exists before r after,
       df = before ++ r :: after /\ Implementation r = n /\
       (forall r', In r' before -> Implementation r' <> n) /\
       avg_ms m = Avg_ms r /\
       flops m = throughput_formula 341 (Avg_ms r)).
Proof.
  assert (Hrow : forall r m, derive r = Ok m ->
                             flops m = throughput_formula 341 (Avg_ms r)).
  { intros r m Hd. destruct (derive_fields _ _ Hd) as (_ & _ & _ & _ & Hg).
    now apply gflops_throughput_formula. }
  split; [exact Hrow | ]. split; [ | split; [exact scaled_avg_nonzero | ]].
  - intros r Hnz. change (metrics_of [r]) with (derive r). unfold derive.
    rewrite gflops_eq. change (1e-3%float) with MS_TO_S in Hnz. rewrite Hnz.
    eexists. reflexivity.
  - intros df a n m Ha Hin.
    destruct (analyze_entry _ _ _ _ Ha Hin) as (pre & r & post & E & Hn & Hpre & Hd).
    destruct (derive_fields _ _ Hd) as (_ & _ & Hav & _ & _).
    exists pre, r, post. auto 8.
Qed.

Lemma gflops_formula_witness :
  metrics_of [mkRow "Hybrid" 1.5%float 1.8%float 1.6%float] = Ok Scenario.hybrid /\
  flops Scenario.hybrid
  = throughput_formula 341 (Avg_ms (mkRow "Hybrid" 1.5%float 1.8%float 1.6%float)).
Proof.
  assert (H : metrics_of [mkRow "Hybrid" 1.5%float 1.8%float 1.6%float]
              = Ok Scenario.hybrid) by (vm_compute; reflexivity).
  split; [exact H | ].
  exact (proj1 gflops_formula (mkRow "Hybrid" 1.5%float 1.8%float 1.6%float)
           Scenario.hybrid H).
Defined.

(** C4. For every input table on which the analysis completes, its keys are
    the distinct implementation names in order of first appearance (each name
    of the table once; whatever name first appears before [k] in the table
    stands before [k] among the keys), the metrics of each name copy [min_ms],
    [max_ms] and [avg_ms] verbatim from the first row bearing that name, and a
    later duplicate row for a name never alters the analysis. *)
Theorem first_occurrence_wins (df : DataFrame) (a : AnalysisResult) :
  analyze df = Ok a ->
  NoDup (Py.keys a) /\
  (forall n, In n (Py.keys a) <-> In n (map Implementation df)) /\
  (forall pre k post,
     Py.keys a = pre ++ k :: post ->
     exists dpre dpost,
       map Implementation df = dpre ++ k :: dpost /\ ~ In k dpre /\
       forall x, In x dpre -> In x pre) /\
  (forall n m,
     In (n, m) a ->
     exists before r after,
       df = before ++ r :: after /\ Implementation r = n /\
       (forall r', In r' before -> Implementation r' <> n) /\
       min_ms m = Min_ms r /\ max_ms m = Max_ms r /\ avg_ms m = Avg_ms r) /\
  (forall l1 dup l2,
     df = l1 ++ l2 -> In (Implementation dup) (map Implementation l1) ->
     analyze (l1 ++ dup :: l2) = Ok a).
Proof.
  intros Ha. pose proof (analyze_keys _ _ Ha) as Hk. rewrite Hk.
  split; [apply unique_from_NoDup | ].
  split.
  { intros n. unfold unique. rewrite unique_from_In. simpl. tauto. }
  split.
  { intros pre k post E.
    destruct (unique_from_order _ _ _ _ _ E) as (dpre & dpost & Hd & Hn & Hin).
    exists dpre, dpost. split; [exact Hd | ]. split; [exact Hn | ].
    intros x Hx. destruct (Hin x Hx) as [H | []]. exact H. }
  split.
  { intros n m Hin.
    destruct (analyze_entry _ _ _ _ Ha Hin) as (pre & r & post & E & Hn & Hpre & Hd).
    destruct (derive_fields _ _ Hd) as (Hmin & Hmax & Hav & _).
    exists pre, r, post. auto 8. }
  intros l1 dup l2 E Hdup. rewrite analyze_skip_duplicate by exact Hdup.
  now rewrite <- E.
Qed.

Lemma first_occurrence_wins_witness :
  analyze Scenario.rows = Ok Scenario.analysis /\
  NoDup (Py.keys Scenario.analysis) /\
  (forall n, In n (Py.keys Scenario.analysis)
             <-> In n (map Implementation Scenario.rows)) /\
  (forall pre k post,
     Py.keys Scenario.analysis = pre ++ k :: post ->
     exists dpre dpost,
       map Implementation Scenario.rows = dpre ++ k :: dpost /\ ~ In k dpre /\
       forall x, In x dpre -> In x pre) /\
  (forall n m,
     In (n, m) Scenario.analysis ->
     exists before r after,
       Scenario.rows = before ++ r :: after /\ Implementation r = n /\
       (forall r', In r' before -> Implementation r' <> n) /\
       min_ms m = Min_ms r /\ max_ms m = Max_ms r /\ avg_ms m = Avg_ms r) /\
  (forall l1 dup l2,
     Scenario.rows = l1 ++ l2 -> In (Implementation dup) (map Implementation l1) ->
     analyze (l1 ++ dup :: l2) = Ok Scenario.analysis).
Proof.
  split; [vm_compute; reflexivity | ].
  apply (first_occurrence_wins Scenario.rows Scenario.analysis).
  vm_compute. reflexivity.
Defined.



(** C6 (as stated, refuted).  A primary file that loads does not guarantee
    status zero: a table with a zero [Avg_ms] loads, the analysis raises the
    division error, and the program exits with status 1. *)
Lemma loaded_table_exits_nonzero :
  primary_at Scenario.env (arg_csv_file (Scenario.args "zero.csv"))
    = Parsed Scenario.zero_rows /\
  fst (run Scenario.env (Scenario.args "zero.csv")) = 1%Z.
Proof. split; vm_compute; reflexivity. Qed.

(** C6 (amended).  If the primary input cannot be loaded (the file is missing,
    or the read fails otherwise), the program exits with status 1 and writes
    no report.  If it loads and the analysis raises, whatever the exception,
    the status is 1 and no report is written.  If it loads and the analysis
    completes, the status is zero when every name is a key [json.dump] takes
    (in particular when every name is a string) or the JSON report is not
    selected, and 1 otherwise.  The secondary-table argument plays no part in
    any of this beyond the selection of the reports: whether that table
    exists, and what it holds, does not change the run. *)
Theorem exit_status_of_run (env : Env) (args : Args) :
  (primary_at env (arg_csv_file args) = Missing \/
   (exists why, primary_at env (arg_csv_file args) = Unreadable why) ->
   exists w, run env args = (1%Z, w) /\ files w = []) /\
  (forall df e,
     primary_at env (arg_csv_file args) = Parsed df -> analyze df = Raise e ->
     exists w, run env args = (1%Z, w) /\ files w = []) /\
  (forall df a,
     primary_at env (arg_csv_file args) = Parsed df -> analyze df = Ok a ->
     exists w,
       run env args =
       (if json_keys_ok a
           || negb (arg_json args)
              && (arg_markdown args || Py.truthy_str (arg_rocprof args))
        then 0%Z else 1%Z, w)) /\
  (forall df a,
     primary_at env (arg_csv_file args) = Parsed df -> analyze df = Ok a ->
     (forall r, In r df -> exists s, Implementation r = Str s) ->
     exists w, run env args = (0%Z, w)) /\
  (forall secondary,
     run (mkEnv (primary_at env) secondary (path_exists env) (missing_parents env))
         args
     = run env args).
Proof.
  pose proof (main_outcome env args initial_world) as H.
  rewrite after_makedirs_initial in H. cbv zeta in H.
  assert (Hok : forall df a,
            primary_at env (arg_csv_file args) = Parsed df -> analyze df = Ok a ->
            exists w,
              run env args =
              (if json_keys_ok a
                  || negb (arg_json args)
                     && (arg_markdown args || Py.truthy_str (arg_rocprof args))
               then 0%Z else 1%Z, w)).
  { intros df a Hp Ha. rewrite Hp, Ha in H. unfold run. rewrite H.
    unfold wants_json.
    destruct (json_keys_ok a), (arg_json args), (arg_markdown args),
             (Py.truthy_str (arg_rocprof args));
      cbn [negb orb andb exit_status]; eexists; reflexivity. }
  split; [ | split; [ | split; [exact Hok | split]]].
  - intros [Hp | [why Hp]]; rewrite Hp in H; unfold run; rewrite H;
      eexists; split; reflexivity.
  - intros df e Hp Ha. rewrite Hp, Ha in H. unfold run. rewrite H.
    destruct (analyze_raises _ _ Ha) as [-> | ->]; eexists; split; reflexivity.
  - intros df a Hp Ha Hstr. destruct (Hok df a Hp Ha) as [w Hw].
    assert (Hk : json_keys_ok a = true).
    { unfold json_keys_ok. apply forallb_forall. intros n Hn.
      rewrite (analyze_keys _ _ Ha) in Hn. unfold unique in Hn.
      apply unique_from_In in Hn. destruct Hn as [Hn _].
      apply in_map_iff in Hn. destruct Hn as (r & <- & Hr).
      destruct (Hstr r Hr) as [s ->]. reflexivity. }
    rewrite Hk in Hw. exists w. exact Hw.
  - intros secondary. unfold run.
    now rewrite (main_reads_primary_only env
                   (mkEnv (primary_at env) secondary (path_exists env)
                          (missing_parents env))).
Qed.

Lemma exit_status_of_run_witness :
  (primary_at Scenario.env (arg_csv_file (Scenario.args "absent.csv")) = Missing \/
   (exists why,
      primary_at Scenario.env (arg_csv_file (Scenario.args "absent.csv"))
      = Unreadable why)) /\
  exists w, run Scenario.env (Scenario.args "absent.csv") = (1%Z, w) /\ files w = [].
Proof.
  split; [left; reflexivity | ].
  apply (proj1 (exit_status_of_run Scenario.env (Scenario.args "absent.csv"))).
  left. reflexivity.
Defined.

(** C7. Whenever the table loads and the analysis completes, the reports
    written are, for every combination of flags: with the markdown flag the
    markdown report, with the JSON flag the JSON report, with both flags
    both, with neither flag and no secondary-table argument both, and with
    neither flag but a secondary-table argument none; the markdown report
    comes first, the two paths differ, the markdown file holds the document
    of the analysis and the JSON file what the JSON renderer leaves of its
    own.  The program exits with status zero whenever every name is a key
    [json.dump] takes. *)
Theorem renderer_flags (env : Env) (args : Args) (df : DataFrame)
    (a : AnalysisResult) :
  primary_at env (arg_csv_file args) = Parsed df ->
  analyze df = Ok a ->
  md_path args <> json_path args /\
  files (snd (run env args)) =
    match arg_markdown args, arg_json args, Py.truthy_str (arg_rocprof args) with
    | true, true, _ =>
        [(md_path args, md_document a 0); (json_path args, json_written a 2)]
    | true, false, _ => [(md_path args, md_document a 0)]
    | false, true, _ => [(json_path args, json_written a 0)]
    | false, false, false =>
        [(md_path args, md_document a 0); (json_path args, json_written a 2)]
    | false, false, true => []
    end /\
  (json_keys_ok a = true -> fst (run env args) = 0%Z).
Proof.
  intros Hp Ha. split; [apply report_paths_differ | ].
  pose proof (main_outcome env args initial_world) as H.
  rewrite after_makedirs_initial, Hp, Ha in H. cbv zeta in H.
  cbn [files clock] in H. unfold run. rewrite H. clear H.
  pose proof (report_paths_differ args) as Hne.
  unfold wants_markdown, wants_json, json_written.
  destruct (json_keys_ok a), (arg_markdown args), (arg_json args),
           (Py.truthy_str (arg_rocprof args));
    cbn [negb orb andb fst snd files exit_status Nat.add];
    rewrite ?report_step_fresh, ?setitem_report_step_fresh by exact Hne;
    cbn [app report_step]; (split; [reflexivity | ]);
    first [reflexivity | discriminate | intros _; reflexivity].
Qed.

Lemma renderer_flags_witness :
  primary_at Scenario.env (arg_csv_file (Scenario.args "results.csv"))
    = Parsed Scenario.rows /\
  analyze Scenario.rows = Ok Scenario.analysis /\
  md_path (Scenario.args "results.csv") <> json_path (Scenario.args "results.csv") /\
  files (snd (run Scenario.env (Scenario.args "results.csv"))) =
    [(md_path (Scenario.args "results.csv"), md_document Scenario.analysis 0);
     (json_path (Scenario.args "results.csv"), json_written Scenario.analysis 2)] /\
  (json_keys_ok Scenario.analysis = true ->
   fst (run Scenario.env (Scenario.args "results.csv")) = 0%Z).
Proof.
  assert (Ha : analyze Scenario.rows = Ok Scenario.analysis) by (vm_compute; reflexivity).
  split; [reflexivity | ]. split; [exact Ha | ].
  exact (renderer_flags Scenario.env (Scenario.args "results.csv")
           Scenario.rows Scenario.analysis eq_refl Ha).
Defined.

(** C8 (as stated, refuted).  On a missing source the load does not fail with
    a not-found error: it returns normally, with [False], leaving the analyzer
    as it was. *)
Lemma load_missing_returns_false :
  primary_at Scenario.env "absent.csv" = Missing /\
  fst (load_results Scenario.env (init "absent.csv" None) initial_world)
  = Ok (false, init "absent.csv" None) /\
  fst (load_results Scenario.env (init "absent.csv" None) initial_world)
  <> Raise FileNotFoundError.
Proof. repeat split; try (vm_compute; reflexivity). discriminate. Qed.

(** C8 (amended).  On success the load stores the parsed rows, in their order,
    in the analyzer and returns [True]; when the source file is not found it
    prints a message and returns [False] without raising, the analyzer
    unchanged; any other failure of the read escapes as an exception. *)
Theorem load_results_outcome (env : Env) (self : ProfileAnalyzer) (w : World) :
  match primary_at env (csv_file self) with
  | Parsed df =>
      load_results env self w =
      (Ok (true, set_results_df self df),
       mkWorld (stdout w ++ [[Lit "✓ Loaded results from "; Lit (csv_file self)]])
               (files w) (made_dirs w) (clock w))
      /\ results_df (set_results_df self df) = Some df
  | Missing =>
      load_results env self w =
      (Ok (false, self),
       mkWorld (stdout w ++ [[Lit "✗ File not found: "; Lit (csv_file self)]])
               (files w) (made_dirs w) (clock w))
  | Unreadable why =>
      load_results env self w = (Raise (OtherError why), w)
  end.
Proof.
  unfold load_results.
  destruct (primary_at env (csv_file self)) as [df | | why]; cbn [read_csv].
  - split; reflexivity.
  - reflexivity.
  - reflexivity.
Qed.

(** C9. For any two records identical except in [avg_ms], the smaller
    [avg_ms] being positive: whenever both throughputs are derived, the record
    with the larger [avg_ms] has a throughput that is not larger; and both are
    derived as soon as the smaller scaled latency [avg_ms * 1e-3] is nonzero. *)
Theorem gflops_nonincreasing (r1 r2 : Row) :
  Implementation r1 = Implementation r2 ->
  Min_ms r1 = Min_ms r2 -> Max_ms r1 = Max_ms r2 ->
  PrimFloat.ltb 0 (Avg_ms r1) = true ->
  PrimFloat.leb (Avg_ms r1) (Avg_ms r2) = true ->
  (forall m1 m2,
     metrics_of [r1] = Ok m1 -> metrics_of [r2] = Ok m2 ->
     PrimFloat.leb (flops m2) (flops m1) = true) /\
  (PrimFloat.eqb (PrimFloat.mul (Avg_ms r1) 1e-3%float) 0 = false ->
   exists m1 m2, metrics_of [r1] = Ok m1 /\ metrics_of [r2] = Ok m2).
Proof.
  intros _ _ _ Hpos Hle.
  assert (Hm : forall r, metrics_of [r] = derive r) by reflexivity.
  rewrite !Hm. unfold derive. rewrite !gflops_eq. split.
  - intros m1 m2.
    destruct (PrimFloat.eqb (PrimFloat.mul (Avg_ms r1) MS_TO_S) 0) eqn:E1;
      [discriminate | ].
    destruct (PrimFloat.eqb (PrimFloat.mul (Avg_ms r2) MS_TO_S) 0) eqn:E2;
      [discriminate | ].
    cbn [Py.bind]. intros [= <-] [= <-]. cbn [flops].
    now apply gflops_monotone.
  - intros E1. change (1e-3%float) with MS_TO_S in E1.
    destruct (gflops_monotone _ _ Hpos Hle E1) as [E2 _].
    rewrite E1, E2. cbn [Py.bind]. eexists. eexists. split; reflexivity.
Qed.

Lemma gflops_nonincreasing_witness :
  Implementation (mkRow "Hybrid" 1.5%float 1.8%float 1.6%float)
  = Implementation (mkRow "Hybrid" 1.5%float 1.8%float 2.3%float) /\
  PrimFloat.ltb 0 1.6%float = true /\
  PrimFloat.leb 1.6%float 2.3%float = true /\
  (forall m1 m2,
     metrics_of [mkRow "Hybrid" 1.5%float 1.8%float 1.6%float] = Ok m1 ->
     metrics_of [mkRow "Hybrid" 1.5%float 1.8%float 2.3%float] = Ok m2 ->
     PrimFloat.leb (flops m2) (flops m1) = true) /\
  (PrimFloat.eqb (PrimFloat.mul 1.6%float 1e-3%float) 0 = false ->
   exists m1 m2,
     metrics_of [mkRow "Hybrid" 1.5%float 1.8%float 1.6%float] = Ok m1 /\
     metrics_of [mkRow "Hybrid" 1.5%float 1.8%float 2.3%float] = Ok m2).
Proof.
  split; [reflexivity | ]. split; [reflexivity | ]. split; [reflexivity | ].
  apply (gflops_nonincreasing
           (mkRow "Hybrid" 1.5%float 1.8%float 1.6%float)
           (mkRow "Hybrid" 1.5%float 1.8%float 2.3%float));
    reflexivity.
Defined.

(** C10 (as stated, refuted).  A nonzero [Avg_ms] is not enough to exclude the
    division error: for the smallest positive binary64 number the product
    [Avg_ms * 1e-3] rounds to zero and the analysis raises. *)
Lemma nonzero_avg_still_divides_by_zero :
  (forall r, In r Scenario.tiny_rows -> PrimFloat.eqb (Avg_ms r) 0%float = false) /\
  analyze Scenario.tiny_rows = Raise ZeroDivisionError /\
  fst (analyze_performance
         (mkAnalyzer "tiny.csv" None (Some Scenario.tiny_rows) []) initial_world)
  = Raise ZeroDivisionError.
Proof.
  split; [intros r [<- | []]; vm_compute; reflexivity | ].
  split; vm_compute; reflexivity.
Qed.

(** C10 (amended).  The throughput divides by [avg_ms * 1e-3] with no guard:
    for every loaded table in which each row's [Avg_ms * 1e-3] is nonzero,
    [analyze_performance] raises no division error.  When moreover no name
    cell is empty (no name is a NaN), it completes, stores the analysis, and
    the analysis has a metrics entry for every distinct implementation name;
    when some name cell is empty it raises the index error of the empty
    selection instead, and stores nothing. *)
Theorem analysis_completes (self : ProfileAnalyzer) (df : DataFrame) (w : World) :
  results_df self = Some df ->
  (forall r, In r df ->
             PrimFloat.eqb (PrimFloat.mul (Avg_ms r) 1e-3%float) 0%float = false) ->
  fst (analyze_performance self w) <> Raise ZeroDivisionError /\
  ((forall r, In r df -> Implementation r <> NaN) ->
   exists a,
     analyze_performance self w = (Ok (Some a, set_profiling_data self a), w) /\
     Py.keys a = unique (map Implementation df) /\
     forall n, In n (map Implementation df) -> exists m, In (n, m) a) /\
  ((exists r, In r df /\ Implementation r = NaN) ->
   analyze_performance self w = (Raise IndexError, w)).
Proof.
  intros Hdf Hnz.
  assert (Hrun : analyze_performance self w =
                 match analyze df with
                 | Ok a => (Ok (Some a, set_profiling_data self a), w)
                 | Raise e => (Raise e, w)
                 end).
  { unfold analyze_performance. rewrite Hdf.
    unfold IOM.bind, IOM.lift, IOM.ret. now destruct (analyze df). }
  assert (Hnot : analyze df <> Raise ZeroDivisionError).
  { intros Ha. destruct (analyze_raises_why _ _ Ha)
      as [[E _] | (_ & before & r & after & -> & _ & _ & Hz)]; [discriminate | ].
    assert (Hr : In r (before ++ r :: after)) by (apply in_or_app; right; now left).
    pose proof (Hnz r Hr) as Hz'. change (1e-3%float) with MS_TO_S in Hz'.
    congruence. }
  split; [ | split].
  - rewrite Hrun. destruct (analyze df) as [a | e] eqn:Ha; cbn [fst]; congruence.
  - intros Hnn. destruct (analyze_total df Hnn Hnz) as [a Ha].
    exists a. rewrite Hrun, Ha. split; [reflexivity | ].
    pose proof (analyze_keys _ _ Ha) as Hk. split; [exact Hk | ].
    intros n Hn.
    assert (Hin : In n (Py.keys a)).
    { rewrite Hk. unfold unique. apply unique_from_In. simpl. tauto. }
    unfold Py.keys in Hin. apply in_map_iff in Hin.
    destruct Hin as [[n' m] [E Hin]]. simpl in E. subst n'. now exists m.
  - intros (r & Hin & Hnan). rewrite Hrun.
    destruct (analyze df) as [a | e] eqn:Ha.
    + exfalso. assert (Hex : exists a, analyze df = Ok a) by now exists a.
      pose proof (proj1 (analyze_completes_iff df) Hex) as Hall.
      apply in_split in Hin. destruct Hin as (l1 & l2 & ->).
      destruct (find (fun x => same_name (Implementation x) NaN) (l1 ++ r :: l2))
        as [r0 | ] eqn:F.
      * destruct (find_split _ _ _ F) as (pre & post & E & Hr0 & Hpre).
        apply same_name_eq in Hr0.
        destruct (Hall pre r0 post E) as [Hbad _]; [ | contradiction].
        intros r' Hr' E'. specialize (Hpre r' Hr'). rewrite E', Hr0 in Hpre.
        discriminate.
      * assert (Hf : same_name (Implementation r) NaN = false).
        { apply (find_none _ _ F r). apply in_or_app. right. now left. }
        rewrite Hnan in Hf. discriminate.
    + destruct (analyze_raises _ _ Ha) as [-> | ->]; [contradiction | reflexivity].
Qed.

Lemma analysis_completes_witness :
  results_df Scenario.analyzer = Some Scenario.rows /\
  (forall r, In r Scenario.rows ->
             PrimFloat.eqb (PrimFloat.mul (Avg_ms r) 1e-3%float) 0%float = false) /\
  fst (analyze_performance Scenario.analyzer initial_world)
  <> Raise ZeroDivisionError /\
  ((forall r, In r Scenario.rows -> Implementation r <> NaN) ->
   exists a,
     analyze_performance Scenario.analyzer initial_world
     = (Ok (Some a, set_profiling_data Scenario.analyzer a), initial_world) /\
     Py.keys a = unique (map Implementation Scenario.rows) /\
     forall n, In n (map Implementation Scenario.rows) -> exists m, In (n, m) a) /\
  ((exists r, In r Scenario.rows /\ Implementation r = NaN) ->
   analyze_performance Scenario.analyzer initial_world
   = (Raise IndexError, initial_world)).
Proof.
  assert (H : forall r, In r Scenario.rows ->
             PrimFloat.eqb (PrimFloat.mul (Avg_ms r) 1e-3%float) 0%float = false).
  { intros r [<- | [<- | []]]; vm_compute; reflexivity. }
  split; [reflexivity | ]. split; [exact H | ].
  apply (analysis_completes Scenario.analyzer Scenario.rows initial_world eq_refl H).
Defined.

(** ** Further properties of the code *)

(** X1. The analysis completes exactly when no row that is the first of its
    name has an empty name cell (a NaN) or a scaled latency [Avg_ms * 1e-3]
    equal to zero; rows after the first of a name play no part.  When it
    raises the division error, some first row of a name other than NaN has a
    zero scaled latency; when it raises the index error, some name is a
    NaN. *)
Theorem analysis_outcome_by_first_rows (df : DataFrame) :
  ((exists a, analyze df = Ok a) <->
   forall before r after,
     df = before ++ r :: after ->
     (forall r', In r' before -> Implementation r' <> Implementation r) ->
     Implementation r <> NaN /\
     PrimFloat.eqb (PrimFloat.mul (Avg_ms r) 1e-3%float) 0%float = false) /\
  (analyze df = Raise ZeroDivisionError ->
   exists before r after,
     df = before ++ r :: after /\
     (forall r', In r' before -> Implementation r' <> Implementation r) /\
     Implementation r <> NaN /\
     PrimFloat.eqb (PrimFloat.mul (Avg_ms r) 1e-3%float) 0%float = true) /\
  (analyze df = Raise IndexError ->
   exists r, In r df /\ Implementation r = NaN).
Proof.
  split; [apply analyze_completes_iff | split].
  - intros Ha. destruct (analyze_raises_why _ _ Ha) as [[E _] | [_ H]];
      [discriminate | exact H].
  - intros Ha. destruct (analyze_raises_why _ _ Ha) as [[_ H] | [E _]];
      [exact H | discriminate].
Qed.

(** X2. The analysis of two tables put one after the other, when no
    implementation name occurs in both, is the analysis of the first followed
    by the analysis of the second (the first error, if any, is the one
    raised). *)
Theorem analysis_of_concatenation (df1 df2 : DataFrame) :
  (forall n, In n (map Implementation df1) -> ~ In n (map Implementation df2)) ->
  analyze (df1 ++ df2) =
  (a1 <- analyze df1 ;; a2 <- analyze df2 ;; Ok (a1 ++ a2)).
Proof. apply analyze_app. Qed.

Lemma analysis_of_concatenation_witness :
  (forall n, In n (map Implementation [mkRow "RocSOLVER" 2.1%float 2.4%float 2.3%float]) ->
             ~ In n (map Implementation [mkRow "Hybrid" 1.5%float 1.8%float 1.6%float])) /\
  analyze ([mkRow "RocSOLVER" 2.1%float 2.4%float 2.3%float]
           ++ [mkRow "Hybrid" 1.5%float 1.8%float 1.6%float]) =
  (a1 <- analyze [mkRow "RocSOLVER" 2.1%float 2.4%float 2.3%float] ;;
   a2 <- analyze [mkRow "Hybrid" 1.5%float 1.8%float 1.6%float] ;;
   Ok (a1 ++ a2)).
Proof.
  assert (H : forall n,
             In n (map Implementation [mkRow "RocSOLVER" 2.1%float 2.4%float 2.3%float]) ->
             ~ In n (map Implementation [mkRow "Hybrid" 1.5%float 1.8%float 1.6%float])).
  { intros n [<- | []] [H | []]. discriminate. }
  split; [exact H | ].
  exact (analysis_of_concatenation _ _ H).
Defined.

(** X3. A row whose latency is a NaN (an empty cell of the table) does not
    make the analysis fail: added under a new name (not itself an empty
    cell) to a table that analyses, it gives one more entry, with the target
    not met and a NaN throughput. *)
Theorem nan_latency_is_carried (df : DataFrame) (r : Row) (a : AnalysisResult) :
  PrimFloat.is_nan (Avg_ms r) = true ->
  Implementation r <> NaN ->
  (forall r', In r' df -> Implementation r' <> Implementation r) ->
  analyze df = Ok a ->
  exists m,
    analyze (df ++ [r]) = Ok (a ++ [(Implementation r, m)]) /\
    target_met m = false /\
    PrimFloat.is_nan (flops m) = true /\ PrimFloat.is_nan (avg_ms m) = true.
Proof.
  intros H Hname Hnew Ha. destruct (gflops_nan _ H) as (Ht & g & Hg & Hn).
  exists (mkMetrics (Min_ms r) (Max_ms r) (Avg_ms r) false g).
  split; [ | cbn [target_met flops avg_ms]; auto].
  rewrite analyze_app.
  - rewrite Ha, (analyze_single _ Hname). unfold derive. rewrite Hg, Ht. reflexivity.
  - intros n Hin [Hn' | []]. apply in_map_iff in Hin.
    destruct Hin as (r' & Hr' & Hin). apply (Hnew r' Hin). cbn in Hn'. congruence.
Qed.

Lemma nan_latency_is_carried_witness :
  PrimFloat.is_nan (Avg_ms (mkRow "Broken" 1.0%float 2.0%float PrimFloat.nan)) = true /\
  analyze Scenario.rows = Ok Scenario.analysis /\
  exists m,
    analyze (Scenario.rows ++ [mkRow "Broken" 1.0%float 2.0%float PrimFloat.nan])
    = Ok (Scenario.analysis ++ [(Str "Broken", m)]) /\
    target_met m = false /\
    PrimFloat.is_nan (flops m) = true /\ PrimFloat.is_nan (avg_ms m) = true.
Proof.
  assert (Ha : analyze Scenario.rows = Ok Scenario.analysis) by (vm_compute; reflexivity).
  assert (Hnew : forall r', In r' Scenario.rows ->
            Implementation r'
            <> Implementation (mkRow "Broken" 1.0%float 2.0%float PrimFloat.nan)).
  { intros r' [<- | [<- | []]]; discriminate. }
  assert (Hname : Implementation (mkRow "Broken" 1.0%float 2.0%float PrimFloat.nan)
                  <> NaN) by discriminate.
  split; [reflexivity | ]. split; [exact Ha | ].
  exact (nan_latency_is_carried Scenario.rows
           (mkRow "Broken" 1.0%float 2.0%float PrimFloat.nan) Scenario.analysis
           eq_refl Hname Hnew Ha).
Defined.

(** X4. A table that loads but in which the first row of some implementation
    has a latency of zero (of either sign) aborts the run: the program exits
    with status 1 after the loading message, writes no report and prints no
    summary. *)
Theorem zero_latency_aborts_run (env : Env) (args : Args) (df before after : DataFrame)
    (r : Row) :
  primary_at env (arg_csv_file args) = Parsed df ->
  df = before ++ r :: after ->
  (forall r', In r' before -> Implementation r' <> Implementation r) ->
  PrimFloat.eqb (Avg_ms r) 0 = true ->
  run env args =
  (1%Z, mkWorld [[Lit "✓ Loaded results from "; Lit (arg_csv_file args)]]
                [] (dirs_made env args) 0).
Proof.
  intros Hsrc Hdf Hfirst Hz.
  assert (Hp : PrimFloat.eqb (PrimFloat.mul (Avg_ms r) MS_TO_S) 0 = true).
  { pose proof (gflops_zero _ Hz) as Hg. rewrite gflops_eq in Hg.
    destruct (PrimFloat.eqb (PrimFloat.mul (Avg_ms r) MS_TO_S) 0);
      [reflexivity | discriminate]. }
  destruct (analyze_raises_at before r after Hfirst (or_intror Hp)) as [e Ha].
  rewrite <- Hdf in Ha.
  pose proof (main_outcome env args initial_world) as H.
  rewrite Hsrc, Ha, after_makedirs_initial in H. cbv zeta in H.
  unfold run. rewrite H.
  destruct (analyze_raises _ _ Ha) as [-> | ->]; reflexivity.
Qed.

Lemma zero_latency_aborts_run_witness :
  primary_at Scenario.env (arg_csv_file (Scenario.args "zero.csv"))
    = Parsed Scenario.zero_rows /\
  Scenario.zero_rows = [] ++ mkRow "A" 0%float 0%float 0%float :: [] /\
  (forall r', In r' [] ->
              Implementation r' <> Implementation (mkRow "A" 0%float 0%float 0%float)) /\
  PrimFloat.eqb (Avg_ms (mkRow "A" 0%float 0%float 0%float)) 0 = true /\
  run Scenario.env (Scenario.args "zero.csv") =
  (1%Z, mkWorld [[Lit "✓ Loaded results from ";
                  Lit (arg_csv_file (Scenario.args "zero.csv"))]]
                [] (dirs_made Scenario.env (Scenario.args "zero.csv")) 0).
Proof.
  assert (H : forall r' : Row, In r' [] ->
              Implementation r' <> Implementation (mkRow "A" 0%float 0%float 0%float))
    by (intros r' []).
  split; [reflexivity | ]. split; [reflexivity | ]. split; [exact H | ].
  split; [reflexivity | ].
  exact (zero_latency_aborts_run Scenario.env (Scenario.args "zero.csv")
           Scenario.zero_rows [] [] (mkRow "A" 0%float 0%float 0%float)
           eq_refl eq_refl H eq_refl).
Defined.

(** X5. In the result of an analysis, an entry with a positive latency has a
    throughput that is never negative and never a NaN. *)
Theorem throughput_not_negative (df : DataFrame) (a : AnalysisResult)
    (e : Name * Metrics) :
  analyze df = Ok a -> In e a -> PrimFloat.ltb 0 (avg_of e) = true ->
  PrimFloat.leb 0 (flops (snd e)) = true /\ PrimFloat.is_nan (flops (snd e)) = false.
Proof.
  intros Ha Hin Hpos. destruct (analyze_entry_derived _ _ _ Ha Hin) as (_ & Hg).
  exact (gflops_nonneg _ _ Hpos Hg).
Qed.

Lemma throughput_not_negative_witness :
  analyze Scenario.rows = Ok Scenario.analysis /\
  In (Str "Hybrid", Scenario.hybrid) Scenario.analysis /\
  PrimFloat.ltb 0 (avg_of (Str "Hybrid", Scenario.hybrid)) = true /\
  PrimFloat.leb 0 (flops Scenario.hybrid) = true /\
  PrimFloat.is_nan (flops Scenario.hybrid) = false.
Proof.
  assert (Ha : analyze Scenario.rows = Ok Scenario.analysis) by (vm_compute; reflexivity).
  assert (Hin : In (Str "Hybrid", Scenario.hybrid) Scenario.analysis)
    by (right; left; reflexivity).
  split; [exact Ha | ]. split; [exact Hin | ]. split; [reflexivity | ].
  exact (throughput_not_negative Scenario.rows Scenario.analysis
           (Str "Hybrid", Scenario.hybrid) Ha Hin eq_refl).
Defined.

(** X6. The target flag and the throughput agree: with [GFLOPS_AT_TARGET] the
    throughput derived for a latency of exactly 5.0 ms, an entry of an
    analysis with a positive latency that meets the target has a throughput
    of at least [GFLOPS_AT_TARGET], and one that misses it has at most
    that. *)
Theorem target_splits_throughput (df : DataFrame) (a : AnalysisResult)
    (e : Name * Metrics) :
  analyze df = Ok a -> In e a -> PrimFloat.ltb 0 (avg_of e) = true ->
  gflops TARGET_MS = Ok GFLOPS_AT_TARGET /\
  (target_met (snd e) = true ->
   PrimFloat.leb GFLOPS_AT_TARGET (flops (snd e)) = true) /\
  (target_met (snd e) = false ->
   PrimFloat.leb (flops (snd e)) GFLOPS_AT_TARGET = true).
Proof.
  intros Ha Hin Hpos. destruct (analyze_entry_derived _ _ _ Ha Hin) as (Ht & Hg).
  split; [vm_compute; reflexivity | ]. rewrite Ht.
  exact (gflops_target_split _ _ Hpos Hg).
Qed.

Lemma target_splits_throughput_witness :
  analyze Scenario.rows = Ok Scenario.analysis /\
  In (Str "Hybrid", Scenario.hybrid) Scenario.analysis /\
  PrimFloat.ltb 0 (avg_of (Str "Hybrid", Scenario.hybrid)) = true /\
  gflops TARGET_MS = Ok GFLOPS_AT_TARGET /\
  (target_met Scenario.hybrid = true ->
   PrimFloat.leb GFLOPS_AT_TARGET (flops Scenario.hybrid) = true) /\
  (target_met Scenario.hybrid = false ->
   PrimFloat.leb (flops Scenario.hybrid) GFLOPS_AT_TARGET = true).
Proof.
  assert (Ha : analyze Scenario.rows = Ok Scenario.analysis) by (vm_compute; reflexivity).
  assert (Hin : In (Str "Hybrid", Scenario.hybrid) Scenario.analysis)
    by (right; left; reflexivity).
  split; [exact Ha | ]. split; [exact Hin | ]. split; [reflexivity | ].
  exact (target_splits_throughput Scenario.rows Scenario.analysis
           (Str "Hybrid", Scenario.hybrid) Ha Hin eq_refl).
Defined.

(** X7. After an analysis in which no latency is a NaN, the verdict line of
    the console summary reads ACHIEVED exactly when at least one
    implementation met the target. *)
Theorem summary_verdict (df : DataFrame) (self : ProfileAnalyzer) (w : World) :
  analyze df = Ok (profiling_data self) ->
  Py.truthy_dict (profiling_data self) = true ->
  (forall e, In e (profiling_data self) -> PrimFloat.is_nan (avg_of e) = false) ->
  exists wc,
    print_summary self w = (Ok tt, wc) /\
    In [Lit "Target (<5 ms): ";
        Lit (if existsb (fun e => target_met (snd e)) (profiling_data self)
             then "✓ ACHIEVED" else "✗ NOT MET")]
       (stdout wc).
Proof.
  intros Ha Hne Hnan. eexists. split; [apply print_summary_run | ].
  cbn [stdout]. destruct (profiling_data self) as [ | x t] eqn:Hd; [discriminate | ].
  assert (Hb : best_of (x :: t) = Ok (min_from (fun e => avg_ms (snd e)) x t))
    by reflexivity.
  rewrite <- (best_meets_target_iff_some (x :: t) _
                (analyze_target_flags _ _ Ha) Hnan Hb).
  unfold summary_lines, console_best_lines, yes_no.
  repeat first [progress cbn [app In] | rewrite in_app_iff]. tauto.
Qed.

Lemma summary_verdict_witness :
  analyze Scenario.rows = Ok (profiling_data Scenario.analyzer) /\
  Py.truthy_dict (profiling_data Scenario.analyzer) = true /\
  (forall e, In e (profiling_data Scenario.analyzer) ->
             PrimFloat.is_nan (avg_of e) = false) /\
  exists wc,
    print_summary Scenario.analyzer initial_world = (Ok tt, wc) /\
    In [Lit "Target (<5 ms): ";
        Lit (if existsb (fun e => target_met (snd e)) (profiling_data Scenario.analyzer)
             then "✓ ACHIEVED" else "✗ NOT MET")]
       (stdout wc).
Proof.
  assert (Hn : forall e, In e (profiling_data Scenario.analyzer) ->
                         PrimFloat.is_nan (avg_of e) = false).
  { intros e [<- | [<- | []]]; reflexivity. }
  assert (Ha : analyze Scenario.rows = Ok (profiling_data Scenario.analyzer))
    by (vm_compute; reflexivity).
  split; [exact Ha | ]. split; [reflexivity | ]. split; [exact Hn | ].
  exact (summary_verdict Scenario.rows Scenario.analyzer initial_world Ha eq_refl Hn).
Defined.

(** X8. Adding one more implementation at the end of the analysis changes the
    best implementation only if the newcomer is strictly faster: otherwise
    the earlier pick stands, also on a tie. *)
Theorem best_after_append (data : AnalysisResult) (e best : Name * Metrics) :
  best_of data = Ok best ->
  best_of (data ++ [e]) =
  Ok (if PrimFloat.ltb (avg_of e) (avg_of best) then e else best).
Proof.
  unfold best_of, items. destruct data as [ | x t]; [discriminate | ].
  cbn [app min_key]. intros [= <-]. now rewrite min_from_app.
Qed.

Lemma best_after_append_witness :
  best_of [(Str "RocSOLVER", Scenario.rocsolver)]
  = Ok (Str "RocSOLVER", Scenario.rocsolver) /\
  best_of ([(Str "RocSOLVER", Scenario.rocsolver)] ++ [(Str "Hybrid", Scenario.hybrid)]) =
  Ok (if PrimFloat.ltb (avg_of (Str "Hybrid", Scenario.hybrid))
                       (avg_of (Str "RocSOLVER", Scenario.rocsolver))
      then (Str "Hybrid", Scenario.hybrid) else (Str "RocSOLVER", Scenario.rocsolver)).
Proof.
  split; [reflexivity | ].
  apply (best_after_append [(Str "RocSOLVER", Scenario.rocsolver)]
           (Str "Hybrid", Scenario.hybrid) (Str "RocSOLVER", Scenario.rocsolver)).
  reflexivity.
Defined.

(** X9. The document [generate_json_report] hands to [json.dump] holds the
    whole analysis: its ["implementations"] member, read field by field, is
    the analyzer's result, names in the same order, all five fields of each;
    its ["matrix_size"] and ["target_time_ms"] are the constants the analysis
    itself uses.  When every name is a key [json.dump] takes (a string, an
    empty cell), the renderer completes and its file holds the dump of that
    document; when some name is not (a column of integers or of booleans),
    the renderer raises [TypeError], leaves the file truncated and does not
    print its line. *)
Theorem json_report_holds_analysis (self : ProfileAnalyzer) (f : string) (w : World) :
  let doc := json_document (profiling_data self) (clock w) in
  analysis_of_json doc = Some (profiling_data self) /\
  json_top doc "matrix_size" = Some (JInt N) /\
  json_top doc "target_time_ms" = Some (JFloat TARGET_MS) /\
  ((forall n, In n (Py.keys (profiling_data self)) -> n = NaN \/ exists s, n = Str s) ->
   exists w',
     generate_json_report self f w = (Ok tt, w') /\
     Py.getitem (files w') f = Some [[JsonDump 2 doc]] /\
     stdout w' = stdout w ++ [[Lit "✓ JSON report generated: "; Lit f]]) /\
  ((exists n, In n (Py.keys (profiling_data self)) /\
              ((exists z, n = Int64 z) \/ (exists b, n = Bool_ b))) ->
   exists w',
     generate_json_report self f w = (Raise TypeError, w') /\
     Py.getitem (files w') f = Some [[JsonTruncated 2 doc]] /\
     stdout w' = stdout w).
Proof.
  intros doc. split; [apply analysis_of_json_document | ].
  split; [reflexivity | ]. split; [reflexivity | ].
  rewrite generate_json_report_run. fold doc. split.
  - intros Hk.
    assert (E : json_keys_ok (profiling_data self) = true).
    { apply forallb_forall. intros n Hn.
      destruct (Hk n Hn) as [-> | [s ->]]; reflexivity. }
    rewrite E. eexists. split; [reflexivity | ].
    cbn [files stdout]. split; [apply getitem_setitem | reflexivity].
  - intros (n & Hn & Hbad).
    assert (E : json_keys_ok (profiling_data self) = false).
    { destruct (json_keys_ok (profiling_data self)) eqn:E; [ | reflexivity].
      unfold json_keys_ok in E. rewrite forallb_forall in E. specialize (E n Hn).
      destruct Hbad as [[z ->] | [b ->]]; discriminate. }
    rewrite E. eexists. split; [reflexivity | ].
    cbn [files stdout]. split; [apply getitem_setitem | reflexivity].
Qed.

Lemma json_report_holds_analysis_witness :
  (exists n, In n (Py.keys Scenario.int_analysis) /\
             ((exists z, n = Int64 z) \/ (exists b, n = Bool_ b))) /\
  exists w',
    generate_json_report (mkAnalyzer "ints.csv" None (Some Scenario.int_rows)
                                     Scenario.int_analysis) "data.json" initial_world
    = (Raise TypeError, w') /\
    Py.getitem (files w') "data.json"
    = Some [[JsonTruncated 2 (json_document Scenario.int_analysis 0)]] /\
    stdout w' = stdout initial_world.
Proof.
  assert (H : exists n, In n (Py.keys Scenario.int_analysis) /\
                        ((exists z, n = Int64 z) \/ (exists b, n = Bool_ b))).
  { exists (Int64 1). split; [left; reflexivity | left; now exists 1%Z]. }
  split; [exact H | ].
  exact (proj2 (proj2 (proj2 (proj2
           (json_report_holds_analysis
              (mkAnalyzer "ints.csv" None (Some Scenario.int_rows) Scenario.int_analysis)
              "data.json" initial_world)))) H).
Defined.

(** X10. Each renderer touches only its own output: the markdown and the JSON
    renderer leave every other file as it was, the console renderer leaves
    all files alone; none makes a directory; the markdown renderer reads the
    clock twice, the JSON renderer once, the console renderer never.  The
    markdown and the console renderer always complete; the JSON renderer
    completes or raises [TypeError], and prints its line only when it
    completes. *)
Theorem renderers_frame (self : ProfileAnalyzer) (f : string) (w : World) :
  (exists wm line,
     generate_markdown_report self f w = (Ok tt, wm) /\
     (forall p, p <> f -> Py.getitem (files wm) p = Py.getitem (files w) p) /\
     made_dirs wm = made_dirs w /\ clock wm = (clock w + 2)%nat /\
     stdout wm = stdout w ++ [line]) /\
  (exists r wj,
     generate_json_report self f w = (r, wj) /\
     (r = Ok tt \/ r = Raise TypeError) /\
     (forall p, p <> f -> Py.getitem (files wj) p = Py.getitem (files w) p) /\
     made_dirs wj = made_dirs w /\ clock wj = (clock w + 1)%nat /\
     (r = Ok tt -> exists line, stdout wj = stdout w ++ [line]) /\
     (r = Raise TypeError -> stdout wj = stdout w)) /\
  (exists wc,
     print_summary self w = (Ok tt, wc) /\
     files wc = files w /\ made_dirs wc = made_dirs w /\ clock wc = clock w).
Proof.
  split; [ | split].
  - eexists. eexists. split; [apply generate_markdown_report_run | ].
    cbn [files made_dirs clock stdout]. split; [ | split; [reflexivity | split; [lia | reflexivity]]].
    intros p Hp. apply getitem_setitem_other. congruence.
  - rewrite generate_json_report_run.
    destruct (json_keys_ok (profiling_data self)); eexists; eexists;
      (split; [reflexivity | ]); cbn [files made_dirs clock stdout].
    + split; [now left | ]. split.
      { intros p Hp. apply getitem_setitem_other. congruence. }
      split; [reflexivity | ]. split; [lia | ].
      split; [intros _; eexists; reflexivity | discriminate].
    + split; [now right | ]. split.
      { intros p Hp. apply getitem_setitem_other. congruence. }
      split; [reflexivity | ]. split; [lia | ].
      split; [discriminate | reflexivity].
  - eexists. split; [apply print_summary_run | ]. cbn. auto.
Qed.

(** X13. Without a renderer flag, the secondary-table argument alone decides
    the reports.  Given and non-empty, it suppresses both: the run prints the
    loading line and the summary, writes no file and exits with status zero,
    whatever the names are.  Absent, or the empty string, it lets both
    renderers run, the markdown one first. *)
Theorem secondary_argument_suppresses_reports (env : Env) (args : Args)
    (df : DataFrame) (a : AnalysisResult) :
  primary_at env (arg_csv_file args) = Parsed df ->
  analyze df = Ok a ->
  arg_markdown args = false -> arg_json args = false ->
  match arg_rocprof args with
  | None | Some "" =>
      Py.keys (files (snd (run env args))) = [md_path args; json_path args]
  | Some _ =>
      run env args =
      (0%Z,
       mkWorld ([[Lit "✓ Loaded results from "; Lit (arg_csv_file args)]]
                ++ summary_lines a)
               [] (dirs_made env args) 0)
  end.
Proof.
  intros Hsrc Ha Hm Hj.
  pose proof (main_outcome env args initial_world) as H.
  rewrite Hsrc, Ha, after_makedirs_initial in H. cbv zeta in H.
  cbn [files clock stdout made_dirs] in H. unfold run. rewrite H. clear H.
  pose proof (report_paths_differ args) as Hne.
  unfold progress_lines, lines_before_json, wants_markdown, wants_json.
  rewrite Hm, Hj. cbn [negb orb andb].
  destruct (arg_rocprof args) as [[ | c s] | ]; cbn [Py.truthy_str String.eqb negb orb];
    try reflexivity;
    destruct (json_keys_ok a); cbn [snd files];
    rewrite ?report_step_fresh, ?setitem_report_step_fresh by exact Hne;
    reflexivity.
Qed.

Lemma secondary_argument_suppresses_reports_witness :
  primary_at Scenario.env
    (arg_csv_file (mkArgs "ints.csv" (Some "rocprof.csv") false false None))
    = Parsed Scenario.int_rows /\
  analyze Scenario.int_rows = Ok Scenario.int_analysis /\
  run Scenario.env (mkArgs "ints.csv" (Some "rocprof.csv") false false None) =
  (0%Z,
   mkWorld ([[Lit "✓ Loaded results from "; Lit "ints.csv"]]
            ++ summary_lines Scenario.int_analysis)
           [] (dirs_made Scenario.env
                 (mkArgs "ints.csv" (Some "rocprof.csv") false false None)) 0).
Proof.
  assert (Ha : analyze Scenario.int_rows = Ok Scenario.int_analysis)
    by (vm_compute; reflexivity).
  split; [reflexivity | ]. split; [exact Ha | ].
  exact (secondary_argument_suppresses_reports Scenario.env
           (mkArgs "ints.csv" (Some "rocprof.csv") false false None)
           Scenario.int_rows Scenario.int_analysis eq_refl Ha eq_refl eq_refl).
Defined.

(** X14. The output directory is made before the input is looked at: whatever
    the outcome of the run, the directories made are the same, the missing
    ancestors of the output directory and then the directory itself when it
    is named, is not ["."] and does not exist, and none otherwise. *)
Theorem output_directory_made_first (env : Env) (args : Args) :
  made_dirs (snd (run env args)) =
  match arg_output args with
  | None | Some "" | Some "." => []
  | Some d =>
      if path_exists env d then [] else missing_parents env d ++ [d]
  end.
Proof.
  assert (E : dirs_made env args =
              match arg_output args with
              | None | Some "" | Some "." => []
              | Some d =>
                  if path_exists env d then [] else missing_parents env d ++ [d]
              end).
  { unfold dirs_made, output_dir_of.
    destruct (arg_output args) as [d | ]; [ | reflexivity].
    cbn [Py.truthy_str].
    destruct (String.eqb_spec d "") as [-> | Hd]; [reflexivity | ]. cbn [negb].
    destruct (String.eqb_spec d ".") as [-> | Hdot]; [reflexivity | ]. cbn [negb andb].
    destruct d as [ | c d]; [now elim Hd | ].
    destruct (path_exists env (String c d)); cbn [negb];
      destruct c as [[ | ] [ | ] [ | ] [ | ] [ | ] [ | ] [ | ] [ | ]];
      destruct d; try reflexivity; now elim Hdot. }
  rewrite <- E. clear E.
  pose proof (main_outcome env args initial_world) as H.
  rewrite after_makedirs_initial in H. cbv zeta in H. unfold run.
  destruct (primary_at env (arg_csv_file args)) as [df | | why].
  - destruct (analyze df) as [a | e].
    + rewrite H. now destruct (negb (wants_json args) || json_keys_ok a).
    + rewrite H. reflexivity.
  - rewrite H. reflexivity.
  - rewrite H. reflexivity.
Qed.

(** X15. What a run prints: on a missing primary file the not-found line and
    nothing else; on any other read failure nothing; when the analysis
    raises, the loading line only; when the JSON report is selected and some
    name is not a key [json.dump] takes, the loading line and the line of
    the markdown report if that one is selected, and no summary; otherwise
    the loading line, one line per report written (markdown first), then the
    summary. *)
Theorem console_transcript (env : Env) (args : Args) :
  stdout (snd (run env args)) =
  match primary_at env (arg_csv_file args) with
  | Missing => [[Lit "✗ File not found: "; Lit (arg_csv_file args)]]
  | Unreadable _ => []
  | Parsed df =>
      match analyze df with
      | Raise _ => [[Lit "✓ Loaded results from "; Lit (arg_csv_file args)]]
      | Ok a =>
          [[Lit "✓ Loaded results from "; Lit (arg_csv_file args)]]
          ++ (if selects_markdown args
              then [[Lit "✓ Report generated: "; Lit (md_path args)]] else [])
          ++ (if selects_json args
              then if json_keys_ok a
                   then [[Lit "✓ JSON report generated: "; Lit (json_path args)]]
                        ++ summary_lines a
                   else []
              else summary_lines a)
      end
  end.
Proof.
  pose proof (main_outcome env args initial_world) as H.
  rewrite after_makedirs_initial in H. cbv zeta in H. unfold run.
  destruct (primary_at env (arg_csv_file args)) as [df | | why].
  - destruct (analyze df) as [a | e].
    + rewrite H. clear H.
      unfold progress_lines, lines_before_json, wants_markdown, wants_json,
             selects_markdown, selects_json.
      destruct (json_keys_ok a), (arg_markdown args), (arg_json args),
               (Py.truthy_str (arg_rocprof args));
        cbn [negb orb andb snd stdout app]; rewrite ?app_nil_r; reflexivity.
    + rewrite H. reflexivity.
  - rewrite H. reflexivity.
  - rewrite H. reflexivity.
Qed.

(** X18. When every latency of an analysis is positive, the best
    implementation, picked by latency, also has the highest throughput: no
    entry has a throughput above its own. *)
Theorem best_has_highest_throughput (df : DataFrame) (a : AnalysisResult)
    (best : Name * Metrics) :
  analyze df = Ok a ->
  (forall e, In e a -> PrimFloat.ltb 0 (avg_of e) = true) ->
  best_of a = Ok best ->
  In best a /\
  forall e, In e a -> PrimFloat.leb (flops (snd e)) (flops (snd best)) = true.
Proof.
  intros Ha Hpos Hb.
  assert (Hne : a <> []) by (intros ->; discriminate).
  destruct (min_key_first_minimum avg_of a Hne) as (i & b & Hb' & Hmin).
  unfold best_of, items in Hb. unfold avg_of in Hb'.
  assert (b = best) by congruence. subst b.
  assert (Hnan : forall e, In e a -> PrimFloat.is_nan (avg_of e) = false)
    by (intros e He; apply ltb_positive_not_nan, Hpos, He).
  pose proof (first_minimum_leb avg_of a i best Hmin Hnan) as Hle.
  destruct Hmin as (Hi & _). apply nth_error_In in Hi.
  split; [exact Hi | ]. intros e He.
  destruct (analyze_entry_derived _ _ _ Ha Hi) as (_ & Hgb).
  destruct (analyze_entry_derived _ _ _ Ha He) as (_ & Hge).
  exact (gflops_antitone _ _ _ _ (Hpos best Hi) (Hle e He) Hgb Hge).
Qed.

Lemma best_has_highest_throughput_witness :
  analyze Scenario.rows = Ok Scenario.analysis /\
  (forall e, In e Scenario.analysis -> PrimFloat.ltb 0 (avg_of e) = true) /\
  best_of Scenario.analysis = Ok (Str "Hybrid", Scenario.hybrid) /\
  In (Str "Hybrid", Scenario.hybrid) Scenario.analysis /\
  forall e, In e Scenario.analysis ->
            PrimFloat.leb (flops (snd e))
                          (flops (snd (Str "Hybrid", Scenario.hybrid))) = true.
Proof.
  assert (Ha : analyze Scenario.rows = Ok Scenario.analysis) by (vm_compute; reflexivity).
  assert (Hpos : forall e, In e Scenario.analysis -> PrimFloat.ltb 0 (avg_of e) = true).
  { intros e [<- | [<- | []]]; reflexivity. }
  assert (Hb : best_of Scenario.analysis = Ok (Str "Hybrid", Scenario.hybrid))
    by (vm_compute; reflexivity).
  split; [exact Ha | ]. split; [exact Hpos | ]. split; [exact Hb | ].
  exact (best_has_highest_throughput Scenario.rows Scenario.analysis
           (Str "Hybrid", Scenario.hybrid) Ha Hpos Hb).
Defined.
